(** * RF_tutorial.ipynb: a Random Forest walkthrough for drought prediction

    A shallow embedding of the notebook's code cells.  The notebook is glue
    around pandas, numpy and scikit-learn: each library call is modelled by
    what the library documents for the arguments the notebook passes, the
    tree-growing of the forest is kept opaque behind an interface, and the
    cells themselves are state transformers over the notebook's global
    namespace that may raise a Python exception. *)

From Stdlib Require Import String Bool Arith PeanoNat ZArith QArith Qround Qabs.
From Stdlib Require Import List Permutation Sorted Lia Lqa.
Import ListNotations.

Open Scope nat_scope.

(** ** Python exceptions and the error monad *)

Module Py.

(** The exceptions the modelled calls can raise.  The notebook has no
    [try], [except] or [raise] of its own. *)
Inductive exn : Type :=
| FileNotFoundError          (* pd.read_csv: no such file *)
| EmptyDataError             (* pd.read_csv: no columns to parse *)
| ParserError                (* pd.read_csv: error tokenizing data *)
| DriverError                (* gpd.read_file: no boundary file to open *)
| KeyError (missing : list string)
                             (* frame[name], frame[[names]]: the names that
                                are not columns *)
| NameError (k : string)     (* a global that was never bound *)
| TypeError
| ValueError
| IndexError
| NotFittedError.            (* a forest used before fit *)

Definition t (A : Type) : Type := (exn + A)%type.

Definition ret {A} (a : A) : t A := inr a.
Definition raise {A} (e : exn) : t A := inl e.
Definition bind {A B} (m : t A) (k : A -> t B) : t B :=
  match m with
  | inl e => inl e
  | inr a => k a
  end.

(** [for x in xs: body], threading the state, stopping at the first
    exception. *)
Fixpoint for_each {A S} (body : A -> S -> t S) (xs : list A) (s : S) : t S :=
  match xs with
  | [] => ret s
  | x :: xs' => bind (body x s) (for_each body xs')
  end.

(** [[f(x) for x in xs]] where [f] may raise. *)
Fixpoint map_m {A B} (f : A -> t B) (xs : list A) : t (list B) :=
  match xs with
  | [] => ret []
  | x :: xs' => bind (f x) (fun b => bind (map_m f xs') (fun bs => ret (b :: bs)))
  end.

End Py.

Notation "x <- m ;; k" := (Py.bind m (fun x => k))
  (at level 61, m at next level, right associativity).
Notation "' pat <- m ;; k" := (Py.bind m (fun x => match x with pat => k end))
  (at level 61, pat pattern, m at next level, right associativity).

(** ** pandas: frames, series, [read_csv], [dropna], column selection *)

Module Pandas.

(** A cell of a numeric table: a number, or the missing-value marker. *)
Inductive cell : Type :=
| NaN
| Num (q : Q).

Definition notna (c : cell) : bool :=
  match c with NaN => false | Num _ => true end.

(** A row keeps the index label it was given when the file was read. *)
Abbreviation row := (nat * list cell)%type.

Record DataFrame : Type := mkFrame {
  columns : list string;
  records : list row
}.

(** A column taken out of a frame: label and value per row. *)
Abbreviation Series := (list (nat * cell)).

(** The first data line decides how wide the table is.  When it has more
    fields than the header has names, pandas takes the extra leading fields
    as the row labels of the frame.  The tables of this model are the ones
    without such a column: their rows are labelled 0, 1, 2, ... *)
Definition no_index_column (header : list string) (lines : list (list cell)) : bool :=
  match lines with
  | [] => true
  | first :: _ => List.length first <=? List.length header
  end.

(** What the parser makes of a file's bytes. *)
Inductive content : Type :=
| Unparsable                                        (* tokenizer gives up *)
| Empty                                             (* nothing to parse *)
| Table (header : list string) (lines : list (list cell))
        (plain : no_index_column header lines = true).

Definition filesystem : Type := string -> option content.

(** A data line with fewer fields than the header is filled up with missing
    values. *)
Definition pad (width : nat) (line : list cell) : list cell :=
  line ++ repeat NaN (width - List.length line).

(** [pd.read_csv(path)]: default [RangeIndex] 0..n-1 over the data lines.
    A data line after the first with more fields than the table is wide
    stops the tokenizer ("Expected .. fields in line .., saw .."). *)
Definition read_csv (fs : filesystem) (path : string) : Py.t DataFrame :=
  match fs path with
  | None => Py.raise Py.FileNotFoundError
  | Some Unparsable => Py.raise Py.ParserError
  | Some Empty => Py.raise Py.EmptyDataError
  | Some (Table header lines _) =>
      if List.length header =? 0 then Py.raise Py.EmptyDataError
      else if forallb (fun l => List.length l <=? List.length header) lines
      then Py.ret (mkFrame header
                     (combine (seq 0 (List.length lines))
                        (map (pad (List.length header)) lines)))
      else Py.raise Py.ParserError
  end.

Definition complete (r : row) : bool := forallb notna (snd r).

(** [df.dropna(axis=0)], [how='any']: keep the rows with no missing cell;
    labels and order are kept. *)
Definition dropna (df : DataFrame) : DataFrame :=
  mkFrame (columns df) (filter complete (records df)).

(** Position of a column name in the header. *)
Fixpoint get_loc (name : string) (cols : list string) : option nat :=
  match cols with
  | [] => None
  | c :: cols' =>
      if String.eqb name c then Some 0
      else option_map S (get_loc name cols')
  end.

Definition locate (cols : list string) (name : string) : Py.t nat :=
  match get_loc name cols with
  | Some i => Py.ret i
  | None => Py.raise (Py.KeyError [name])
  end.

Definition at_col (i : nat) (r : row) : cell := nth i (snd r) NaN.

(** The names asked for that are not among the columns. *)
Definition not_found (cols names : list string) : list string :=
  filter (fun n => match get_loc n cols with Some _ => false | None => true end)
    names.

(** [Index.unique()]: each name once, where it first stands. *)
Fixpoint unique_names (names : list string) : list string :=
  match names with
  | [] => []
  | n :: rest => n :: filter (fun m => negb (String.eqb m n)) (unique_names rest)
  end.

(** What the [KeyError] of a selection lists: the missing names, each once;
    all the names asked for when none of them was found. *)
Definition listed (names missing : list string) : list string :=
  if List.length missing =? List.length names then names
  else unique_names missing.

(** [df[[n1, ..., nk]]]: the named columns, in the order asked for.  When
    some are missing, one [KeyError] whose message lists them. *)
Definition getitem_list (df : DataFrame) (names : list string) : Py.t DataFrame :=
  match not_found (columns df) names with
  | [] =>
      locs <- Py.map_m (locate (columns df)) names ;;
      Py.ret (mkFrame names
                (map (fun r => (fst r, map (fun i => at_col i r) locs)) (records df)))
  | missing => Py.raise (Py.KeyError (listed names missing))
  end.

(** [df[name]]: one column as a series. *)
Definition getitem (df : DataFrame) (name : string) : Py.t Series :=
  i <- locate (columns df) name ;;
  Py.ret (map (fun r => (fst r, at_col i r)) (records df)).

Definition index (df : DataFrame) : list nat := map fst (records df).
Definition values (df : DataFrame) : list (list cell) := map snd (records df).
Definition s_index (s : Series) : list nat := map fst s.
Definition s_values (s : Series) : list cell := map snd s.

End Pandas.

(** ** numpy: one-dimensional float arrays *)

Module Numpy.

Definition ndarray : Type := list Q.

Definition ltb (a b : Q) : bool := negb (Qle_bool b a).

(** [np.arange(n)] and [np.arange(1, n + 1)]. *)
Definition arange (n : nat) : list nat := seq 0 n.
Definition arange_from (start stop : nat) : list nat := seq start (stop - start).

(** [np.zeros(n)]. *)
Definition zeros (n : nat) : ndarray := repeat 0%Q n.

(** [a[i] = v] on an array: in place when [i] is in range, [IndexError]
    otherwise (an index from [enumerate] is never negative). *)
Fixpoint setitem (a : ndarray) (i : nat) (v : Q) : Py.t ndarray :=
  match a, i with
  | [], _ => Py.raise Py.IndexError
  | _ :: a', O => Py.ret (v :: a')
  | x :: a', S i' => a'' <- setitem a' i' v ;; Py.ret (x :: a'')
  end.

(** [a[idx]] with an integer index array: [IndexError] out of range. *)
Definition take {A} (a : list A) (idx : list nat) : Py.t (list A) :=
  Py.map_m (fun i => match nth_error a i with
                     | Some x => Py.ret x
                     | None => Py.raise Py.IndexError
                     end) idx.

(** [np.sum(a == v)]: how many entries equal [v]. *)
Definition count_eq (a : ndarray) (v : Q) : nat :=
  List.length (filter (fun x => Qeq_bool x v) a).

(** [np.argsort(a)], default [kind='quicksort']: the indices that sort [a],
    smallest value first.  numpy documents this kind as not stable, and
    which routine runs (a scalar introsort, or a vectorised sort where the
    processor has one) is settled when the library is built and loaded: the
    order in which equal values come out is the library's, and the model
    leaves it open. *)
Class Argsort : Type := {
  argsort : ndarray -> list nat;
  argsort_permutation :
    forall a, Permutation (argsort a) (seq 0 (List.length a));
  argsort_ascending :
    forall a, StronglySorted (fun i j => (nth i a 0 <= nth j a 0)%Q) (argsort a)
}.

(** One such routine: the insertion loop with which numpy's scalar index
    quicksort (npysort/quicksort.cpp, [aquicksort_]) finishes a short
    range.  Index [vi] moves left past every index whose value is strictly
    greater, so equal values stay in index order.  [sorted_rev] is the part
    sorted so far, right end first. *)
Fixpoint insert_index (v : nat -> Q) (vi : nat) (sorted_rev : list nat) : list nat :=
  match sorted_rev with
  | [] => [vi]
  | k :: rest =>
      if ltb (v vi) (v k) then k :: insert_index v vi rest
      else vi :: sorted_rev
  end.

Definition insertion_rev (v : nat -> Q) (n : nat) : list nat :=
  fold_left (fun acc vi => insert_index v vi acc) (seq 0 n) [].

Definition insertion_argsort (a : ndarray) : list nat :=
  rev (insertion_rev (fun i => nth i a 0%Q) (List.length a)).

(** [np.argmax(a)]: position of the first maximum. *)
Fixpoint argmax_from (best : nat) (bv : Q) (i : nat) (a : ndarray) : nat :=
  match a with
  | [] => best
  | x :: a' => if ltb bv x then argmax_from i x (S i) a'
               else argmax_from best bv (S i) a'
  end.

Definition argmax (a : ndarray) : nat :=
  match a with
  | [] => 0
  | x :: a' => argmax_from 0 x 1 a'
  end.

(** [np.unique(a)]: the distinct values, ascending. *)
Fixpoint insert_unique (x : Q) (s : list Q) : list Q :=
  match s with
  | [] => [x]
  | y :: s' =>
      if Qeq_bool x y then s
      else if ltb x y then x :: s
      else y :: insert_unique x s'
  end.

Definition unique (a : ndarray) : list Q :=
  fold_left (fun s x => insert_unique x s) a [].

(** Binary64 arithmetic: every operation returns the rounding of the exact
    result, and rounding moves a number by at most half a unit in the last
    of its 53 bits. *)
Definition eps : Q := 1 # (2 ^ 53).

Class Float64 : Type := {
  fl : Q -> Q;
  fl_error : forall x, (Qabs (fl x - x) <= eps * Qabs x)%Q
}.

Section Sum.
Context {F : Float64}.

Definition fadd (a b : Q) : Q := fl (a + b).
Definition fdiv (a b : Q) : Q := fl (a / b).

(** The plain loop [res = 0.; for x in a: res += x]. *)
Definition sum_loop (res : Q) (a : list Q) : Q := fold_left fadd a res.

(** [r[j] += a[i + j]] for j = 0..7. *)
Fixpoint add_lanes (r a : list Q) : list Q :=
  match r, a with
  | x :: r', y :: a' => fadd x y :: add_lanes r' a'
  | _, _ => r
  end.

(** The unrolled loop over whole groups of eight; returns the eight
    accumulators and what is left (fewer than eight entries). *)
Fixpoint lanes_loop (fuel : nat) (r a : list Q) : list Q * list Q :=
  match fuel with
  | O => (r, a)
  | S fuel' =>
      if 8 <=? List.length a
      then lanes_loop fuel' (add_lanes r (firstn 8 a)) (skipn 8 a)
      else (r, a)
  end.

(** [((r0 + r1) + (r2 + r3)) + ((r4 + r5) + (r6 + r7))]. *)
Definition fold_lanes (r : list Q) : Q :=
  match r with
  | [r0; r1; r2; r3; r4; r5; r6; r7] =>
      fadd (fadd (fadd r0 r1) (fadd r2 r3)) (fadd (fadd r4 r5) (fadd r6 r7))
  | _ => sum_loop 0%Q r
  end.

Definition block_sum (a : list Q) : Q :=
  let '(r, rest) := lanes_loop (List.length a) (firstn 8 a) (skipn 8 a) in
  sum_loop (fold_lanes r) rest.

(** numpy's pairwise summation (umath/loops_utils.h, [pairwise_sum]):
    a plain loop under 8 entries, eight accumulators up to a block of
    128, and above that two halves, the first a multiple of eight. *)
Fixpoint pairwise_sum (fuel : nat) (a : list Q) : Q :=
  let n := List.length a in
  if n <? 8 then sum_loop 0%Q a
  else if n <=? 128 then block_sum a
  else match fuel with
       | O => block_sum a
       | S fuel' =>
           let n2 := n / 2 - (n / 2) mod 8 in
           fadd (pairwise_sum fuel' (firstn n2 a))
                (pairwise_sum fuel' (skipn n2 a))
       end.

(** [np.add.reduce(a)] on a contiguous array: the identity plus the
    pairwise sum. *)
Definition sum (a : ndarray) : Q := fadd 0 (pairwise_sum (List.length a) a).

(** [np.mean(a)]: the sum divided by the number of entries. *)
Definition mean (a : ndarray) : Q := fdiv (sum a) (inject_Z (Z.of_nat (List.length a))).
End Sum.

End Numpy.

(** ** scikit-learn: the splitter, the forest and the metrics *)

Module Sklearn.
Import Pandas.

(** *** Random state *)

(** numpy's Mersenne Twister, as far as the splitter uses it:
    [RandomState(seed)] builds a generator from an integer, and
    [rng.permutation(n)] returns a shuffled [range(n)] and advances the
    generator. *)
Class RandomState : Type := {
  rng : Type;
  seeded : Z -> rng;
  permutation : rng -> nat -> list nat * rng;
  permutation_spec : forall g n, Permutation (fst (permutation g n)) (seq 0 n)
}.

(** [check_random_state]: [None] is the process-wide generator, an integer
    a new generator seeded with it.  Returns the generator to draw from
    and what to do with it afterwards: the process-wide one is advanced, a
    new one is dropped. *)
Definition check_random_state {R : RandomState}
    (global : rng) (random_state : option Z) : rng * (rng -> rng) :=
  match random_state with
  | None => (global, fun g' => g')
  | Some seed => (seeded seed, fun _ => global)
  end.

(** *** train_test_split *)

(** [_validate_shuffle_split] with a float [test_size] and
    [train_size=None]: the test share is rounded up, the rest trains, and
    an empty training set is refused. *)
Definition validate_shuffle_split (n_samples : nat) (test_size : Q)
    : Py.t (nat * nat) :=
  if Qle_bool test_size 0 || Qle_bool 1 test_size then Py.raise Py.ValueError
  else
    let n_test := Z.to_nat (Qceiling (test_size * inject_Z (Z.of_nat n_samples))) in
    let n_train := n_samples - n_test in
    if n_train =? 0 then Py.raise Py.ValueError
    else Py.ret (n_train, n_test).

(** One draw of [ShuffleSplit]: the first [n_test] entries of the
    permutation test, the next [n_train] train. *)
Definition shuffle_split {R : RandomState} (g : rng) (n_samples n_train n_test : nat)
    : (list nat * list nat) * rng :=
  let '(perm, g') := permutation g n_samples in
  ((firstn n_train (skipn n_test perm), firstn n_test perm), g').

(** [_safe_indexing] by position ([iloc]). *)
Definition iloc (df : DataFrame) (pos : list nat) : Py.t DataFrame :=
  rs <- Numpy.take (records df) pos ;;
  Py.ret (mkFrame (columns df) rs).

Record split : Type := mkSplit {
  X_train : DataFrame;
  X_test : DataFrame;
  y_train : Series;
  y_test : Series
}.

(** [train_test_split(X, y, test_size=.., random_state=..)], with the
    process-wide generator passed in and out. *)
Definition train_test_split {R : RandomState} (global : rng)
    (X : DataFrame) (y : Series) (test_size : Q) (random_state : option Z)
    : Py.t (split * rng) :=
  let n_samples := List.length (records X) in
  if negb (List.length y =? n_samples) then Py.raise Py.ValueError
  else
    ' (n_train, n_test) <- validate_shuffle_split n_samples test_size ;;
    let '(g, after) := check_random_state global random_state in
    let '((train, test), g') := shuffle_split g n_samples n_train n_test in
    Xtr <- iloc X train ;;
    Xte <- iloc X test ;;
    ytr <- Numpy.take y train ;;
    yte <- Numpy.take y test ;;
    Py.ret (mkSplit Xtr Xte ytr yte, after g').

(** *** RandomForestClassifier *)

(** [check_array]: a numeric matrix with no missing entry.  The forest also
    keeps its input as float32 and refuses a value too large for that type;
    how large the values are is not modelled. *)
Definition check_cell (c : cell) : Py.t Q :=
  match c with
  | NaN => Py.raise Py.ValueError
  | Num q => Py.ret q
  end.

Definition check_array (rows : list (list cell)) : Py.t (list (list Q)) :=
  Py.map_m (Py.map_m check_cell) rows.

Definition column_or_1d (s : Series) : Py.t Numpy.ndarray :=
  Py.map_m check_cell (s_values s).

(** The part of the forest the library owns: growing the trees from a
    training set, the averaged vote of the trees for the class at a given
    position, and the importance of the feature at a given position. *)
Class Learner : Type := {
  trees : Type;
  grow : nat -> Z -> list (list Q) -> list Q -> trees;
  vote : trees -> list Q -> nat -> Q;
  importance : trees -> nat -> Q
}.

Section Forest.
Context {L : Learner}.

Record fitted : Type := mkFitted {
  classes_ : list Q;
  n_features_in_ : nat;
  estimators_ : trees
}.

Record RandomForestClassifier : Type := mkForest {
  n_estimators : nat;
  random_state : Z;
  fitted_ : option fitted
}.

(** [RandomForestClassifier(n_estimators=.., random_state=..)]. *)
Definition new (n : nat) (seed : Z) : RandomForestClassifier :=
  mkForest n seed None.

(** [clf.fit(X, y)]. *)
Definition fit (clf : RandomForestClassifier) (X : DataFrame) (y : Series)
    : Py.t RandomForestClassifier :=
  rows <- check_array (values X) ;;
  labels <- column_or_1d y ;;
  if negb (List.length labels =? List.length rows) then Py.raise Py.ValueError
  else match rows with
       | [] => Py.raise Py.ValueError
       | _ :: _ =>
           Py.ret (mkForest (n_estimators clf) (random_state clf)
                     (Some (mkFitted (Numpy.unique labels)
                              (List.length (columns X))
                              (grow (n_estimators clf) (random_state clf) rows labels))))
       end.

Definition check_is_fitted (clf : RandomForestClassifier) : Py.t fitted :=
  match fitted_ clf with
  | None => Py.raise Py.NotFittedError
  | Some f => Py.ret f
  end.

Definition check_n_features (f : fitted) (x : list Q) : Py.t (list Q) :=
  if List.length x =? n_features_in_ f then Py.ret x else Py.raise Py.ValueError.

(** [clf.predict_proba(rows)]: one probability per class and row. *)
Definition predict_proba_rows (clf : RandomForestClassifier) (rows : list (list Q))
    : Py.t (list (list Q)) :=
  f <- check_is_fitted clf ;;
  xs <- Py.map_m (check_n_features f) rows ;;
  Py.ret (map (fun x => map (vote (estimators_ f) x)
                          (seq 0 (List.length (classes_ f)))) xs).

Definition predict_proba (clf : RandomForestClassifier) (X : DataFrame)
    : Py.t (list (list Q)) :=
  rows <- check_array (values X) ;;
  predict_proba_rows clf rows.

(** [clf.predict(X)]: [classes_.take(np.argmax(proba, axis=1))]. *)
Definition predict (clf : RandomForestClassifier) (X : DataFrame)
    : Py.t Numpy.ndarray :=
  f <- check_is_fitted clf ;;
  proba <- predict_proba clf X ;;
  Numpy.take (classes_ f) (map Numpy.argmax proba).

(** [clf.feature_importances_]. *)
Definition feature_importances_ (clf : RandomForestClassifier) : Py.t Numpy.ndarray :=
  f <- check_is_fitted clf ;;
  Py.ret (map (importance (estimators_ f)) (seq 0 (n_features_in_ f))).
End Forest.

(** *** Metrics *)

(** The scores are modelled as ratios of counts, in exact arithmetic.  The
    library computes them in binary64: accuracy, precision and recall are
    one rounded division each; F1 and balanced accuracy take several rounded
    steps, so what the library returns for them can differ from the exact
    value in the last place. *)

Definition ratio (a b : nat) : Q :=
  (inject_Z (Z.of_nat a) / inject_Z (Z.of_nat b))%Q.

Definition count {A} (p : A -> bool) (l : list A) : nat :=
  List.length (filter p l).

(** [_check_targets]: both arguments as label arrays of one length, paired
    up.  On an empty target the library's answer is not a score (a warning
    and nan, or an error, by version); the model raises. *)
Definition check_targets (y_true : Series) (y_pred : Numpy.ndarray)
    : Py.t (list (Q * Q)) :=
  yt <- column_or_1d y_true ;;
  if negb (List.length yt =? List.length y_pred) then Py.raise Py.ValueError
  else match yt with
       | [] => Py.raise Py.ValueError
       | _ :: _ => Py.ret (combine yt y_pred)
       end.

Definition hit (p : Q * Q) : bool := Qeq_bool (fst p) (snd p).

(** [accuracy_score(y_true, y_pred)]. *)
Definition accuracy_score (y_true : Series) (y_pred : Numpy.ndarray) : Py.t Q :=
  pairs <- check_targets y_true y_pred ;;
  Py.ret (ratio (count hit pairs) (List.length pairs)).

(** [average='binary'], [pos_label=1]: more than two labels is refused, and
    so are two labels neither of which is 1. *)
Definition check_set_wise_labels (pairs : list (Q * Q)) : Py.t unit :=
  let present := Numpy.unique (map fst pairs ++ map snd pairs) in
  if 2 <? List.length present then Py.raise Py.ValueError
  else if negb (existsb (Qeq_bool 1) present) && (2 <=? List.length present)
       then Py.raise Py.ValueError
       else Py.ret tt.

Definition is_pos (q : Q) : bool := Qeq_bool q 1.
Definition tp (pairs : list (Q * Q)) : nat :=
  count (fun p => is_pos (fst p) && is_pos (snd p)) pairs.
Definition fp (pairs : list (Q * Q)) : nat :=
  count (fun p => negb (is_pos (fst p)) && is_pos (snd p)) pairs.
Definition fn (pairs : list (Q * Q)) : nat :=
  count (fun p => is_pos (fst p) && negb (is_pos (snd p))) pairs.

(** [_prf_divide] with [zero_division='warn']: 0 where the denominator is 0. *)
Definition prf_divide (num den : nat) : Q :=
  if den =? 0 then 0%Q else ratio num den.

Definition precision_of (pairs : list (Q * Q)) : Q :=
  prf_divide (tp pairs) (tp pairs + fp pairs).
Definition recall_of (pairs : list (Q * Q)) : Q :=
  prf_divide (tp pairs) (tp pairs + fn pairs).

(** The harmonic mean of precision and recall, 0 when both are 0. *)
Definition f1_of (pairs : list (Q * Q)) : Q :=
  let p := precision_of pairs in
  let r := recall_of pairs in
  if Qeq_bool (p + r) 0 then 0%Q else (2 * p * r / (p + r))%Q.

Definition binary_score (score : list (Q * Q) -> Q)
    (y_true : Series) (y_pred : Numpy.ndarray) : Py.t Q :=
  pairs <- check_targets y_true y_pred ;;
  _ <- check_set_wise_labels pairs ;;
  Py.ret (score pairs).

(** [precision_score], [recall_score], [f1_score]. *)
Definition precision_score := binary_score precision_of.
Definition recall_score := binary_score recall_of.
Definition f1_score := binary_score f1_of.

(** Recall of one class: the share of its true samples that were predicted
    as that class. *)
Definition support (c : Q) (pairs : list (Q * Q)) : nat :=
  count (fun p => Qeq_bool (fst p) c) pairs.
Definition class_hits (c : Q) (pairs : list (Q * Q)) : nat :=
  count (fun p => Qeq_bool (fst p) c && Qeq_bool (snd p) c) pairs.
Definition class_recall (pairs : list (Q * Q)) (c : Q) : Q :=
  ratio (class_hits c pairs) (support c pairs).

Definition qsum (l : list Q) : Q := fold_right Qplus 0%Q l.

(** [balanced_accuracy_score]: the recalls of the classes that occur in
    [y_true], averaged (a class that only occurs in [y_pred] has no recall
    and is left out).  The library rounds each recall before it averages
    them. *)
Definition balanced_accuracy_score (y_true : Series) (y_pred : Numpy.ndarray)
    : Py.t Q :=
  pairs <- check_targets y_true y_pred ;;
  let classes := Numpy.unique (map fst pairs) in
  Py.ret (qsum (map (class_recall pairs) classes)
            / inject_Z (Z.of_nat (List.length classes)))%Q.

End Sklearn.

(** ** The notebook *)

Module Notebook.
Import Pandas Sklearn.

Section Kernel.
Context {R : RandomState} {L : Learner} {F : Numpy.Float64}
        {Srt : Numpy.Argsort}.

(** What a global name can be bound to. *)
Inductive value : Type :=
| VInt (n : nat)
| VName (s : string)
| VNames (l : list string)
| VFrame (d : DataFrame)
| VSeries (s : Series)
| VArray (a : Numpy.ndarray)
| VIndices (l : list nat)
| VMatrix (m : list (list Q))
| VFloat (q : Q)
| VBools (l : list bool)
| VForest (clf : RandomForestClassifier)
| VRanking (rows : list (string * Q * nat))
| VEntries (typed : list Q)          (* the FloatText boxes, by what they hold *)
| VLabel (shown : option Q).         (* the result label: empty, or a probability *)

(** The kernel: the global namespace and numpy's process-wide generator. *)
Record state : Type := mkState {
  globals : string -> option value;
  np_random : rng
}.

Definition empty (g : rng) : state := mkState (fun _ => None) g.

(** A statement runs on the kernel state and either yields a value or
    raises; what it had bound before raising stays bound. *)
Definition M (A : Type) : Type := state -> state * Py.t A.

Definition ret {A} (a : A) : M A := fun st => (st, Py.ret a).
Definition bind {A B} (m : M A) (k : A -> M B) : M B :=
  fun st => match m st with
            | (st', inl e) => (st', inl e)
            | (st', inr a) => k a st'
            end.
Definition lift {A} (r : Py.t A) : M A := fun st => (st, r).

(** The namespace with [name] bound, or bound anew, to [v]. *)
Definition set (name : string) (v : value) (st : state) : state :=
  mkState (fun k => if String.eqb k name then Some v else globals st k)
    (np_random st).

Definition assign (name : string) (v : value) : M unit :=
  fun st => (set name v st, Py.ret tt).

Definition lookup (name : string) : M value :=
  fun st => (st, match globals st name with
                 | Some v => Py.ret v
                 | None => Py.raise (Py.NameError name)
                 end).

Notation "x <~ m ;; k" := (bind m (fun x => k))
  (at level 61, m at next level, right associativity).
Notation "m ;;; k" := (bind m (fun _ => k))
  (at level 61, right associativity).

Fixpoint for_each {A} (body : A -> M unit) (xs : list A) : M unit :=
  match xs with
  | [] => ret tt
  | x :: xs' => body x ;;; for_each body xs'
  end.

(** Reading a global at the type the statement needs. *)
Definition as_int (v : value) : Py.t nat :=
  match v with VInt n => Py.ret n | _ => Py.raise Py.TypeError end.
Definition as_name (v : value) : Py.t string :=
  match v with VName s => Py.ret s | _ => Py.raise Py.TypeError end.
Definition as_names (v : value) : Py.t (list string) :=
  match v with VNames l => Py.ret l | _ => Py.raise Py.TypeError end.
Definition as_frame (v : value) : Py.t DataFrame :=
  match v with VFrame d => Py.ret d | _ => Py.raise Py.TypeError end.
Definition as_series (v : value) : Py.t Series :=
  match v with VSeries s => Py.ret s | _ => Py.raise Py.TypeError end.
Definition as_array (v : value) : Py.t Numpy.ndarray :=
  match v with VArray a => Py.ret a | _ => Py.raise Py.TypeError end.
Definition as_indices (v : value) : Py.t (list nat) :=
  match v with VIndices l => Py.ret l | _ => Py.raise Py.TypeError end.
Definition as_forest (v : value) : Py.t RandomForestClassifier :=
  match v with VForest c => Py.ret c | _ => Py.raise Py.TypeError end.
Definition as_entries (v : value) : Py.t (list Q) :=
  match v with VEntries l => Py.ret l | _ => Py.raise Py.TypeError end.

Definition get {A} (name : string) (cast : value -> Py.t A) : M A :=
  v <~ lookup name ;; lift (cast v).

(** *** Loading (cell 6) *)

Definition csv_path : string :=
  "/g/data/hh5/tmp/CLEX-WinterSchool-2023/ML-Drought-Prediction-Tutorial/Data/Texas_drought_data.csv".
Definition shp_path : string :=
  "/g/data/hh5/tmp/CLEX-WinterSchool-2023/ML-Drought-Prediction-Tutorial/Data/usa_boundaries/tl_2019_us_state.shp".

Definition predictor_names : list string :=
  ["P"; "PET"; "ET"; "SM"; "SM_prev"; "DS"; "NDVI"; "enso"; "month"]%string.

Definition cell_load (fs : filesystem) : M unit :=
  data <~ lift (read_csv fs csv_path) ;;
  assign "data" (VFrame data) ;;;
  (* data.dropna(axis=0, inplace=True) *)
  data <~ get "data" as_frame ;;
  assign "data" (VFrame (dropna data)) ;;;
  assign "predictors" (VNames predictor_names) ;;;
  assign "target" (VName "drought").

(** *** The map of locations (cell 9), as far as the other cells can tell:
    it reads two columns of [data] and opens the boundary file, and binds
    nothing they read.  What it does with the two (the points, the outline
    of Texas, the drawing) is left out. *)
Definition cell_map (fs : filesystem) : M unit :=
  data <~ get "data" as_frame ;;
  _ <~ lift (getitem_list data ["lon"; "lat"]%string) ;;
  match fs shp_path with
  | None => lift (Py.raise Py.DriverError)
  | Some _ => ret tt
  end.

(** *** Predictors and target (cell 11) *)
Definition cell_separate : M unit :=
  data <~ get "data" as_frame ;;
  predictors <~ get "predictors" as_names ;;
  X <~ lift (getitem_list data predictors) ;;
  assign "X" (VFrame X) ;;;
  data <~ get "data" as_frame ;;
  target <~ get "target" as_name ;;
  y <~ lift (getitem data target) ;;
  assign "y" (VSeries y).

(** *** Splitting and training *)

(** [X_train, X_test, y_train, y_test = train_test_split(X, y,
    test_size=.., random_state=..)]. *)
Definition stmt_split (test_size : Q) (seed : Z) : M unit :=
  X <~ get "X" as_frame ;;
  y <~ get "y" as_series ;;
  sp <~ (fun st =>
           match train_test_split (np_random st) X y test_size (Some seed) with
           | inl e => (st, inl e)
           | inr (sp, g') => (mkState (globals st) g', inr sp)
           end) ;;
  assign "X_train" (VFrame (X_train sp)) ;;;
  assign "X_test" (VFrame (X_test sp)) ;;;
  assign "y_train" (VSeries (y_train sp)) ;;;
  assign "y_test" (VSeries (y_test sp)).

(** [clf = RandomForestClassifier(n_estimators=.., random_state=..)] and
    [clf.fit(X_train, y_train)]. *)
Definition stmt_train (n : nat) (seed : Z) : M unit :=
  assign "clf" (VForest (new n seed)) ;;;
  clf <~ get "clf" as_forest ;;
  Xtr <~ get "X_train" as_frame ;;
  ytr <~ get "y_train" as_series ;;
  clf' <~ lift (fit clf Xtr ytr) ;;
  assign "clf" (VForest clf').

(** Cell 14. *)
Definition cell_train : M unit :=
  stmt_split (3 # 10) 42 ;;;
  stmt_train 500 42.

(** *** Predicting (cells 17 and 20) *)

(** [y_pred = clf.predict(X_test)]. *)
Definition stmt_predict : M unit :=
  clf <~ get "clf" as_forest ;;
  Xte <~ get "X_test" as_frame ;;
  y_pred <~ lift (predict clf Xte) ;;
  assign "y_pred" (VArray y_pred).

Definition cell_predict : M unit :=
  stmt_predict ;;;
  y_pred <~ get "y_pred" as_array ;;
  assign "drought_count" (VInt (Numpy.count_eq y_pred 1)) ;;;
  y_pred <~ get "y_pred" as_array ;;
  assign "non_drought_count" (VInt (Numpy.count_eq y_pred 0)).

(** [m[:, 1]]. *)
Definition column_1 (m : list (list Q)) : Py.t Numpy.ndarray :=
  Py.map_m (fun r => match nth_error r 1 with
                     | Some p => Py.ret p
                     | None => Py.raise Py.IndexError
                     end) m.

Definition cell_proba : M unit :=
  clf <~ get "clf" as_forest ;;
  Xte <~ get "X_test" as_frame ;;
  proba <~ lift (predict_proba clf Xte) ;;
  assign "y_pred_proba" (VMatrix proba) ;;;
  proba <~ get "y_pred_proba" (fun v => match v with
                                        | VMatrix m => Py.ret m
                                        | _ => Py.raise Py.TypeError
                                        end) ;;
  p1 <~ lift (column_1 proba) ;;
  assign "drought_probabilities" (VArray p1).

(** *** The prediction form (cell 21) *)

(** [m[0][1]]. *)
Definition item_0_1 (m : list (list Q)) : Py.t Q :=
  match m with
  | [] => Py.raise Py.IndexError
  | r :: _ => match nth_error r 1 with
              | Some p => Py.ret p
              | None => Py.raise Py.IndexError
              end
  end.

(** The callback of the button.  Its body names the globals [entries],
    [clf] and [result_label]; they are looked up when it is called. *)
Definition predict_drought_probability : M unit :=
  input_values <~ get "entries" as_entries ;;
  clf <~ get "clf" as_forest ;;
  prob <~ lift (proba <- predict_proba_rows clf [input_values] ;; item_0_1 proba) ;;
  _ <~ lookup "result_label" ;;
  assign "result_label" (VLabel (Some prob)).

(** One box per predictor, each holding 0, and an empty label. *)
Definition cell_widgets : M unit :=
  assign "entries" (VEntries []) ;;;
  predictors <~ get "predictors" as_names ;;
  for_each (fun _ : string =>
              entries <~ get "entries" as_entries ;;
              assign "entries" (VEntries (entries ++ [0%Q]))) predictors ;;;
  assign "result_label" (VLabel None).

(** The user types [v] into box [i]. *)
Definition type_into (i : nat) (v : Q) : M unit :=
  entries <~ get "entries" as_entries ;;
  entries' <~ lift (Numpy.setitem entries i v) ;;
  assign "entries" (VEntries entries').

(** *** Metrics (cell 24) *)
Definition score_of (metric : Series -> Numpy.ndarray -> Py.t Q) : M Q :=
  y_test <~ get "y_test" as_series ;;
  y_pred <~ get "y_pred" as_array ;;
  lift (metric y_test y_pred).

Definition cell_metrics : M unit :=
  v <~ score_of accuracy_score ;; assign "accuracy" (VFloat v) ;;;
  v <~ score_of precision_score ;; assign "precision" (VFloat v) ;;;
  v <~ score_of recall_score ;; assign "recall" (VFloat v) ;;;
  v <~ score_of f1_score ;; assign "f1" (VFloat v) ;;;
  v <~ score_of balanced_accuracy_score ;; assign "balanced_accuracy" (VFloat v).

(** *** Importances and their ranking (cell 28) *)

(** [pd.DataFrame({'Predictor': .., 'Variable Importance': .., 'Rank': ..})]:
    the three columns must be of one length. *)
Definition ranking_frame (names : list string) (imps : list Q) (ranks : list nat)
    : Py.t (list (string * Q * nat)) :=
  if (List.length names =? List.length imps) && (List.length imps =? List.length ranks)
  then Py.ret (combine (combine names imps) ranks)
  else Py.raise Py.ValueError.

Definition cell_importance : M unit :=
  clf <~ get "clf" as_forest ;;
  vi <~ lift (feature_importances_ clf) ;;
  assign "variable_importance" (VArray vi) ;;;
  vi <~ get "variable_importance" as_array ;;
  assign "negative_importance" (VBools (map (fun x => Numpy.ltb x 0) vi)) ;;;
  (* sorted_indices = np.argsort(variable_importance)[::-1] *)
  vi <~ get "variable_importance" as_array ;;
  assign "sorted_indices" (VIndices (rev (Numpy.argsort vi))) ;;;
  X <~ get "X" as_frame ;;
  sorted_indices <~ get "sorted_indices" as_indices ;;
  names <~ lift (Numpy.take (columns X) sorted_indices) ;;
  vi <~ get "variable_importance" as_array ;;
  imps <~ lift (Numpy.take vi sorted_indices) ;;
  rows <~ lift (ranking_frame names imps
                  (Numpy.arange_from 1 (List.length (columns X) + 1))) ;;
  assign "ranking_df" (VRanking rows).

(** *** Training with different seeds (cell 31) *)

Definition score_names : list string :=
  ["accuracy_scores"; "precision_scores"; "recall_scores"; "f1_scores";
   "balanced_accuracy_scores"]%string.

(** [scores[i] = metric(y_test, y_pred)]. *)
Definition stmt_store (scores : string) (i : nat)
    (metric : Series -> Numpy.ndarray -> Py.t Q) : M unit :=
  v <~ score_of metric ;;
  a <~ get scores as_array ;;
  a' <~ lift (Numpy.setitem a i v) ;;
  assign scores (VArray a').

Definition loop_body (i_seed : nat * nat) : M unit :=
  let '(i, seed) := i_seed in
  assign "i" (VInt i) ;;;
  assign "seed" (VInt seed) ;;;
  stmt_split (2 # 10) (Z.of_nat seed) ;;;
  stmt_train 100 (Z.of_nat seed) ;;;
  stmt_predict ;;;
  stmt_store "accuracy_scores" i accuracy_score ;;;
  stmt_store "precision_scores" i precision_score ;;;
  stmt_store "recall_scores" i recall_score ;;;
  stmt_store "f1_scores" i f1_score ;;;
  stmt_store "balanced_accuracy_scores" i balanced_accuracy_score.

(** [name = np.mean(scores)]. *)
Definition stmt_mean (name scores : string) : M unit :=
  a <~ get scores as_array ;;
  assign name (VFloat (Numpy.mean a)).

Definition enumerate {A} (l : list A) : list (nat * A) :=
  combine (seq 0 (List.length l)) l.

Definition stability_loop : M unit :=
  seeds <~ get "seeds" as_indices ;;
  for_each loop_body (enumerate seeds).

(** [n_iterations = ..], the seeds and the five arrays of zeros. *)
Definition setup_arrays (n_iterations : nat) : M unit :=
  assign "n_iterations" (VInt n_iterations) ;;;
  n <~ get "n_iterations" as_int ;;
  assign "seeds" (VIndices (Numpy.arange n)) ;;;
  for_each (fun name => n <~ get "n_iterations" as_int ;;
                        assign name (VArray (Numpy.zeros n))) score_names.

Definition take_means : M unit :=
  stmt_mean "mean_accuracy" "accuracy_scores" ;;;
  stmt_mean "mean_precision" "precision_scores" ;;;
  stmt_mean "mean_recall" "recall_scores" ;;;
  stmt_mean "mean_f1" "f1_scores" ;;;
  stmt_mean "mean_balanced_accuracy" "balanced_accuracy_scores".

Definition stability (n_iterations : nat) : M unit :=
  setup_arrays n_iterations ;;;
  stability_loop ;;;
  take_means.

(** Cell 31: [n_iterations = 30]. *)
Definition cell_stability : M unit := stability 30.

(** *** Running the cells *)

Inductive cell_id : Type :=
| Load | Map | Separate | Train | Predict | Proba | Widgets | Metrics
| Importance | Stability.

Definition code (fs : filesystem) (c : cell_id) : M unit :=
  match c with
  | Load => cell_load fs
  | Map => cell_map fs
  | Separate => cell_separate
  | Train => cell_train
  | Predict => cell_predict
  | Proba => cell_proba
  | Widgets => cell_widgets
  | Metrics => cell_metrics
  | Importance => cell_importance
  | Stability => cell_stability
  end.

(** The code cells, top to bottom. *)
Definition cells : list cell_id :=
  [Load; Map; Separate; Train; Predict; Proba; Widgets; Metrics; Importance;
   Stability].

(** The outcome of a run: the cells that completed, the kernel as the run
    left it, and the exception that stopped it, if one did. *)
Record outcome : Type := mkOutcome {
  completed : list cell_id;
  kernel : state;
  raised : option Py.exn
}.

(** The outcome [o] of the later cells, seen from before cell [c], which
    completed. *)
Definition after (c : cell_id) (o : outcome) : outcome :=
  mkOutcome (c :: completed o) (kernel o) (raised o).

(** Running cells in order stops at the first one that raises. *)
Fixpoint run (fs : filesystem) (cs : list cell_id) (st : state) : outcome :=
  match cs with
  | [] => mkOutcome [] st None
  | c :: cs' =>
      match code fs c st with
      | (st', inl e) => mkOutcome [] st' (Some e)
      | (st', inr _) => after c (run fs cs' st')
      end
  end.

End Kernel.
End Notebook.

(** ** Binary64 rounding

    The arithmetic of numpy's float64 on the numbers of this notebook:
    round to nearest, ties to even, with 53 bits.  The exponent is not
    bounded: the scores are ratios of row counts and their sums, far from
    both ends of the exponent range. *)

Module Binary64.
Section Rounding.
Local Open Scope Z_scope.

(** The fraction [a / b] divided by [2 ^ e], as a fraction. *)
Definition scaled (a b e : Z) : Z * Z :=
  if 0 <=? e then (a, b * 2 ^ e) else (a * 2 ^ (- e), b).

(** The integer nearest to [num / den], the even one of two. *)
Definition nearest_even (num den : Z) : Z :=
  let q := num / den in
  let r := num mod den in
  match 2 * r ?= den with
  | Lt => q
  | Gt => q + 1
  | Eq => if Z.even q then q else q + 1
  end.

(** The exponent [e] of the last bit: [2 ^ 52 <= (a / b) / 2 ^ e < 2 ^ 53]. *)
Definition exponent (a b : Z) : Z :=
  let e0 := Z.log2 a - Z.log2 b - 53 in
  let '(num, den) := scaled a b e0 in
  if 2 ^ 53 * den <=? num then e0 + 1 else e0.

Definition pow2 (e : Z) : Q :=
  if 0 <=? e then inject_Z (2 ^ e) else 1 # Z.to_pos (2 ^ (- e)).

Definition round_pos (a b : Z) : Q :=
  let e := exponent a b in
  let '(num, den) := scaled a b e in
  (inject_Z (nearest_even num den) * pow2 e)%Q.

Definition round_to_nearest (x : Q) : Q :=
  match Qnum x with
  | 0 => 0%Q
  | Z.pos p => round_pos (Z.pos p) (Z.pos (Qden x))
  | Z.neg p => (- round_pos (Z.pos p) (Z.pos (Qden x)))%Q
  end.

Lemma nearest_even_spec num den :
  0 < den -> 2 * Z.abs (nearest_even num den * den - num) <= den.
Proof.
  intros H. unfold nearest_even.
  pose proof (Z.div_mod num den ltac:(lia)) as E.
  pose proof (Z.mod_pos_bound num den H) as B.
  set (q := num / den) in *. set (r := num mod den) in *.
  clearbody q r. subst num.
  assert (E0 : q * den - (den * q + r) = - r) by ring.
  assert (E1 : (q + 1) * den - (den * q + r) = den - r) by ring.
  destruct (Z.compare_spec (2 * r) den) as [C | C | C].
  - destruct (Z.even q); rewrite ?E0, ?E1; lia.
  - rewrite E0. lia.
  - rewrite E1. lia.
Qed.

Lemma scaled_den_pos a b e : 0 < b -> 0 < snd (scaled a b e).
Proof.
  intros H. unfold scaled. destruct (0 <=? e) eqn:E; simpl; [| exact H].
  apply Z.leb_le in E. pose proof (Z.pow_pos_nonneg 2 e ltac:(lia) E). nia.
Qed.

Lemma exponent_cases a b :
  let e0 := Z.log2 a - Z.log2 b - 53 in
  (exponent a b = e0 + 1 /\
   2 ^ 53 * snd (scaled a b e0) <= fst (scaled a b e0)) \/
  (exponent a b = e0 /\
   fst (scaled a b e0) < 2 ^ 53 * snd (scaled a b e0)).
Proof.
  intros e0. unfold exponent. fold e0.
  destruct (scaled a b e0) as [num den]. cbn [fst snd].
  destruct (2 ^ 53 * den <=? num) eqn:T.
  - left. split; [reflexivity | now apply Z.leb_le].
  - right. split; [reflexivity | now apply Z.leb_gt].
Qed.

Lemma exponent_spec a b :
  0 < a -> 0 < b ->
  2 ^ 52 * snd (scaled a b (exponent a b)) <= fst (scaled a b (exponent a b)).
Proof.
  intros Ha Hb.
  pose proof (exponent_cases a b) as C. cbv zeta in C.
  pose proof (Z.log2_spec a Ha) as [La Ua].
  pose proof (Z.log2_spec b Hb) as [Lb Ub].
  pose proof (Z.log2_nonneg a) as Pa. pose proof (Z.log2_nonneg b) as Pb.
  remember (Z.log2 a) as la eqn:Ela. remember (Z.log2 b) as lb eqn:Elb.
  clear Ela Elb.
  remember (la - lb - 53) as e0 eqn:Ee0.
  assert (T53 : 2 ^ 53 = 2 * 2 ^ 52) by reflexivity.
  replace (Z.succ lb) with (lb + 1) in Ub by lia.
  destruct C as [[-> T] | [-> T]]; unfold scaled in *.
  - destruct (0 <=? e0) eqn:E0; cbn [fst snd] in T.
    + apply Z.leb_le in E0.
      pose proof (Z.pow_pos_nonneg 2 e0 ltac:(lia) E0) as Pe.
      replace (0 <=? e0 + 1) with true by (symmetry; apply Z.leb_le; lia).
      cbn [fst snd]. rewrite Z.pow_add_r by lia. change (2 ^ 1) with 2.
      rewrite T53 in T. lia.
    + apply Z.leb_gt in E0.
      pose proof (Z.pow_pos_nonneg 2 (- e0) ltac:(lia) ltac:(lia)) as Pe.
      destruct (0 <=? e0 + 1) eqn:E1.
      * apply Z.leb_le in E1. assert (E : e0 = -1) by lia.
        rewrite E in *. cbn [fst snd].
        change (- (-1)) with 1 in T. change (-1 + 1) with 0.
        change (2 ^ 1) with 2 in T. change (2 ^ 0) with 1.
        rewrite T53 in T. lia.
      * apply Z.leb_gt in E1. cbn [fst snd].
        replace (- e0) with (- (e0 + 1) + 1) in T by lia.
        rewrite Z.pow_add_r in T by lia. change (2 ^ 1) with 2 in T.
        rewrite T53 in T. lia.
  - destruct (0 <=? e0) eqn:E0; cbn [fst snd] in *.
    + apply Z.leb_le in E0.
      pose proof (Z.pow_pos_nonneg 2 e0 ltac:(lia) E0) as Pe.
      assert (E : 2 ^ la = 2 ^ 52 * 2 ^ e0 * 2 ^ (lb + 1)).
      { rewrite <- !Z.pow_add_r by lia. f_equal. lia. }
      assert (2 ^ 52 * 2 ^ e0 * b <= 2 ^ 52 * 2 ^ e0 * 2 ^ (lb + 1)).
      { apply Z.mul_le_mono_nonneg_l; lia. }
      lia.
    + apply Z.leb_gt in E0.
      pose proof (Z.pow_pos_nonneg 2 (- e0) ltac:(lia) ltac:(lia)) as Pe.
      assert (E : 2 ^ la * 2 ^ (- e0) = 2 ^ 52 * 2 ^ (lb + 1)).
      { rewrite <- !Z.pow_add_r by lia. f_equal. lia. }
      assert (2 ^ la * 2 ^ (- e0) <= a * 2 ^ (- e0)).
      { apply Z.mul_le_mono_nonneg_r; lia. }
      assert (2 ^ 52 * b <= 2 ^ 52 * 2 ^ (lb + 1)).
      { apply Z.mul_le_mono_nonneg_l; lia. }
      lia.
Qed.

Lemma pow2_pos e : (0 < pow2 e)%Q.
Proof.
  unfold pow2. destruct (0 <=? e) eqn:E.
  - apply Z.leb_le in E. change 0%Q with (inject_Z 0). rewrite <- Zlt_Qlt.
    apply Z.pow_pos_nonneg; lia.
  - reflexivity.
Qed.

(** [a / b] is the scaled fraction times the power of two. *)
Lemma scaled_value a b e :
  0 < b ->
  (inject_Z a / inject_Z b
   == inject_Z (fst (scaled a b e)) / inject_Z (snd (scaled a b e)) * pow2 e)%Q.
Proof.
  intros Hb. unfold scaled, pow2.
  assert (Hbq : ~ (inject_Z b == 0)%Q).
  { intros C. unfold Qeq in C. cbn [Qnum Qden inject_Z] in C. lia. }
  destruct (0 <=? e) eqn:E; simpl.
  - apply Z.leb_le in E.
    pose proof (Z.pow_pos_nonneg 2 e ltac:(lia) E) as Hp.
    rewrite inject_Z_mult.
    assert (Hpq : ~ (inject_Z (2 ^ e) == 0)%Q).
    { intros C. unfold Qeq in C. cbn [Qnum Qden inject_Z] in C. lia. }
    field. auto.
  - apply Z.leb_gt in E.
    pose proof (Z.pow_pos_nonneg 2 (- e) ltac:(lia) ltac:(lia)) as Hp.
    rewrite inject_Z_mult.
    assert (Ep : (1 # Z.to_pos (2 ^ (- e)) == / inject_Z (2 ^ (- e)))%Q).
    { destruct (2 ^ (- e)) as [| p | p] eqn:Ez; try lia. reflexivity. }
    rewrite Ep.
    assert (Hpq : ~ (inject_Z (2 ^ (- e)) == 0)%Q).
    { intros C. unfold Qeq in C. cbn [Qnum Qden inject_Z] in C. lia. }
    field. auto.
Qed.

Lemma round_pos_error a b :
  0 < a -> 0 < b ->
  (Qabs (round_pos a b - inject_Z a / inject_Z b)
   <= (1 # 2 ^ 53) * (inject_Z a / inject_Z b))%Q.
Proof.
  intros Ha Hb. unfold round_pos.
  pose proof (exponent_spec a b Ha Hb) as He.
  pose proof (scaled_den_pos a b (exponent a b) Hb) as Hd.
  pose proof (scaled_value a b (exponent a b) Hb) as Hv.
  pose proof (pow2_pos (exponent a b)) as Hp.
  destruct (scaled a b (exponent a b)) as [num den]. cbn [fst snd] in *.
  pose proof (nearest_even_spec num den Hd) as Hm.
  set (m := nearest_even num den) in *.
  set (P := pow2 (exponent a b)) in *.
  rewrite Hv.
  assert (Hdq : (0 < inject_Z den)%Q)
    by (change 0%Q with (inject_Z 0); now rewrite <- Zlt_Qlt).
  set (s := (inject_Z num / inject_Z den)%Q).
  assert (Hs : (inject_Z (2 ^ 52) <= s)%Q).
  { subst s. apply Qle_shift_div_l; [exact Hdq |].
    rewrite <- inject_Z_mult, <- Zle_Qle. lia. }
  assert (Hms : (Qabs (inject_Z m - s) <= 1 # 2)%Q).
  { apply Qabs_Qle_condition.
    assert (E : (inject_Z m - s == (inject_Z (m * den - num)) / inject_Z den)%Q).
    { subst s. unfold Z.sub. rewrite inject_Z_plus, inject_Z_opp, inject_Z_mult. field.
      intros C. rewrite C in Hdq. discriminate. }
    rewrite E. split.
    - apply Qle_shift_div_l; [exact Hdq |].
      setoid_replace (- (1 # 2) * inject_Z den)%Q
        with (inject_Z (- den) / 2)%Q by (rewrite inject_Z_opp; field).
      apply Qle_shift_div_r; [reflexivity |].
      rewrite <- (inject_Z_mult _ 2), <- Zle_Qle. lia.
    - apply Qle_shift_div_r; [exact Hdq |].
      setoid_replace ((1 # 2) * inject_Z den)%Q
        with (inject_Z den / 2)%Q by field.
      apply Qle_shift_div_l; [reflexivity |].
      rewrite <- (inject_Z_mult _ 2), <- Zle_Qle. lia. }
  setoid_replace (inject_Z m * P - s * P)%Q with ((inject_Z m - s) * P)%Q by ring.
  rewrite Qabs_Qmult, (Qabs_pos P) by (now apply Qlt_le_weak).
  change (inject_Z (2 ^ 52)) with (4503599627370496 # 1)%Q in Hs.
  assert (H1 : (Qabs (inject_Z m - s) * P <= (1 # 2) * P)%Q)
    by (apply Qmult_le_compat_r; [exact Hms | now apply Qlt_le_weak]).
  assert (H2 : ((1 # 2) * P <= (1 # 2 ^ 53) * (s * P))%Q).
  { setoid_replace ((1 # 2 ^ 53) * (s * P))%Q with (((1 # 2 ^ 53) * s) * P)%Q by ring.
    apply Qmult_le_compat_r; [| now apply Qlt_le_weak].
    change (1 # 2 ^ 53)%Q with (1 # 9007199254740992)%Q. lra. }
  eapply Qle_trans; eauto.
Qed.

Lemma round_error x :
  (Qabs (round_to_nearest x - x) <= (1 # 2 ^ 53) * Qabs x)%Q.
Proof.
  destruct x as [n d]. unfold round_to_nearest. cbn [Qnum Qden].
  destruct n as [| p | p].
  - setoid_replace (0 # d)%Q with 0%Q by reflexivity. discriminate.
  - pose proof (round_pos_error (Z.pos p) (Z.pos d) ltac:(lia) ltac:(lia)) as H.
    change (Qabs (Z.pos p # d)) with (Z.pos p # d)%Q.
    rewrite (Qmake_Qdiv (Z.pos p) d). exact H.
  - pose proof (round_pos_error (Z.pos p) (Z.pos d) ltac:(lia) ltac:(lia)) as H.
    change (Qabs (Z.neg p # d)) with (Z.pos p # d)%Q.
    change (Z.neg p # d)%Q with (- (Z.pos p # d))%Q.
    rewrite (Qmake_Qdiv (Z.pos p) d).
    setoid_replace (- round_pos (Z.pos p) (Z.pos d) - - (inject_Z (Z.pos p) / inject_Z (Z.pos d)))%Q
      with (- (round_pos (Z.pos p) (Z.pos d) - inject_Z (Z.pos p) / inject_Z (Z.pos d)))%Q
      by ring.
    rewrite Qabs_opp. exact H.
Qed.

End Rounding.

#[export] Instance binary64 : Numpy.Float64 := {|
  Numpy.fl := round_to_nearest;
  Numpy.fl_error := round_error
|}.

End Binary64.

(** ** The insertion sort of indices *)

Section Argsort.
Variable v : nat -> Q.

(** Index [i] is ranked before index [j]: its value is greater, or the
    values are equal and [i] is the later one. *)
Definition ranked_before (i j : nat) : Prop :=
  (v j < v i)%Q \/ ((v i == v j)%Q /\ j < i).

Lemma ltb_lt a b : Numpy.ltb a b = true <-> (a < b)%Q.
Proof.
  unfold Numpy.ltb. rewrite negb_true_iff. split.
  - intros H. apply Qnot_le_lt. intros C. apply Qle_bool_iff in C. congruence.
  - intros H. destruct (Qle_bool b a) eqn:E; [| reflexivity].
    apply Qle_bool_iff in E. exfalso. exact (Qlt_not_le _ _ H E).
Qed.

Lemma ltb_ge a b : Numpy.ltb a b = false <-> (b <= a)%Q.
Proof.
  unfold Numpy.ltb. rewrite negb_false_iff. apply Qle_bool_iff.
Qed.

Lemma insert_index_permutation vi acc :
  Permutation (Numpy.insert_index v vi acc) (vi :: acc).
Proof.
  induction acc as [| k rest IH]; simpl; [reflexivity |].
  destruct (Numpy.ltb (v vi) (v k)); [| reflexivity].
  rewrite IH. apply perm_swap.
Qed.

Lemma insert_index_sorted vi acc :
  StronglySorted ranked_before acc ->
  Forall (fun k => k < vi) acc ->
  StronglySorted ranked_before (Numpy.insert_index v vi acc).
Proof.
  induction acc as [| k rest IH]; simpl; intros Hs Hlt.
  - repeat constructor.
  - inversion Hs as [| ? ? Hs' Hk]; subst.
    inversion Hlt as [| ? ? Hkv Hlt']; subst.
    destruct (Numpy.ltb (v vi) (v k)) eqn:E.
    + apply ltb_lt in E. constructor; [auto |].
      apply Forall_forall. intros x Hx.
      apply (Permutation_in _ (insert_index_permutation vi rest)) in Hx.
      destruct Hx as [<- | Hx]; [now left |].
      rewrite Forall_forall in Hk. auto.
    + apply ltb_ge in E. constructor; [auto |].
      assert (Hvi : forall x, (v x <= v vi)%Q -> x < vi -> ranked_before vi x).
      { intros x Hle Hx. destruct (Qlt_le_dec (v x) (v vi)) as [Hl | Hg].
        - now left.
        - right. split; [apply Qle_antisym; auto | exact Hx]. }
      constructor.
      * apply Hvi; auto.
      * apply Forall_forall. intros x Hx.
        rewrite Forall_forall in Hk, Hlt'.
        apply Hvi; [| auto].
        destruct (Hk x Hx) as [Hl | [He _]].
        -- apply Qlt_le_weak. eapply Qlt_le_trans; eauto.
        -- rewrite <- He. exact E.
Qed.

Lemma insertion_fold_sorted from count acc :
  StronglySorted ranked_before acc ->
  Permutation acc (seq 0 from) ->
  let out := fold_left (fun acc vi => Numpy.insert_index v vi acc) (seq from count) acc in
  StronglySorted ranked_before out /\ Permutation out (seq 0 (from + count)).
Proof.
  revert from acc. induction count as [| count IH]; intros from acc Hs Hp; simpl.
  - rewrite Nat.add_0_r. auto.
  - replace (from + S count) with (S from + count) by lia.
    apply IH.
    + apply insert_index_sorted; [exact Hs |].
      apply Forall_forall. intros k Hk.
      apply (Permutation_in _ Hp), in_seq in Hk. lia.
    + rewrite insert_index_permutation, Hp.
      rewrite seq_S. simpl. apply Permutation_cons_append.
Qed.

Lemma insertion_rev_sorted n :
  StronglySorted ranked_before (Numpy.insertion_rev v n) /\
  Permutation (Numpy.insertion_rev v n) (seq 0 n).
Proof.
  unfold Numpy.insertion_rev.
  apply (insertion_fold_sorted 0 n []); constructor.
Qed.

End Argsort.

Section Orders.
Context {A : Type}.

Lemma StronglySorted_weaken (R1 R2 : A -> A -> Prop) (l : list A) :
  (forall a b, R1 a b -> R2 a b) -> StronglySorted R1 l -> StronglySorted R2 l.
Proof.
  intros Himp. induction 1 as [| a l Hs IH Hf]; constructor; auto.
  eapply Forall_impl; [| exact Hf]. auto.
Qed.

(** A sorted list with one more entry at its end. *)
Lemma sorted_then_last (before : A -> A -> Prop) (l : list A) (z : A)
    (Hl : StronglySorted before l) (Hz : Forall (fun b => before b z) l) :
  StronglySorted before (l ++ [z]).
Proof.
  induction Hl as [| b l Hs IH Hf]; simpl.
  - repeat constructor.
  - inversion Hz as [| ? ? Hb Hrest]; subst. constructor; [auto |].
    apply Forall_app. split; [exact Hf | repeat constructor; exact Hb].
Qed.

(** Read backwards, a sorted list is sorted the other way. *)
Lemma sorted_backwards (before : A -> A -> Prop) (l : list A)
    (Hl : StronglySorted before l) :
  StronglySorted (fun a b => before b a) (rev l).
Proof.
  induction Hl as [| a l Hs IH Hf]; simpl; [constructor |].
  apply sorted_then_last; [exact IH |].
  apply Forall_rev. exact Hf.
Qed.

End Orders.

Lemma insertion_argsort_permutation a :
  Permutation (Numpy.insertion_argsort a) (seq 0 (List.length a)).
Proof.
  unfold Numpy.insertion_argsort. rewrite <- Permutation_rev.
  apply insertion_rev_sorted.
Qed.

Lemma insertion_argsort_ascending a :
  StronglySorted (fun i j => (nth i a 0 <= nth j a 0)%Q)
    (Numpy.insertion_argsort a).
Proof.
  unfold Numpy.insertion_argsort.
  apply (sorted_backwards (fun i j => (nth j a 0 <= nth i a 0)%Q)).
  eapply StronglySorted_weaken;
    [| apply (insertion_rev_sorted (fun i => nth i a 0%Q))].
  intros i j [Hlt | [Heq _]]; [now apply Qlt_le_weak |].
  cbv beta in Heq. rewrite Heq. apply Qle_refl.
Qed.

(** ** Concrete instances, for running the model *)

Module Demo.
Import Pandas Sklearn.

(** A generator that shuffles by rotating: the state is the offset. *)
Definition rotate (k n : nat) : list nat :=
  skipn (k mod n) (seq 0 n) ++ firstn (k mod n) (seq 0 n).

Lemma rotate_permutation k n : Permutation (rotate k n) (seq 0 n).
Proof.
  unfold rotate.
  rewrite <- (firstn_skipn (k mod n) (seq 0 n)) at 3.
  apply Permutation_app_comm.
Qed.

#[export] Instance Rotating : RandomState := {|
  rng := nat;
  seeded := fun z => Z.to_nat (Z.abs z);
  permutation := fun g n => (rotate g n, S g);
  permutation_spec := rotate_permutation
|}.

(** A generator state to start from. *)
Definition g0 : @rng Rotating := 0.

(** A one-split stump on the first feature: the trees it stands for are
    summarised by their number, their seed and the size of the training
    set. *)
Definition stump_vote (x : list Q) (k : nat) : Q :=
  match x with
  | [] => 0
  | x0 :: _ => if Qle_bool x0 (1 # 2)
               then (if k =? 0 then 1 else 0)
               else (if k =? 0 then 0 else 1)
  end%Q.

#[export] Instance Stump : Learner := {|
  trees := (nat * Z * nat)%type;
  grow := fun n seed X _ => (n, seed, List.length X);
  vote := fun _ => stump_vote;
  importance := fun _ j => if j =? 0 then 1%Q else 0%Q
|}.

(** Arithmetic without rounding error. *)
Lemma exact_error x : (Qabs (x - x) <= Numpy.eps * Qabs x)%Q.
Proof.
  assert (E : (x - x == 0)%Q) by ring.
  rewrite E. simpl Qabs.
  apply Qmult_le_0_compat; [ discriminate | apply Qabs_nonneg ].
Qed.

Definition Exact : Numpy.Float64 := {|
  Numpy.fl := fun x => x;
  Numpy.fl_error := exact_error
|}.

(** An argsort that keeps equal values in index order. *)
Definition Insertion : Numpy.Argsort := {|
  Numpy.argsort := Numpy.insertion_argsort;
  Numpy.argsort_permutation := insertion_argsort_permutation;
  Numpy.argsort_ascending := insertion_argsort_ascending
|}.

Definition header : list string :=
  ["lon"; "lat"; "month"; "P"; "PET"; "ET"; "SM"; "SM_prev"; "DS"; "NDVI";
   "enso"; "drought"]%string.

Definition line (p : Z) (drought : Z) : list cell :=
  map (fun z => Num (inject_Z z)) [-100; 30; 6; p; 120; 80; 20; 22; 5; 0; 1; drought]%Z.

(** Six observations; the third has no NDVI. *)
Definition lines : list (list cell) :=
  [ line 0 1; line 1 0;
    [Num 0; Num 0; Num 7; Num 3; Num 1; Num 1; Num 1; Num 1; Num 1; NaN; Num 0; Num 1]%Q;
    line 0 1; line 1 0; line 0 0 ].

Definition disk : filesystem :=
  fun path =>
    if String.eqb path Notebook.csv_path then Some (Table header lines eq_refl)
    else if String.eqb path Notebook.shp_path then Some Unparsable
    else None.

(** The frame the demo disk holds, and what the first cells make of it. *)
Definition parsed : DataFrame :=
  Eval vm_compute in
    match read_csv disk Notebook.csv_path with
    | inr df => df
    | inl _ => mkFrame [] []
    end.

Definition X : DataFrame :=
  Eval vm_compute in
    match getitem_list (dropna parsed) Notebook.predictor_names with
    | inr df => df
    | inl _ => mkFrame [] []
    end.

Definition y : Series :=
  Eval vm_compute in
    match getitem (dropna parsed) "drought" with
    | inr s => s
    | inl _ => []
    end.

(** The split of cell 14 on the demo data. *)
Definition sp42 : split :=
  Eval vm_compute in
    match train_test_split g0 X y (3 # 10) (Some 42%Z) with
    | inr (sp, _) => sp
    | inl _ => mkSplit (mkFrame [] []) (mkFrame [] []) [] []
    end.

(** The forest of cell 14 on the demo data. *)
Definition clf42 : @RandomForestClassifier Stump :=
  Eval vm_compute in
    match fit (new 500 42) (X_train sp42) (y_train sp42) with
    | inr clf => clf
    | inl _ => new 0 0
    end.


(** The kernel when the training cell has run on the demo disk. *)
Definition trained : @Notebook.state Rotating Stump :=
  Notebook.kernel
    (Notebook.run (F := Exact) (Srt := Insertion) disk
       [Notebook.Load; Notebook.Map; Notebook.Separate; Notebook.Train]
       (Notebook.empty g0)).

End Demo.

(** * Properties *)

(** ** Lists and the error monad *)

Section Basics.

Lemma map_m_inr {A B} (f : A -> Py.t B) (g : A -> B) (xs : list A) :
  (forall x, In x xs -> f x = inr (g x)) -> Py.map_m f xs = inr (map g xs).
Proof.
  induction xs as [| x xs IH]; intros H; simpl.
  - reflexivity.
  - rewrite (H x (or_introl eq_refl)). simpl.
    rewrite IH by (intros; apply H; now right). reflexivity.
Qed.

Lemma map_m_inv {A B} (f : A -> Py.t B) (xs : list A) (ys : list B) :
  Py.map_m f xs = inr ys -> Forall2 (fun x y => f x = inr y) xs ys.
Proof.
  revert ys. induction xs as [| x xs IH]; intros ys H; simpl in H.
  - injection H as <-. constructor.
  - destruct (f x) as [e | b] eqn:Fx; simpl in H; [discriminate |].
    destruct (Py.map_m f xs) as [e | bs]; simpl in H; [discriminate |].
    injection H as <-. constructor; auto.
Qed.

Lemma Forall2_length_eq {A B} (P : A -> B -> Prop) xs ys :
  Forall2 P xs ys -> List.length xs = List.length ys.
Proof. induction 1; simpl; congruence. Qed.

(** Taking by position succeeds when every position is in range, and gives
    the entries at those positions. *)
Lemma take_inv {A} (a : list A) (idx : list nat) (r : list A) :
  Numpy.take a idx = inr r -> Forall2 (fun i x => nth_error a i = Some x) idx r.
Proof.
  intros H. apply map_m_inv in H.
  induction H as [| i x idx r Hix _ IH]; constructor; auto.
  destruct (nth_error a i); [now injection Hix as -> | discriminate].
Qed.

Lemma take_in_range {A} (d : A) (a : list A) (idx : list nat) :
  Forall (fun i => i < List.length a) idx ->
  Numpy.take a idx = inr (map (fun i => nth i a d) idx).
Proof.
  intros H. apply map_m_inr. intros i Hi.
  rewrite Forall_forall in H. specialize (H i Hi).
  rewrite (nth_error_nth' a d H). reflexivity.
Qed.

Lemma in_firstn_in {A} (k : nat) (l : list A) (x : A) :
  In x (firstn k l) -> In x l.
Proof.
  intros H. rewrite <- (firstn_skipn k l). apply in_or_app. now left.
Qed.

Lemma in_skipn_in {A} (k : nat) (l : list A) (x : A) :
  In x (skipn k l) -> In x l.
Proof.
  intros H. rewrite <- (firstn_skipn k l). apply in_or_app. now right.
Qed.

Lemma fst_combine {A B} (l : list A) (l' : list B) :
  List.length l = List.length l' -> map fst (combine l l') = l.
Proof.
  revert l'. induction l as [| a l IH]; intros [| b l'] H; simpl in *;
    try discriminate; try reflexivity.
  f_equal. apply IH. congruence.
Qed.

Lemma snd_combine {A B} (l : list A) (l' : list B) :
  List.length l = List.length l' -> map snd (combine l l') = l'.
Proof.
  revert l'. induction l as [| a l IH]; intros [| b l'] H; simpl in *;
    try discriminate; try reflexivity.
  f_equal. apply IH. congruence.
Qed.

End Basics.

(** ** Loading *)

Section Loading.
Import Pandas Sklearn Notebook.
Context {R : RandomState} {L : Learner} {F : Numpy.Float64}
        {Srt : Numpy.Argsort}.

Lemma run_cons_raises fs c cs st st' e :
  code fs c st = (st', inl e) ->
  run fs (c :: cs) st = mkOutcome [] st' (Some e).
Proof. intros H. cbn [run]. rewrite H. reflexivity. Qed.

Lemma run_cons_returns fs c cs st st' u :
  code fs c st = (st', inr u) ->
  run fs (c :: cs) st = after c (run fs cs st').
Proof. intros H. cbn [run]. rewrite H. reflexivity. Qed.

Lemma cell_load_raises fs st e :
  read_csv fs csv_path = inl e -> cell_load fs st = (st, inl e).
Proof. intros H. unfold cell_load, bind, lift. rewrite H. reflexivity. Qed.

End Loading.

(** ** Missing values *)

Section Cleaning.
Import Pandas Sklearn Notebook.
Context {R : RandomState} {L : Learner} {F : Numpy.Float64}.

Definition no_missing (cells : list cell) : Prop :=
  Forall (fun c => notna c = true) cells.

(** Every row of a frame has one cell per column. *)
Definition rectangular (df : DataFrame) : Prop :=
  Forall (fun r => List.length (snd r) = List.length (columns df)) (records df).

Lemma pad_length w l : List.length l <= w -> List.length (pad w l) = w.
Proof. intros H. unfold pad. rewrite length_app, repeat_length. lia. Qed.

Lemma read_csv_rectangular fs path df :
  read_csv fs path = inr df -> rectangular df.
Proof.
  unfold read_csv, rectangular.
  destruct (fs path) as [[| | header lines plain] |]; try discriminate.
  destruct (List.length header =? 0); [discriminate |].
  destruct (forallb _ lines) eqn:Hw; [| discriminate].
  intros H. injection H as <-. simpl.
  rewrite forallb_forall in Hw. apply Forall_forall. intros [i l] Hin.
  apply in_combine_r in Hin. apply in_map_iff in Hin as (l0 & <- & Hl0).
  simpl. apply pad_length. apply Nat.leb_le. auto.
Qed.

Lemma read_csv_index fs path df :
  read_csv fs path = inr df -> index df = seq 0 (List.length (records df)).
Proof.
  unfold read_csv, index.
  destruct (fs path) as [[| | header lines plain] |]; try discriminate.
  destruct (List.length header =? 0); [discriminate |].
  destruct (forallb _ lines); [| discriminate].
  intros H. injection H as <-. simpl.
  rewrite length_combine, length_seq, length_map, Nat.min_id.
  apply fst_combine. now rewrite length_seq, length_map.
Qed.

Lemma dropna_rectangular df : rectangular df -> rectangular (dropna df).
Proof.
  unfold rectangular, dropna. simpl. intros H.
  apply Forall_forall. intros r Hr. apply filter_In in Hr as [Hr _].
  rewrite Forall_forall in H. auto.
Qed.

Lemma dropna_complete df r :
  In r (records (dropna df)) <-> In r (records df) /\ complete r = true.
Proof. unfold dropna. simpl. apply filter_In. Qed.

Lemma complete_no_missing r : complete r = true <-> no_missing (snd r).
Proof.
  unfold complete, no_missing. rewrite forallb_forall, Forall_forall. tauto.
Qed.

Lemma get_loc_lt name cols i : get_loc name cols = Some i -> i < List.length cols.
Proof.
  revert i. induction cols as [| c cols IH]; intros i; simpl; [discriminate |].
  destruct (String.eqb name c).
  - intros H. injection H as <-. lia.
  - destruct (get_loc name cols) as [j |]; simpl; [| discriminate].
    intros H. injection H as <-. specialize (IH j eq_refl). lia.
Qed.

Lemma locate_lt cols name i : locate cols name = inr i -> i < List.length cols.
Proof.
  unfold locate. destruct (get_loc name cols) eqn:E; [| discriminate].
  intros H. injection H as <-. eapply get_loc_lt; eauto.
Qed.

Lemma at_col_notna df r i :
  rectangular df -> In r (records df) -> no_missing (snd r) ->
  i < List.length (columns df) -> notna (at_col i r) = true.
Proof.
  intros Hrect Hin Hno Hi. unfold at_col.
  unfold rectangular in Hrect. rewrite Forall_forall in Hrect. specialize (Hrect r Hin).
  unfold no_missing in Hno. rewrite Forall_forall in Hno.
  apply Hno. apply nth_In. lia.
Qed.

(** Selecting columns keeps the rows, their labels and their order. *)
Lemma getitem_list_inv df names X :
  getitem_list df names = inr X ->
  exists locs,
    Forall (fun i => i < List.length (columns df)) locs /\
    List.length locs = List.length names /\
    X = mkFrame names (map (fun r => (fst r, map (fun i => at_col i r) locs)) (records df)).
Proof.
  unfold getitem_list.
  destruct (not_found (columns df) names); [| discriminate].
  destruct (Py.map_m (locate (columns df)) names) as [e | locs] eqn:E; simpl;
    [discriminate |].
  intros H. injection H as <-. exists locs. repeat split.
  - apply map_m_inv in E. clear -E.
    induction E; constructor; eauto using locate_lt.
  - apply map_m_inv in E. symmetry. eapply Forall2_length_eq; eauto.
Qed.

Lemma getitem_inv df name y :
  getitem df name = inr y ->
  exists i, i < List.length (columns df) /\
            y = map (fun r => (fst r, at_col i r)) (records df).
Proof.
  unfold getitem. destruct (locate (columns df) name) as [e | i] eqn:E; simpl;
    [discriminate |].
  intros H. injection H as <-. exists i. split; eauto using locate_lt.
Qed.

Lemma getitem_list_clean df names X :
  rectangular df -> Forall (fun r => no_missing (snd r)) (records df) ->
  getitem_list df names = inr X ->
  index X = index df /\ Forall (fun r => no_missing (snd r)) (records X).
Proof.
  intros Hrect Hno H. apply getitem_list_inv in H as (locs & Hlocs & _ & ->).
  unfold index. simpl. split.
  - rewrite map_map. reflexivity.
  - apply Forall_forall. intros r Hr. apply in_map_iff in Hr as (r0 & <- & Hr0).
    simpl. apply Forall_forall. intros c Hc.
    apply in_map_iff in Hc as (i & <- & Hi).
    rewrite Forall_forall in Hno, Hlocs. eapply at_col_notna; eauto.
Qed.

Lemma getitem_clean df name y :
  rectangular df -> Forall (fun r => no_missing (snd r)) (records df) ->
  getitem df name = inr y ->
  s_index y = index df /\ no_missing (s_values y).
Proof.
  intros Hrect Hno H. apply getitem_inv in H as (i & Hi & ->).
  unfold s_index, s_values, index. rewrite !map_map. simpl. split; [reflexivity |].
  apply Forall_forall. intros c Hc. apply in_map_iff in Hc as (r & <- & Hr).
  rewrite Forall_forall in Hno. eapply at_col_notna; eauto.
Qed.

End Cleaning.

(** ** Running the first cells *)

Section FirstCells.
Import Pandas Sklearn Notebook.
Context {R : RandomState} {L : Learner} {F : Numpy.Float64}
        {Srt : Numpy.Argsort}.

(** The kernel after the loading cell. *)
Definition loaded (parsed : DataFrame) (st : state) : state :=
  set "target" (VName "drought")
    (set "predictors" (VNames predictor_names)
       (set "data" (VFrame (dropna parsed))
          (set "data" (VFrame parsed) st))).

(** The kernel after the separation cell. *)
Definition separated (X : DataFrame) (y : Series) (st : state) : state :=
  set "y" (VSeries y) (set "X" (VFrame X) st).

Lemma cell_load_returns fs st parsed :
  read_csv fs csv_path = inr parsed ->
  cell_load fs st = (loaded parsed st, inr tt).
Proof. intros H. unfold cell_load, bind, lift. rewrite H. reflexivity. Qed.

(** The map cell binds nothing. *)
Lemma cell_map_state fs st : fst (cell_map fs st) = st.
Proof.
  unfold cell_map, bind, get, bind, lookup, lift.
  destruct (globals st "data") as [v |]; simpl; [| reflexivity].
  destruct (as_frame v) as [e | d]; simpl; [reflexivity |].
  destruct (getitem_list d _); simpl; [reflexivity |].
  destruct (fs shp_path); reflexivity.
Qed.

Lemma cell_separate_run st data names target :
  globals st "data" = Some (VFrame data) ->
  globals st "predictors" = Some (VNames names) ->
  globals st "target" = Some (VName target) ->
  cell_separate st =
  match getitem_list data names with
  | inl e => (st, inl e)
  | inr X =>
      match getitem data target with
      | inl e => (set "X" (VFrame X) st, inl e)
      | inr y => (separated X y st, inr tt)
      end
  end.
Proof.
  intros Hd Hp Ht.
  unfold cell_separate, bind, get, bind, lookup, lift.
  rewrite Hd. cbn. rewrite Hp. cbn.
  destruct (getitem_list data names) as [e | X]; [reflexivity |].
  cbn. rewrite Hd. cbn. rewrite Ht. cbn.
  destruct (getitem data target) as [e | y]; reflexivity.
Qed.

(** What the first three cells leave behind when none of them raises. *)
Lemma first_cells_inv fs g o :
  run fs [Load; Map; Separate] (empty g) = o -> raised o = None ->
  exists parsed X y,
    read_csv fs csv_path = inr parsed /\
    getitem_list (dropna parsed) predictor_names = inr X /\
    getitem (dropna parsed) "drought" = inr y /\
    kernel o = separated X y (loaded parsed (empty g)).
Proof.
  intros Ho Hr.
  destruct (read_csv fs csv_path) as [e | parsed] eqn:Hread.
  - rewrite (run_cons_raises fs Load _ (empty g) _ _
               (cell_load_raises fs (empty g) e Hread)) in Ho.
    subst o. discriminate.
  - rewrite (run_cons_returns fs Load _ (empty g) _ _
               (cell_load_returns fs (empty g) parsed Hread)) in Ho.
    pose proof (cell_map_state fs (loaded parsed (empty g))) as Hm.
    destruct (cell_map fs (loaded parsed (empty g))) as [st1 [e | u]] eqn:Hmap;
      simpl in Hm; subst st1.
    { rewrite (run_cons_raises fs Map _ _ _ _ Hmap) in Ho. subst o. discriminate. }
    rewrite (run_cons_returns fs Map _ _ _ _ Hmap) in Ho.
    pose proof (cell_separate_run (loaded parsed (empty g))
                  (dropna parsed) predictor_names "drought"
                  eq_refl eq_refl eq_refl) as Hs.
    destruct (getitem_list (dropna parsed) predictor_names) as [e | X] eqn:HX.
    { rewrite (run_cons_raises fs Separate _ _ _ _ Hs) in Ho. subst o. discriminate. }
    destruct (getitem (dropna parsed) "drought") as [e | y] eqn:Hy.
    { rewrite (run_cons_raises fs Separate _ _ _ _ Hs) in Ho. subst o. discriminate. }
    rewrite (run_cons_returns fs Separate _ _ _ _ Hs) in Ho.
    subst o. exists parsed, X, y. repeat split; auto.
Qed.

End FirstCells.

Section CleanData.
Import Pandas Sklearn Notebook.
Context {R : RandomState} {L : Learner} {F : Numpy.Float64}
        {Srt : Numpy.Argsort}.

(** C6.  When the loading, map and separation cells have run, [data] is the
    parsed table without the rows that have a missing cell: each of its rows
    is a row of the file with no missing cell, each row of the file with no
    missing cell is one of its rows, in the file's order.  [X] and [y] are
    taken from that frame afterwards, row for row, and hold no missing
    value. *)
Theorem modelling_data_has_no_missing_values
    (fs : filesystem) (g : rng) (o : outcome) :
  run fs [Load; Map; Separate] (empty g) = o -> raised o = None ->
  exists parsed data X y,
    read_csv fs csv_path = inr parsed /\
    globals (kernel o) "data" = Some (VFrame data) /\
    globals (kernel o) "X" = Some (VFrame X) /\
    globals (kernel o) "y" = Some (VSeries y) /\
    records data = filter complete (records parsed) /\
    (forall r, In r (records parsed) -> no_missing (snd r) -> In r (records data)) /\
    (forall r, In r (records data) -> In r (records parsed) /\ no_missing (snd r)) /\
    index X = index data /\
    s_index y = index data /\
    Forall (fun r => no_missing (snd r)) (records X) /\
    no_missing (s_values y).
Proof.
  intros Ho Hr.
  destruct (first_cells_inv fs g o Ho Hr) as (parsed & X & y & Hread & HX & Hy & Hk).
  assert (Hrect : rectangular (dropna parsed))
    by (apply dropna_rectangular; eapply read_csv_rectangular; eauto).
  assert (Hclean : Forall (fun r => no_missing (snd r)) (records (dropna parsed))).
  { apply Forall_forall. intros r Hin. apply dropna_complete in Hin as [_ Hc].
    now apply complete_no_missing. }
  destruct (getitem_list_clean _ _ _ Hrect Hclean HX) as [HiX HnX].
  destruct (getitem_clean _ _ _ Hrect Hclean Hy) as [Hiy Hny].
  exists parsed, (dropna parsed), X, y. rewrite Hk.
  repeat split; auto.
  - intros r Hin Hno. apply dropna_complete. split; [auto |].
    now apply complete_no_missing.
  - now apply dropna_complete in H.
  - apply complete_no_missing. now apply dropna_complete in H.
Qed.

End CleanData.

(** On the demo disk the third of six lines has a missing cell. *)
Lemma modelling_data_has_no_missing_values_witness :
  let o := Notebook.run (L := Demo.Stump) (F := Demo.Exact) (Srt := Demo.Insertion) Demo.disk
             [Notebook.Load; Notebook.Map; Notebook.Separate]
             (Notebook.empty Demo.g0) in
  exists parsed data X y,
    Pandas.read_csv Demo.disk Notebook.csv_path = inr parsed /\
    Notebook.globals (Notebook.kernel o) "data" = Some (Notebook.VFrame data) /\
    Notebook.globals (Notebook.kernel o) "X" = Some (Notebook.VFrame X) /\
    Notebook.globals (Notebook.kernel o) "y" = Some (Notebook.VSeries y) /\
    Pandas.records data = filter Pandas.complete (Pandas.records parsed) /\
    (forall r, In r (Pandas.records parsed) -> no_missing (snd r) ->
               In r (Pandas.records data)) /\
    (forall r, In r (Pandas.records data) ->
               In r (Pandas.records parsed) /\ no_missing (snd r)) /\
    Pandas.index X = Pandas.index data /\
    Pandas.s_index y = Pandas.index data /\
    Forall (fun r => no_missing (snd r)) (Pandas.records X) /\
    no_missing (Pandas.s_values y).
Proof.
  intros o.
  apply (modelling_data_has_no_missing_values (L := Demo.Stump) (F := Demo.Exact)
           (Srt := Demo.Insertion) Demo.disk Demo.g0 o eq_refl).
  vm_compute. reflexivity.
Defined.

(** ** The splitter *)

Section Splitter.
Import Pandas Sklearn.
Context {R : RandomState}.

Lemma map_nth_seq {A} (d : A) (l : list A) :
  map (fun i => nth i l d) (seq 0 (List.length l)) = l.
Proof.
  induction l as [| a l IH]; simpl; [reflexivity |].
  f_equal. rewrite <- seq_shift, map_map. exact IH.
Qed.

Lemma NoDup_map_filter {K V} (key : V -> K) (keep : V -> bool) (rows : list V)
    (H : NoDup (map key rows)) :
  NoDup (map key (filter keep rows)).
Proof.
  induction rows as [| a l IH]; simpl in *; [constructor |].
  inversion H as [| ? ? Hnin Hnd]; subst.
  destruct (keep a); simpl; auto.
  constructor; auto.
  intros Hin. apply Hnin. apply in_map_iff in Hin as (x & Hx & Hin).
  apply filter_In in Hin as [Hin _]. apply in_map_iff. eauto.
Qed.

(** The number of test rows is the test share rounded up, and never more
    than there are rows. *)
Definition n_test_of (test_size : Q) (n_samples : nat) : nat :=
  Z.to_nat (Qceiling (test_size * inject_Z (Z.of_nat n_samples))).

Lemma validate_shuffle_split_inv n ts n_train n_test :
  validate_shuffle_split n ts = inr (n_train, n_test) ->
  (0 < ts)%Q /\ (ts < 1)%Q /\
  n_test = n_test_of ts n /\ n_train + n_test = n /\ 0 < n_train.
Proof.
  unfold validate_shuffle_split, n_test_of.
  destruct (Qle_bool ts 0) eqn:H0; simpl; [discriminate |].
  destruct (Qle_bool 1 ts) eqn:H1; simpl; [discriminate |].
  destruct (_ =? 0) eqn:Hz; [discriminate |].
  intros H. injection H as <- <-.
  apply Nat.eqb_neq in Hz.
  assert (P0 : (0 < ts)%Q).
  { apply Qnot_le_lt. intros C. apply Qle_bool_iff in C. congruence. }
  assert (P1 : (ts < 1)%Q).
  { apply Qnot_le_lt. intros C. apply Qle_bool_iff in C. congruence. }
  repeat split; auto; lia.
Qed.


(** The rounding is upwards: the test share is met and overshot by less
    than one row. *)
Lemma n_test_of_bounds ts n :
  (0 <= ts)%Q ->
  (ts * inject_Z (Z.of_nat n) <= inject_Z (Z.of_nat (n_test_of ts n)))%Q /\
  (inject_Z (Z.of_nat (n_test_of ts n)) < ts * inject_Z (Z.of_nat n) + 1)%Q.
Proof.
  intros P0. unfold n_test_of.
  set (x := (ts * inject_Z (Z.of_nat n))%Q).
  assert (Hx : (0 <= x)%Q).
  { apply Qmult_le_0_compat; [exact P0 |].
    change 0%Q with (inject_Z 0). rewrite <- Zle_Qle. lia. }
  assert (Hc : (0 <= Qceiling x)%Z).
  { change 0%Z with (Qceiling (inject_Z 0)) at 1. rewrite Qceiling_Z.
    rewrite <- (Qceiling_Z 0). apply Qceiling_resp_le. exact Hx. }
  rewrite Z2Nat.id by exact Hc. split.
  - apply Qle_ceiling.
  - pose proof (Qceiling_lt x) as Hl.
    unfold Z.sub in Hl. rewrite inject_Z_plus, inject_Z_opp in Hl.
    change (inject_Z 1) with 1%Q in Hl.
    lra.
Qed.

(** What a successful split returns: a permutation of the positions drawn
    from the generator, its first [n_test] positions as the test rows and
    the rest as the training rows, of [X] and of [y] alike. *)
Definition row_at (X : DataFrame) (i : nat) : row := nth i (records X) (0, []).
Definition entry_at (y : Series) (i : nat) : nat * cell := nth i y (0, NaN).

Lemma train_test_split_inv g X y ts rs sp g' :
  train_test_split g X y ts rs = inr (sp, g') ->
  let n := List.length (records X) in
  let k := n_test_of ts n in
  let drawn := permutation (fst (check_random_state g rs)) n in
  let perm := fst drawn in
  List.length y = n /\ (0 < ts)%Q /\ (ts < 1)%Q /\ k < n /\
  X_test sp = mkFrame (columns X) (map (row_at X) (firstn k perm)) /\
  X_train sp = mkFrame (columns X) (map (row_at X) (skipn k perm)) /\
  y_test sp = map (entry_at y) (firstn k perm) /\
  y_train sp = map (entry_at y) (skipn k perm) /\
  g' = snd (check_random_state g rs) (snd drawn).
Proof.
  intros H n k drawn perm. unfold train_test_split in H. fold n in H.
  destruct (List.length y =? n) eqn:Hlen; simpl in H; [| discriminate].
  apply Nat.eqb_eq in Hlen.
  destruct (validate_shuffle_split n ts) as [e | [n_train n_test]] eqn:Hv;
    simpl in H; [discriminate |].
  apply validate_shuffle_split_inv in Hv as (P0 & P1 & Hk & Hsum & Hpos).
  fold k in Hk. subst n_test.
  unfold shuffle_split in H. subst perm drawn.
  destruct (check_random_state g rs) as [g1 after]. simpl.
  pose proof (permutation_spec g1 n) as Hperm.
  destruct (permutation g1 n) as [perm g2]. simpl in *.
  assert (Hlp : List.length perm = n)
    by (rewrite (Permutation_length Hperm); apply length_seq).
  assert (Hrange : Forall (fun i => i < n) perm).
  { apply Forall_forall. intros i Hi.
    apply (Permutation_in _ Hperm), in_seq in Hi. lia. }
  assert (Htrain : firstn n_train (skipn k perm) = skipn k perm).
  { apply firstn_all2. rewrite length_skipn. lia. }
  rewrite Htrain in H.
  assert (Hr1 : Forall (fun i => i < n) (skipn k perm)).
  { apply Forall_forall. intros i Hi. rewrite Forall_forall in Hrange.
    apply Hrange. rewrite <- (firstn_skipn k perm). apply in_or_app. now right. }
  assert (Hr2 : Forall (fun i => i < n) (firstn k perm)).
  { apply Forall_forall. intros i Hi. rewrite Forall_forall in Hrange.
    apply Hrange. rewrite <- (firstn_skipn k perm). apply in_or_app. now left. }
  unfold iloc in H.
  rewrite (take_in_range (0, []) (records X) _ Hr1) in H. simpl in H.
  rewrite (take_in_range (0, []) (records X) _ Hr2) in H. simpl in H.
  rewrite <- Hlen in Hr1, Hr2.
  rewrite (take_in_range (0, NaN) y _ Hr1) in H. simpl in H.
  rewrite (take_in_range (0, NaN) y _ Hr2) in H. simpl in H.
  injection H as <- <-. simpl.
  repeat split; auto; lia.
Qed.


End Splitter.

Section Partition.
Import Pandas Sklearn Notebook.
Context {R : RandomState}.

Lemma NoDup_app_disjoint {A} (l1 l2 : list A) (x : A) :
  NoDup (l1 ++ l2) -> In x l1 -> ~ In x l2.
Proof.
  induction l1 as [| a l1 IH]; simpl; intros Hnd H1 H2; [contradiction |].
  inversion Hnd as [| ? ? Hnin Hnd']; subst.
  destruct H1 as [-> | H1].
  - apply Hnin. apply in_or_app. now right.
  - exact (IH Hnd' H1 H2).
Qed.

(** The labels of a frame read from a file, cleaned and cut to some columns
    are all different. *)
Lemma separated_index_NoDup fs path parsed names X :
  read_csv fs path = inr parsed ->
  getitem_list (dropna parsed) names = inr X ->
  NoDup (index X).
Proof.
  intros Hread HX.
  apply getitem_list_inv in HX as (locs & _ & _ & ->).
  unfold index. simpl. rewrite map_map. simpl.
  apply (NoDup_map_filter fst). change (NoDup (index parsed)).
  rewrite (read_csv_index _ _ _ Hread). apply seq_NoDup.
Qed.

Lemma split_rows_permutation g X y ts rs sp g' :
  train_test_split g X y ts rs = inr (sp, g') ->
  Permutation (records (X_train sp) ++ records (X_test sp)) (records X) /\
  Permutation (y_train sp ++ y_test sp) y /\
  List.length (records (X_test sp)) = n_test_of ts (List.length (records X)) /\
  List.length (y_test sp) = n_test_of ts (List.length (records X)).
Proof.
  intros H. apply train_test_split_inv in H.
  cbv zeta in H.
  set (n := List.length (records X)) in *.
  set (k := n_test_of ts n) in *.
  destruct (check_random_state g rs) as [g1 after]. simpl in H.
  pose proof (permutation_spec g1 n) as Hperm.
  destruct (permutation g1 n) as [perm g2]. simpl in H, Hperm.
  destruct H as (Hlen & P0 & P1 & Hk & -> & -> & -> & -> & _).
  assert (Hlp : List.length perm = n)
    by (rewrite (Permutation_length Hperm); apply length_seq).
  assert (Hsw : Permutation (skipn k perm ++ firstn k perm) (seq 0 n)).
  { rewrite Permutation_app_comm, firstn_skipn. exact Hperm. }
  simpl. rewrite <- !map_app. repeat split.
  - apply (Permutation_trans (Permutation_map _ Hsw)).
    unfold row_at, n. now rewrite map_nth_seq.
  - apply (Permutation_trans (Permutation_map _ Hsw)).
    unfold entry_at. rewrite <- Hlen. now rewrite map_nth_seq.
  - rewrite length_map, length_firstn. lia.
  - rewrite length_map, length_firstn. lia.
Qed.

End Partition.

Section SplitSizes.
Import Pandas Sklearn Notebook.
Context {R : RandomState}.

(** The two test shares of the notebook, in whole rows. *)
Lemma n_test_of_three_tenths n : n_test_of (3 # 10) n = (3 * n + 9) / 10.
Proof.
  unfold n_test_of, Qceiling, Qfloor, Qopp, Qmult, inject_Z. cbn [Qnum Qden].
  change (10 * 1)%positive with 10%positive.
  apply Nat2Z.inj. rewrite Nat2Z.inj_div.
  rewrite Z2Nat.id by (Z.div_mod_to_equations; lia).
  Z.div_mod_to_equations. lia.
Qed.

Lemma n_test_of_two_tenths n : n_test_of (2 # 10) n = (n + 4) / 5.
Proof.
  unfold n_test_of, Qceiling, Qfloor, Qopp, Qmult, inject_Z. cbn [Qnum Qden].
  change (10 * 1)%positive with 10%positive.
  apply Nat2Z.inj. rewrite Nat2Z.inj_div.
  rewrite Z2Nat.id by (Z.div_mod_to_equations; lia).
  Z.div_mod_to_equations. lia.
Qed.

(** What it is for [sp] to split the dataset [X], [y] at a test share: no
    row, and no row label, is in both the training and the test part; the
    two parts together are the rows of the dataset, so their sizes add up to
    its size; [y] is split along with [X]; and the test part has the test
    share of the rows, rounded up to a whole row. *)
Definition partitions (X : DataFrame) (y : Series) (test_size : Q) (sp : split)
    : Prop :=
  let n := List.length (records X) in
  let n_test := List.length (records (X_test sp)) in
  (forall r, In r (records (X_train sp)) -> ~ In r (records (X_test sp))) /\
  (forall i, In i (index (X_train sp)) -> ~ In i (index (X_test sp))) /\
  Permutation (records (X_train sp) ++ records (X_test sp)) (records X) /\
  Permutation (y_train sp ++ y_test sp) y /\
  List.length (records (X_train sp)) + n_test = n /\
  List.length (y_train sp) + List.length (y_test sp) = n /\
  List.length (y_test sp) = n_test /\
  Z.of_nat n_test = Qceiling (test_size * inject_Z (Z.of_nat n)) /\
  (test_size * inject_Z (Z.of_nat n) <= inject_Z (Z.of_nat n_test))%Q /\
  (inject_Z (Z.of_nat n_test) < test_size * inject_Z (Z.of_nat n) + 1)%Q /\
  ((test_size == 3 # 10)%Q -> n_test = (3 * n + 9) / 10) /\
  ((test_size == 2 # 10)%Q -> n_test = (n + 4) / 5).

(** C1.  Every split the notebook asks for, of the frame read from the file
    and cleaned, at any test share (.3 in cell 14, .2 in cell 31) and any
    seed, partitions the dataset: the training and test parts are disjoint,
    their sizes sum to the size of the dataset, and the size of the test
    part is the test share of it, rounded up. *)
Theorem split_partitions_the_dataset
    (fs : filesystem) (parsed X : DataFrame) (y : Series)
    (g : rng) (test_size : Q) (seed : Z) (sp : split) (g' : rng) :
  read_csv fs csv_path = inr parsed ->
  getitem_list (dropna parsed) predictor_names = inr X ->
  getitem (dropna parsed) "drought" = inr y ->
  train_test_split g X y test_size (Some seed) = inr (sp, g') ->
  partitions X y test_size sp.
Proof.
  intros Hread HX Hy Hsplit. unfold partitions.
  set (n := List.length (records X)).
  set (n_test := List.length (records (X_test sp))).
  pose proof (separated_index_NoDup _ _ _ _ _ Hread HX) as Hnd.
  pose proof (train_test_split_inv _ _ _ _ _ _ _ Hsplit) as Hinv.
  cbv zeta in Hinv. destruct Hinv as (Hlen & P0 & P1 & _).
  destruct (split_rows_permutation _ _ _ _ _ _ _ Hsplit) as (PX & Py & HnX & Hny).
  fold n in HnX, Hny, Hlen. fold n_test in HnX.
  assert (Hix : Permutation (index (X_train sp) ++ index (X_test sp)) (index X)).
  { unfold index. rewrite <- map_app. now apply Permutation_map. }
  assert (Hndi : NoDup (index (X_train sp) ++ index (X_test sp)))
    by (eapply Permutation_NoDup; [symmetry; exact Hix | exact Hnd]).
  assert (Hndr : NoDup (records (X_train sp) ++ records (X_test sp))).
  { apply (NoDup_map_inv fst). rewrite map_app. exact Hndi. }
  assert (Hsum : List.length (records (X_train sp)) + n_test = n).
  { unfold n_test, n. rewrite <- length_app. now apply Permutation_length. }
  assert (Hceil : Z.of_nat n_test = Qceiling (test_size * inject_Z (Z.of_nat n))).
  { rewrite HnX. unfold n_test_of. apply Z2Nat.id.
    rewrite <- (Qceiling_Z 0). apply Qceiling_resp_le.
    apply Qmult_le_0_compat; [now apply Qlt_le_weak |].
    change 0%Q with (inject_Z 0). rewrite <- Zle_Qle. lia. }
  destruct (n_test_of_bounds test_size n (Qlt_le_weak _ _ P0)) as [Hlo Hhi].
  rewrite <- HnX in Hlo, Hhi.
  repeat split; auto.
  - intros r. now apply NoDup_app_disjoint.
  - intros i. now apply NoDup_app_disjoint.
  - rewrite <- length_app, (Permutation_length Py). exact Hlen.
  - congruence.
  - intros E. rewrite Hceil in *. clear -E HnX.
    rewrite HnX. unfold n_test_of. rewrite (Qceiling_comp _ ((3 # 10) * inject_Z (Z.of_nat n))).
    + apply n_test_of_three_tenths.
    + now rewrite E.
  - intros E. rewrite HnX. unfold n_test_of.
    rewrite (Qceiling_comp _ ((2 # 10) * inject_Z (Z.of_nat n))).
    + apply n_test_of_two_tenths.
    + now rewrite E.
Qed.

End SplitSizes.

(** The split of cell 14 on the demo data: five complete rows, two of them
    for testing. *)
Lemma split_partitions_the_dataset_witness :
  partitions Demo.X Demo.y (3 # 10) Demo.sp42.
Proof.
  apply (split_partitions_the_dataset Demo.disk Demo.parsed Demo.X Demo.y
           Demo.g0 (3 # 10) 42 Demo.sp42 Demo.g0);
    vm_compute; reflexivity.
Defined.

(** ** Reproducibility of the split *)

Section Determinism.
Import Pandas Sklearn Notebook.
Context {R : RandomState}.

(** What a call hands back to its caller, without the generator state it
    leaves behind. *)
Definition returned {A S} (r : Py.t (A * S)) : Py.t A :=
  match r with
  | inl e => inl e
  | inr (a, _) => inr a
  end.

(** C4.  With an integer [random_state] the split does not depend on the
    state of numpy's process-wide generator at the time of the call: two
    calls with the same dataset, test share and seed, whatever was drawn in
    between, return the same training and test parts (or raise the same
    exception). *)
Theorem split_is_deterministic
    (g1 g2 : rng) (X : DataFrame) (y : Series) (test_size : Q) (seed : Z) :
  returned (train_test_split g1 X y test_size (Some seed))
  = returned (train_test_split g2 X y test_size (Some seed)).
Proof.
  unfold train_test_split, check_random_state.
  destruct (negb _); [reflexivity |].
  destruct (validate_shuffle_split _ test_size) as [e | [n_train n_test]];
    simpl; [reflexivity |].
  destruct (shuffle_split (seeded seed) _ n_train n_test) as [[train test] g'].
  destruct (iloc X train); simpl; [reflexivity |].
  destruct (iloc X test); simpl; [reflexivity |].
  destruct (Numpy.take y train); simpl; [reflexivity |].
  destruct (Numpy.take y test); reflexivity.
Qed.


End Determinism.

(** Without a seed the split is drawn from the process-wide generator, and
    two calls differ as the generator moves on. *)
Example unseeded_split_depends_on_generator :
  returned (Sklearn.train_test_split (0 : @Sklearn.rng Demo.Rotating)
              Demo.X Demo.y (3 # 10) None)
  <> returned (Sklearn.train_test_split (1 : @Sklearn.rng Demo.Rotating)
                 Demo.X Demo.y (3 # 10) None).
Proof. vm_compute. discriminate. Qed.

(** ** Ranking the importances *)

(** ** Reasoning about statements *)

Section Statements.
Import Pandas Sklearn Notebook.
Context {R : RandomState} {L : Learner} {F : Numpy.Float64}.

Lemma bind_inv {A B} (m : M A) (k : A -> M B) st st' b :
  bind m k st = (st', inr b) ->
  exists a st1, m st = (st1, inr a) /\ k a st1 = (st', inr b).
Proof.
  unfold bind. destruct (m st) as [st1 [e | a]]; [discriminate | eauto].
Qed.

Lemma bind_returns {A B} (m : M A) (k : A -> M B) st st1 a :
  m st = (st1, inr a) -> bind m k st = k a st1.
Proof. unfold bind. now intros ->. Qed.

Lemma bind_raises {A B} (m : M A) (k : A -> M B) st st1 e :
  m st = (st1, inl e) -> bind m k st = (st1, inl e).
Proof. unfold bind. now intros ->. Qed.

Lemma lift_inv {A} (r : Py.t A) st st' a :
  lift r st = (st', inr a) -> st' = st /\ r = inr a.
Proof. unfold lift. intros H. injection H as <- ->. auto. Qed.

Lemma assign_inv name v st st' u :
  assign name v st = (st', inr u) -> st' = set name v st.
Proof. unfold assign. intros H. now injection H as <-. Qed.

Lemma get_inv {A} name (cast : value -> Py.t A) st st' a :
  get name cast st = (st', inr a) ->
  st' = st /\ exists v, globals st name = Some v /\ cast v = inr a.
Proof.
  unfold get, bind, lookup, lift.
  destruct (globals st name) as [v |]; simpl; [| discriminate].
  intros H. injection H as <- H. eauto.
Qed.

Lemma get_returns {A} name (cast : value -> Py.t A) st v a :
  globals st name = Some v -> cast v = inr a ->
  get name cast st = (st, inr a).
Proof.
  intros Hv Hc. unfold get, bind, lookup, lift. rewrite Hv. simpl.
  now rewrite Hc.
Qed.

Lemma as_frame_inv v d : as_frame v = inr d -> v = VFrame d.
Proof. destruct v; simpl; intros H; try discriminate. now injection H as ->. Qed.
Lemma as_series_inv v s : as_series v = inr s -> v = VSeries s.
Proof. destruct v; simpl; intros H; try discriminate. now injection H as ->. Qed.
Lemma as_array_inv v a : as_array v = inr a -> v = VArray a.
Proof. destruct v; simpl; intros H; try discriminate. now injection H as ->. Qed.
Lemma as_indices_inv v l : as_indices v = inr l -> v = VIndices l.
Proof. destruct v; simpl; intros H; try discriminate. now injection H as ->. Qed.
Lemma as_forest_inv v c : as_forest v = inr c -> v = VForest c.
Proof. destruct v; simpl; intros H; try discriminate. now injection H as ->. Qed.
Lemma as_int_inv v n : as_int v = inr n -> v = VInt n.
Proof. destruct v; simpl; intros H; try discriminate. now injection H as ->. Qed.
Lemma as_entries_inv v l : as_entries v = inr l -> v = VEntries l.
Proof. destruct v; simpl; intros H; try discriminate. now injection H as ->. Qed.

End Statements.

(** Taking a completed statement apart, one step at a time. *)
Ltac cast_inv H :=
  first [ apply as_frame_inv in H | apply as_series_inv in H
        | apply as_array_inv in H | apply as_indices_inv in H
        | apply as_forest_inv in H | apply as_int_inv in H
        | apply as_entries_inv in H ].

Ltac statement_inv H :=
  lazymatch type of H with
  | Notebook.bind _ _ _ = (_, inr _) =>
      let a := fresh "a" in
      let st1 := fresh "st" in
      let H1 := fresh "Hm" in
      let H2 := fresh "Hk" in
      apply bind_inv in H; destruct H as (a & st1 & H1 & H2);
      cbv beta in H2; statement_inv H1; statement_inv H2
  | Notebook.get _ _ _ = (_, inr _) =>
      let v := fresh "v" in
      let Hv := fresh "Hv" in
      let Hc := fresh "Hc" in
      apply get_inv in H; destruct H as (-> & v & Hv & Hc);
      cast_inv Hc; subst v;
      cbn [Notebook.globals Notebook.set String.eqb Ascii.eqb Bool.eqb] in Hv
  | Notebook.lift _ _ = (_, inr _) =>
      let Hr := fresh "Hr" in
      apply lift_inv in H; destruct H as (-> & Hr)
  | Notebook.assign _ _ _ = (_, inr _) =>
      apply assign_inv in H; subst
  | _ => idtac
  end.

Section Ranking.
Import Pandas Sklearn Notebook.
Context {R : RandomState} {L : Learner} {F : Numpy.Float64}
        {Srt : Numpy.Argsort}.

Lemma StronglySorted_map {A B} (f : A -> B) (RB : B -> B -> Prop) (l : list A) :
  StronglySorted (fun a b => RB (f a) (f b)) l -> StronglySorted RB (map f l).
Proof.
  induction 1 as [| a l Hs IH Hf]; simpl; constructor; auto.
  apply Forall_forall. intros b Hb. apply in_map_iff in Hb as (x & <- & Hx).
  rewrite Forall_forall in Hf. auto.
Qed.

Lemma StronglySorted_map_inv {A B} (f : A -> B) (RB : B -> B -> Prop) (l : list A) :
  StronglySorted RB (map f l) -> StronglySorted (fun a b => RB (f a) (f b)) l.
Proof.
  induction l as [| a l IH]; simpl; intros H; [constructor |].
  inversion H as [| ? ? Hs Hf]; subst. constructor; auto.
  apply Forall_forall. intros b Hb. rewrite Forall_forall in Hf.
  apply Hf. now apply in_map.
Qed.

Lemma take_inv_map {A} (d : A) (a : list A) (idx : list nat) (r : list A) :
  Numpy.take a idx = inr r -> r = map (fun i => nth i a d) idx.
Proof.
  intros H. apply take_inv in H.
  induction H as [| i x idx r Hix _ IH]; simpl; [reflexivity |].
  f_equal; [| exact IH]. symmetry. now apply nth_error_nth.
Qed.

(** The order a stable descending sort would give: equal importances in
    column order. *)
Definition ties_in_column_order (vi : Numpy.ndarray) (idx : list nat) : Prop :=
  StronglySorted (fun i j => (nth i vi 0 == nth j vi 0)%Q -> i < j) idx.

Definition non_increasing (vi : Numpy.ndarray) (idx : list nat) : Prop :=
  StronglySorted (fun i j => (nth j vi 0 <= nth i vi 0)%Q) idx.

(** [np.argsort(a)[::-1]]: every position once, largest value first. *)
Lemma reversed_argsort vi :
  let idx := rev (Numpy.argsort vi) in
  Permutation idx (seq 0 (List.length vi)) /\
  non_increasing vi idx.
Proof.
  split.
  - rewrite <- Permutation_rev. apply Numpy.argsort_permutation.
  - apply (sorted_backwards (fun i j => (nth i vi 0 <= nth j vi 0)%Q)).
    apply Numpy.argsort_ascending.
Qed.

(** The rows of [ranking_df]: predictor, importance and rank. *)
Definition predictor_of (r : string * Q * nat) : string := fst (fst r).
Definition importance_of (r : string * Q * nat) : Q := snd (fst r).
Definition rank_of (r : string * Q * nat) : nat := snd r.

(** What the importance cell leaves behind: [sorted_indices] is a permutation
    of the feature positions, and [ranking_df] lists the predictor and the
    importance at each of those positions in turn, ranked 1, 2, ...; the
    importances do not increase down the rows.  Where two predictors have
    equal importance their order is the one [np.argsort] left them in, read
    backwards. *)
Definition ranked (st st' : state) : Prop :=
  exists X clf vi rows,
    let idx := rev (Numpy.argsort vi) in
    globals st "X" = Some (VFrame X) /\
    globals st "clf" = Some (VForest clf) /\
    feature_importances_ clf = inr vi /\
    globals st' "sorted_indices" = Some (VIndices idx) /\
    globals st' "ranking_df" = Some (VRanking rows) /\
    Permutation idx (seq 0 (List.length vi)) /\
    map predictor_of rows = map (fun i => nth i (columns X) ""%string) idx /\
    map importance_of rows = map (fun i => nth i vi 0%Q) idx /\
    map rank_of rows = seq 1 (List.length rows) /\
    StronglySorted (fun r1 r2 => (importance_of r2 <= importance_of r1)%Q) rows /\
    non_increasing vi idx.

(** C2, as the cell has it.  Whatever order the library's argsort leaves
    equal values in, the ranking lists every predictor once, with its
    importance and its rank, sorted non-increasing by importance. *)
Theorem ranking_is_sorted_by_importance (st st' : state) :
  cell_importance st = (st', inr tt) -> ranked st st'.
Proof.
  intros H. unfold ranked. unfold cell_importance in H. statement_inv H.
  injection Hv0 as <-. injection Hv1 as <-. injection Hv3 as <-.
  injection Hv4 as <-.
  rename a into clf, a0 into vi, a6 into X, a8 into names, a10 into imps,
    a11 into rows.
  apply (take_inv_map ""%string) in Hr0. apply (take_inv_map 0%Q) in Hr1.
  unfold ranking_frame, Numpy.arange_from in Hr2.
  destruct (_ && _) eqn:Hlen; [| discriminate].
  injection Hr2 as Hrows.
  apply andb_true_iff in Hlen as [Hl1 Hl2].
  apply Nat.eqb_eq in Hl1, Hl2. rewrite length_seq in Hl2.
  replace (List.length (columns X) + 1 - 1) with (List.length (columns X)) in *
    by lia.
  destruct (reversed_argsort vi) as (Hperm & Hdesc).
  cbv zeta in Hperm, Hdesc.
  assert (Hpi : map (fun r : string * Q * nat => fst r) rows = combine names imps).
  { rewrite <- Hrows. apply fst_combine.
    rewrite length_combine, length_seq. lia. }
  assert (Hranks : map rank_of rows = seq 1 (List.length rows)).
  { rewrite <- Hrows at 1. unfold rank_of.
    rewrite snd_combine by (rewrite length_combine, length_seq; lia).
    rewrite <- Hrows, !length_combine, length_seq. f_equal. lia. }
  assert (Himps : map importance_of rows = imps).
  { unfold importance_of.
    rewrite <- (map_map (fun r : string * Q * nat => fst r) snd), Hpi.
    apply snd_combine. exact Hl1. }
  assert (Hnames : map predictor_of rows = names).
  { unfold predictor_of.
    rewrite <- (map_map (fun r : string * Q * nat => fst r) fst), Hpi.
    apply fst_combine. exact Hl1. }
  exists X, clf, vi, rows. cbv zeta.
  repeat split; auto; try congruence.
  apply (StronglySorted_map_inv importance_of (fun a b => (b <= a)%Q)).
  rewrite Himps, Hr1. apply StronglySorted_map. exact Hdesc.
Qed.

End Ranking.

(** The stump gives all the importance to the first predictor. *)
Lemma ranking_is_sorted_by_importance_witness :
  ranked (Srt := Demo.Insertion) Demo.trained
    (fst (Notebook.cell_importance (Srt := Demo.Insertion) Demo.trained)).
Proof.
  apply ranking_is_sorted_by_importance.
  vm_compute. reflexivity.
Defined.

(** The stump gives the eight predictors after the first the same
    importance, none.  An argsort that keeps equal values in index order, as
    the insertion loop of numpy's scalar sort does, hands them back second
    column first, and [[::-1]] turns that round: [month] is ranked before
    [enso], though [enso] is the earlier column.  Another routine leaves the
    ties in another order; [column_order_needs_one_tie_order] below shows
    that a single order of them would make the ranking follow the
    columns. *)
Lemma ranking_ties_can_leave_column_order :
  exists st' vi idx,
    Notebook.cell_importance (Srt := Demo.Insertion) Demo.trained = (st', inr tt) /\
    Notebook.globals st' "variable_importance" = Some (Notebook.VArray vi) /\
    Notebook.globals st' "sorted_indices" = Some (Notebook.VIndices idx) /\
    Notebook.globals st' "ranking_df"
    = Some (Notebook.VRanking
              [("P"%string, 1%Q, 1); ("month"%string, 0%Q, 2);
               ("enso"%string, 0%Q, 3); ("NDVI"%string, 0%Q, 4);
               ("DS"%string, 0%Q, 5); ("SM_prev"%string, 0%Q, 6);
               ("SM"%string, 0%Q, 7); ("ET"%string, 0%Q, 8);
               ("PET"%string, 0%Q, 9)]) /\
    ~ ties_in_column_order vi idx.
Proof.
  eexists. eexists. eexists. split; [vm_compute; reflexivity |].
  split; [vm_compute; reflexivity |].
  split; [vm_compute; reflexivity |].
  split; [vm_compute; reflexivity |].
  vm_compute. intros H.
  inversion H as [| ? ? Hs _]; subst.
  inversion Hs as [| ? ? _ Hf]; subst.
  inversion Hf as [| ? ? Hlt _]; subst.
  specialize (Hlt eq_refl). lia.
Qed.

Section OneTieOrder.
Import Pandas Sklearn Notebook.

Lemma sorted_both {A} (P Q : A -> A -> Prop) (l : list A) :
  StronglySorted P l -> StronglySorted Q l ->
  StronglySorted (fun a b => In a l /\ In b l /\ P a b /\ Q a b) l.
Proof.
  intros HP HQ.
  assert (H : forall m, incl m l -> StronglySorted P m -> StronglySorted Q m ->
            StronglySorted (fun a b => In a l /\ In b l /\ P a b /\ Q a b) m).
  { induction m as [| a m IH]; intros Hi Pm Qm; [constructor |].
    inversion Pm as [| ? ? Pm' Pa]; subst. inversion Qm as [| ? ? Qm' Qa]; subst.
    constructor.
    - apply IH; auto. intros x Hx. apply Hi. now right.
    - rewrite Forall_forall in *. intros b Hb.
      repeat split; auto; apply Hi; [now left | now right]. }
  apply H; auto. apply incl_refl.
Qed.

Lemma seq_increasing s n : StronglySorted lt (seq s n).
Proof.
  revert s. induction n as [| n IH]; intros s; simpl; constructor; [apply IH |].
  apply Forall_forall. intros x Hx. apply in_seq in Hx. lia.
Qed.

(** Two increasing lists with the same entries are the same list. *)
Lemma increasing_unique (l1 l2 : list nat) :
  StronglySorted lt l1 -> StronglySorted lt l2 -> Permutation l1 l2 -> l1 = l2.
Proof.
  revert l2. induction l1 as [| a l1 IH]; intros l2 H1 H2 Hp.
  - apply Permutation_nil in Hp. now subst.
  - destruct l2 as [| b l2];
      [apply Permutation_sym, Permutation_nil in Hp; discriminate |].
    inversion H1 as [| ? ? S1 F1]; subst. inversion H2 as [| ? ? S2 F2]; subst.
    rewrite Forall_forall in F1, F2.
    assert (E : a = b).
    { assert (Ha : In a (b :: l2))
        by (apply (Permutation_in _ Hp); now left).
      assert (Hb : In b (a :: l1))
        by (apply (Permutation_in _ (Permutation_sym Hp)); now left).
      destruct Ha as [-> | Ha]; [reflexivity |].
      destruct Hb as [-> | Hb]; [reflexivity |].
      specialize (F1 b Hb). specialize (F2 a Ha). lia. }
    subst b. f_equal. apply IH; auto. eapply Permutation_cons_inv; eauto.
Qed.

(** For the stump's forest the ranking keeps the eight ties in column order
    only if [sorted_indices] is 0, 1, ..., 8, that is, only if [np.argsort]
    hands back the positions 8, 7, ..., 1, 0: of all the orders of the ties
    that its contract allows, a single one. *)
Lemma column_order_needs_one_tie_order (Srt : Numpy.Argsort)
    (st' : @Notebook.state Demo.Rotating Demo.Stump) (idx : list nat) :
  Notebook.cell_importance (Srt := Srt) Demo.trained = (st', inr tt) ->
  Notebook.globals st' "sorted_indices" = Some (Notebook.VIndices idx) ->
  ties_in_column_order [1; 0; 0; 0; 0; 0; 0; 0; 0]%Q idx ->
  idx = seq 0 9.
Proof.
  intros H Hidx Hties.
  unfold cell_importance in H. statement_inv H.
  vm_compute in Hv. injection Hv as <-.
  vm_compute in Hr. injection Hr as <-.
  injection Hv0 as <-. injection Hv1 as <-.
  cbn [globals set String.eqb Ascii.eqb Bool.eqb] in Hidx.
  injection Hidx as <-.
  set (vi := [1; 0; 0; 0; 0; 0; 0; 0; 0]%Q) in *.
  destruct (reversed_argsort vi) as (Hperm & Hdesc). cbv zeta in Hperm, Hdesc.
  set (idx := rev (Numpy.argsort vi)) in *.
  apply increasing_unique; [| apply seq_increasing | exact Hperm].
  unfold non_increasing in Hdesc. unfold ties_in_column_order in Hties.
  pose proof (sorted_both _ _ idx Hdesc Hties) as Hboth.
  eapply StronglySorted_weaken; [| exact Hboth].
  intros i j (Hi & Hj & Hle & Htie). cbv beta in Hle, Htie.
  apply (Permutation_in _ Hperm), in_seq in Hi.
  apply (Permutation_in _ Hperm), in_seq in Hj.
  destruct Hi as [_ Hi]. destruct Hj as [_ Hj]. simpl in Hi, Hj.
  do 9 (destruct i as [| i]; [
    do 9 (destruct j as [| j]; [
      first [ lia
            | apply Htie; vm_compute; reflexivity
            | exfalso; vm_compute in Hle; now apply Hle ] |]); lia |]).
  lia.
Qed.

End OneTieOrder.

(** ** The metrics *)

Section Metrics.
Import Pandas Sklearn.

Definition in_unit_interval (v : Q) : Prop := (0 <= v)%Q /\ (v <= 1)%Q.

Lemma inject_nat_nonneg n : (0 <= inject_Z (Z.of_nat n))%Q.
Proof. change 0%Q with (inject_Z 0). rewrite <- Zle_Qle. lia. Qed.

Lemma inject_nat_pos n : 0 < n -> (0 < inject_Z (Z.of_nat n))%Q.
Proof. intros H. change 0%Q with (inject_Z 0). rewrite <- Zlt_Qlt. lia. Qed.

Lemma ratio_in_unit_interval a b : a <= b -> 0 < b -> in_unit_interval (ratio a b).
Proof.
  intros Hab Hb. unfold ratio, in_unit_interval.
  pose proof (inject_nat_pos b Hb) as Hpos. split.
  - apply Qle_shift_div_l; [exact Hpos |]. rewrite Qmult_0_l. apply inject_nat_nonneg.
  - apply Qle_shift_div_r; [exact Hpos |]. rewrite Qmult_1_l.
    rewrite <- Zle_Qle. lia.
Qed.

Lemma count_le_length {A} (p : A -> bool) (l : list A) : count p l <= List.length l.
Proof. unfold count. apply filter_length_le. Qed.

Lemma count_le_count {A} (p q : A -> bool) (l : list A) :
  (forall x, p x = true -> q x = true) -> count p l <= count q l.
Proof.
  intros H. unfold count. induction l as [| x l IH]; simpl; [lia |].
  destruct (p x) eqn:Px.
  - rewrite (H x Px). simpl. lia.
  - destruct (q x); simpl; lia.
Qed.

Lemma count_pos {A} (p : A -> bool) (l : list A) (x : A) :
  In x l -> p x = true -> 0 < count p l.
Proof.
  intros Hin Hp. unfold count.
  assert (Hf : In x (filter p l)) by (apply filter_In; auto).
  destruct (filter p l); [contradiction | simpl; lia].
Qed.

Lemma prf_divide_in_unit_interval a b : in_unit_interval (prf_divide a (a + b)).
Proof.
  unfold prf_divide. destruct (a + b =? 0) eqn:E.
  - split; [apply Qle_refl | discriminate].
  - apply Nat.eqb_neq in E. apply ratio_in_unit_interval; lia.
Qed.

(** The harmonic mean of two numbers of the unit interval is one. *)
Lemma harmonic_in_unit_interval p r :
  in_unit_interval p -> in_unit_interval r ->
  in_unit_interval (if Qeq_bool (p + r) 0 then 0 else 2 * p * r / (p + r))%Q.
Proof.
  intros [Hp0 Hp1] [Hr0 Hr1].
  destruct (Qeq_bool (p + r) 0) eqn:E.
  - split; [apply Qle_refl | discriminate].
  - apply Qeq_bool_neq in E.
    assert (Hs : (0 < p + r)%Q).
    { destruct (Qlt_le_dec 0 (p + r)) as [Hl | Hg]; [exact Hl |].
      exfalso. apply E. apply Qle_antisym; [exact Hg |].
      rewrite <- (Qplus_0_l 0). apply Qplus_le_compat; assumption. }
    assert (Hpr : (0 <= p * r)%Q) by (apply Qmult_le_0_compat; assumption).
    split.
    + apply Qle_shift_div_l; [exact Hs |]. rewrite Qmult_0_l.
      rewrite <- Qmult_assoc. apply Qmult_le_0_compat; [discriminate | exact Hpr].
    + apply Qle_shift_div_r; [exact Hs |]. rewrite Qmult_1_l.
      assert (H1 : (p * r <= p)%Q) by nra.
      assert (H2 : (p * r <= r)%Q) by nra.
      lra.
Qed.

End Metrics.

Section Scores.
Import Pandas Sklearn.

Lemma check_targets_inv y_true y_pred pairs :
  check_targets y_true y_pred = inr pairs ->
  exists labels,
    column_or_1d y_true = inr labels /\
    List.length labels = List.length y_pred /\
    pairs = combine labels y_pred /\
    0 < List.length pairs.
Proof.
  unfold check_targets.
  destruct (column_or_1d y_true) as [e | labels]; simpl; [discriminate |].
  destruct (List.length labels =? List.length y_pred) eqn:E; simpl; [| discriminate].
  apply Nat.eqb_eq in E.
  destruct labels as [| l labels]; [discriminate |].
  intros H. injection H as <-. exists (l :: labels). repeat split; auto.
  destruct y_pred; [discriminate | simpl; lia].
Qed.

Lemma insert_unique_in x s z : In z (Numpy.insert_unique x s) -> z = x \/ In z s.
Proof.
  induction s as [| y s IH]; simpl.
  - intros [<- | []]. now left.
  - destruct (Qeq_bool x y); [now right |].
    destruct (Numpy.ltb x y); simpl.
    + intros [<- | H]; auto.
    + intros [<- | H]; auto. destruct (IH H); auto.
Qed.

Lemma insert_unique_nonempty x s : Numpy.insert_unique x s <> [].
Proof.
  destruct s as [| y s]; simpl; [discriminate |].
  destruct (Qeq_bool x y); [discriminate |].
  destruct (Numpy.ltb x y); discriminate.
Qed.

Lemma unique_fold_in a s z :
  In z (fold_left (fun s x => Numpy.insert_unique x s) a s) -> In z a \/ In z s.
Proof.
  revert s. induction a as [| x a IH]; simpl; intros s H; [now right |].
  destruct (IH _ H) as [Ha | Hs]; [now left; right |].
  destruct (insert_unique_in _ _ _ Hs) as [-> | Hs']; auto.
Qed.

(** The distinct values are values of the array. *)
Lemma unique_in a z : In z (Numpy.unique a) -> In z a.
Proof.
  unfold Numpy.unique. intros H.
  destruct (unique_fold_in _ _ _ H) as [Ha | []]. exact Ha.
Qed.

Lemma unique_fold_nonempty a s :
  s <> [] -> fold_left (fun s x => Numpy.insert_unique x s) a s <> [].
Proof.
  revert s. induction a as [| x a IH]; simpl; intros s H; [exact H |].
  apply IH, insert_unique_nonempty.
Qed.

Lemma unique_nonempty a : a <> [] -> Numpy.unique a <> [].
Proof.
  unfold Numpy.unique. destruct a as [| x a]; [congruence |]. intros _.
  simpl. apply unique_fold_nonempty. discriminate.
Qed.

Lemma accuracy_in_unit_interval y_true y_pred v :
  accuracy_score y_true y_pred = inr v -> in_unit_interval v.
Proof.
  unfold accuracy_score.
  destruct (check_targets y_true y_pred) as [e | pairs] eqn:E; simpl; [discriminate |].
  intros H. injection H as <-.
  apply check_targets_inv in E as (labels & _ & _ & _ & Hpos).
  apply ratio_in_unit_interval; [apply count_le_length | exact Hpos].
Qed.

Lemma binary_score_inv score y_true y_pred v :
  binary_score score y_true y_pred = inr v ->
  exists pairs, check_targets y_true y_pred = inr pairs /\
                check_set_wise_labels pairs = inr tt /\ v = score pairs.
Proof.
  unfold binary_score.
  destruct (check_targets y_true y_pred) as [e | pairs]; simpl; [discriminate |].
  destruct (check_set_wise_labels pairs) as [e | []] eqn:Hc; simpl; [discriminate |].
  intros H. injection H as <-. eauto.
Qed.

Lemma precision_in_unit_interval y_true y_pred v :
  precision_score y_true y_pred = inr v -> in_unit_interval v.
Proof.
  intros H. apply binary_score_inv in H as (pairs & _ & _ & ->).
  apply prf_divide_in_unit_interval.
Qed.

Lemma recall_in_unit_interval y_true y_pred v :
  recall_score y_true y_pred = inr v -> in_unit_interval v.
Proof.
  intros H. apply binary_score_inv in H as (pairs & _ & _ & ->).
  apply prf_divide_in_unit_interval.
Qed.

Lemma f1_in_unit_interval y_true y_pred v :
  f1_score y_true y_pred = inr v -> in_unit_interval v.
Proof.
  intros H. apply binary_score_inv in H as (pairs & _ & _ & ->).
  unfold f1_of. apply harmonic_in_unit_interval; apply prf_divide_in_unit_interval.
Qed.

Lemma qsum_bounds (l : list Q) :
  Forall in_unit_interval l ->
  (0 <= qsum l)%Q /\ (qsum l <= inject_Z (Z.of_nat (List.length l)))%Q.
Proof.
  induction 1 as [| x l [Hx0 Hx1] _ [IH0 IH1]]; simpl.
  - split; apply Qle_refl.
  - rewrite Zpos_P_of_succ_nat, <- Z.add_1_r, inject_Z_plus.
    change (inject_Z 1) with 1%Q. split; lra.
Qed.

Lemma class_recall_in_unit_interval pairs c :
  In c (map fst pairs) -> in_unit_interval (class_recall pairs c).
Proof.
  intros Hin. unfold class_recall. apply ratio_in_unit_interval.
  - unfold class_hits, support. apply count_le_count.
    intros p Hp. now apply andb_true_iff in Hp as [Hp _].
  - apply in_map_iff in Hin as (p & <- & Hp).
    unfold support. apply (count_pos _ _ p Hp). apply Qeq_bool_iff. reflexivity.
Qed.

Lemma balanced_accuracy_in_unit_interval y_true y_pred v :
  balanced_accuracy_score y_true y_pred = inr v -> in_unit_interval v.
Proof.
  unfold balanced_accuracy_score.
  destruct (check_targets y_true y_pred) as [e | pairs] eqn:E; simpl; [discriminate |].
  intros H. injection H as <-.
  apply check_targets_inv in E as (labels & _ & _ & _ & Hpos).
  set (classes := Numpy.unique (map fst pairs)).
  assert (Hne : 0 < List.length classes).
  { assert (Hu : classes <> []).
    { apply unique_nonempty. destruct pairs; [simpl in Hpos; lia | discriminate]. }
    destruct classes; [congruence | simpl; lia]. }
  assert (Hall : Forall in_unit_interval (map (class_recall pairs) classes)).
  { apply Forall_forall. intros r Hr. apply in_map_iff in Hr as (c & <- & Hc).
    apply class_recall_in_unit_interval. now apply unique_in. }
  destruct (qsum_bounds _ Hall) as [H0 H1]. rewrite length_map in H1.
  pose proof (inject_nat_pos _ Hne) as Hk.
  split.
  - apply Qle_shift_div_l; [exact Hk |]. now rewrite Qmult_0_l.
  - apply Qle_shift_div_r; [exact Hk |]. now rewrite Qmult_1_l.
Qed.

End Scores.

(** ** Binary labels *)

Section Binary.
Import Pandas Sklearn.

(** A label is 0 or 1. *)
Definition is_binary (q : Q) : Prop := (q == 0)%Q \/ (q == 1)%Q.
Definition binary (l : list Q) : Prop := Forall is_binary l.

Lemma insert_unique_sorted x s :
  StronglySorted Qlt s -> StronglySorted Qlt (Numpy.insert_unique x s).
Proof.
  induction s as [| y s IH]; simpl; intros Hs.
  - repeat constructor.
  - inversion Hs as [| ? ? Hs' Hy]; subst.
    destruct (Qeq_bool x y) eqn:Exy; [exact Hs |].
    apply Qeq_bool_neq in Exy.
    destruct (Numpy.ltb x y) eqn:Elt.
    + apply ltb_lt in Elt. constructor; [exact Hs |].
      constructor; [exact Elt |].
      eapply Forall_impl; [| exact Hy]. intros z Hz. eapply Qlt_trans; eauto.
    + apply ltb_ge in Elt.
      assert (Hyx : (y < x)%Q).
      { destruct (Qlt_le_dec y x) as [Hl | Hg]; [exact Hl |].
        exfalso. apply Exy. now apply Qle_antisym. }
      constructor; [auto |].
      apply Forall_forall. intros z Hz.
      destruct (insert_unique_in _ _ _ Hz) as [-> | Hz']; [exact Hyx |].
      rewrite Forall_forall in Hy. auto.
Qed.

Lemma unique_sorted a : StronglySorted Qlt (Numpy.unique a).
Proof.
  unfold Numpy.unique.
  assert (H : forall s, StronglySorted Qlt s ->
                        StronglySorted Qlt
                          (fold_left (fun s x => Numpy.insert_unique x s) a s)).
  { induction a as [| x a IH]; simpl; intros s Hs; [exact Hs |].
    apply IH, insert_unique_sorted, Hs. }
  apply H. constructor.
Qed.

Lemma unique_binary a : binary a -> binary (Numpy.unique a).
Proof.
  unfold binary. intros H. apply Forall_forall. intros z Hz.
  rewrite Forall_forall in H. apply H, unique_in, Hz.
Qed.

(** Ascending and distinct, 0 or 1 each: at most [0; 1]. *)
Lemma sorted_binary_shape s :
  StronglySorted Qlt s -> binary s ->
  List.length s <= 2 /\
  (2 <= List.length s -> existsb (Qeq_bool 1) s = true).
Proof.
  intros Hs Hb.
  destruct s as [| a [| b [| c s]]]; simpl; try (split; [lia | intros; lia]).
  - split; [lia | intros _].
    inversion Hs as [| ? ? _ Ha]; subst. inversion Ha as [| ? ? Hab _]; subst.
    inversion Hb as [| ? ? Ba Hb']; subst. inversion Hb' as [| ? ? Bb _]; subst.
    assert (Eb : (b == 1)%Q).
    { destruct Bb as [Eb | Eb]; [| exact Eb]. exfalso.
      destruct Ba as [Ea | Ea]; rewrite Ea, Eb in Hab;
        [exact (Qlt_irrefl _ Hab) | discriminate Hab]. }
    assert (E1 : Qeq_bool 1 b = true) by (apply Qeq_bool_iff; now symmetry).
    rewrite E1. now rewrite orb_true_r.
  - exfalso.
    inversion Hs as [| ? ? Hs1 Ha]; subst.
    inversion Ha as [| ? ? Hab Ha']; subst. inversion Ha' as [| ? ? Hac _]; subst.
    inversion Hs1 as [| ? ? _ Hb1]; subst. inversion Hb1 as [| ? ? Hbc _]; subst.
    inversion Hb as [| ? ? Ba Hb']; subst. inversion Hb' as [| ? ? Bb Hb'']; subst.
    inversion Hb'' as [| ? ? Bc _]; subst.
    unfold is_binary in *.
    destruct Ba as [Ea | Ea], Bb as [Eb | Eb], Bc as [Ec | Ec]; lra.
Qed.


End Binary.

(** ** Metric records *)

Section Records.
Import Pandas Sklearn Notebook.
Context {R : RandomState} {L : Learner} {F : Numpy.Float64}.

(** The five scores computed from one pair of true and predicted labels, in
    the order in which cell 24 and the loop of cell 31 compute them. *)
Record MetricRecord : Type := mkRecord {
  accuracy : Q;
  precision : Q;
  recall : Q;
  f1 : Q;
  balanced_accuracy : Q
}.

Definition evaluate (y_test : Series) (y_pred : Numpy.ndarray) : Py.t MetricRecord :=
  a <- accuracy_score y_test y_pred ;;
  p <- precision_score y_test y_pred ;;
  r <- recall_score y_test y_pred ;;
  f <- f1_score y_test y_pred ;;
  b <- balanced_accuracy_score y_test y_pred ;;
  Py.ret (mkRecord a p r f b).

Lemma evaluate_inv y_test y_pred m :
  evaluate y_test y_pred = inr m ->
  accuracy_score y_test y_pred = inr (accuracy m) /\
  precision_score y_test y_pred = inr (precision m) /\
  recall_score y_test y_pred = inr (recall m) /\
  f1_score y_test y_pred = inr (f1 m) /\
  balanced_accuracy_score y_test y_pred = inr (balanced_accuracy m).
Proof.
  unfold evaluate.
  destruct (accuracy_score y_test y_pred); simpl; [discriminate |].
  destruct (precision_score y_test y_pred); simpl; [discriminate |].
  destruct (recall_score y_test y_pred); simpl; [discriminate |].
  destruct (f1_score y_test y_pred); simpl; [discriminate |].
  destruct (balanced_accuracy_score y_test y_pred); simpl; [discriminate |].
  intros H. injection H as <-. simpl. auto.
Qed.

(** C8.  Whatever the true and the predicted labels, each score of the
    metric record computed from them lies between 0 and 1. *)
Theorem metric_records_lie_in_unit_interval
    (y_test : Series) (y_pred : Numpy.ndarray) (m : MetricRecord) :
  evaluate y_test y_pred = inr m ->
  in_unit_interval (accuracy m) /\
  in_unit_interval (precision m) /\
  in_unit_interval (recall m) /\
  in_unit_interval (f1 m) /\
  in_unit_interval (balanced_accuracy m).
Proof.
  intros H. apply evaluate_inv in H as (Ha & Hp & Hr & Hf & Hb).
  repeat split;
    eauto using accuracy_in_unit_interval, precision_in_unit_interval,
      recall_in_unit_interval, f1_in_unit_interval,
      balanced_accuracy_in_unit_interval;
    first [ eapply accuracy_in_unit_interval; eassumption
          | eapply precision_in_unit_interval; eassumption
          | eapply recall_in_unit_interval; eassumption
          | eapply f1_in_unit_interval; eassumption
          | eapply balanced_accuracy_in_unit_interval; eassumption ].
Qed.


(** The metrics cell binds the scores of one record. *)
Lemma cell_metrics_inv st st' :
  cell_metrics st = (st', inr tt) ->
  exists y_test y_pred m,
    globals st "y_test" = Some (VSeries y_test) /\
    globals st "y_pred" = Some (VArray y_pred) /\
    evaluate y_test y_pred = inr m /\
    globals st' "accuracy" = Some (VFloat (accuracy m)) /\
    globals st' "precision" = Some (VFloat (precision m)) /\
    globals st' "recall" = Some (VFloat (recall m)) /\
    globals st' "f1" = Some (VFloat (f1 m)) /\
    globals st' "balanced_accuracy" = Some (VFloat (balanced_accuracy m)).
Proof.
  intros H. unfold cell_metrics, score_of in H. statement_inv H.
  rewrite Hv in Hv1, Hv3, Hv5, Hv7. rewrite Hv0 in Hv2, Hv4, Hv6, Hv8.
  injection Hv1 as <-. injection Hv3 as <-. injection Hv5 as <-.
  injection Hv7 as <-. injection Hv2 as <-. injection Hv4 as <-.
  injection Hv6 as <-. injection Hv8 as <-.
  exists a0, a1, (mkRecord a a3 a7 a11 a15). simpl.
  unfold evaluate. rewrite Hr, Hr0, Hr1, Hr2, Hr3. simpl.
  repeat split; auto.
Qed.

End Records.

(** The predictions of cell 17 on the demo data, and their scores. *)
Definition demo_predictions : Numpy.ndarray :=
  Eval vm_compute in
    match Sklearn.predict Demo.clf42 (Sklearn.X_test Demo.sp42) with
    | inr yp => yp
    | inl _ => []
    end.

Definition demo_record : MetricRecord :=
  Eval vm_compute in
    match evaluate (Sklearn.y_test Demo.sp42) demo_predictions with
    | inr m => m
    | inl _ => mkRecord 0 0 0 0 0
    end.

Lemma metric_records_lie_in_unit_interval_witness :
  evaluate (Sklearn.y_test Demo.sp42) demo_predictions = inr demo_record /\
  in_unit_interval (accuracy demo_record) /\
  in_unit_interval (precision demo_record) /\
  in_unit_interval (recall demo_record) /\
  in_unit_interval (f1 demo_record) /\
  in_unit_interval (balanced_accuracy demo_record).
Proof.
  split; [vm_compute; reflexivity |].
  apply (metric_records_lie_in_unit_interval
           (Sklearn.y_test Demo.sp42) demo_predictions demo_record).
  vm_compute. reflexivity.
Defined.

(** ** The forest *)

Section ForestFacts.
Import Pandas Sklearn.
Context {L : Learner}.




Lemma check_array_inv (rows : list (list cell)) qs :
  check_array rows = inr qs ->
  Forall2 (fun r q => List.length q = List.length r) rows qs.
Proof.
  intros H. unfold check_array in H. apply map_m_inv in H.
  induction H as [| r q rows qs Hrq _ IH]; constructor; auto.
  apply map_m_inv in Hrq. symmetry. eapply Forall2_length_eq; eauto.
Qed.



Lemma fit_inv clf X y clf' :
  fit clf X y = inr clf' ->
  exists rows labels,
    check_array (values X) = inr rows /\
    column_or_1d y = inr labels /\
    labels <> [] /\
    clf' = mkForest (n_estimators clf) (random_state clf)
             (Some (mkFitted (Numpy.unique labels) (List.length (columns X))
                      (grow (n_estimators clf) (random_state clf) rows labels))).
Proof.
  unfold fit.
  destruct (check_array (values X)) as [e | rows]; simpl; [discriminate |].
  destruct (column_or_1d y) as [e | labels]; simpl; [discriminate |].
  destruct (List.length labels =? List.length rows) eqn:E; simpl; [| discriminate].
  apply Nat.eqb_eq in E.
  destruct rows as [| r rows]; [discriminate |].
  intros H. injection H as <-. exists (r :: rows), labels.
  repeat split; auto. intros ->. discriminate.
Qed.




(** A prediction is one of the classes seen in training, one per row. *)
Lemma predict_inv clf X y_pred :
  predict clf X = inr y_pred ->
  exists f, fitted_ clf = Some f /\
            List.length y_pred = List.length (records X) /\
            Forall (fun q => In q (classes_ f)) y_pred.
Proof.
  unfold predict, check_is_fitted, predict_proba, predict_proba_rows,
    check_is_fitted.
  destruct (fitted_ clf) as [f |]; simpl; [| discriminate].
  destruct (check_array (values X)) as [e | rows] eqn:Hrows; simpl; [discriminate |].
  destruct (Py.map_m (check_n_features f) rows) as [e | xs] eqn:Hxs; simpl;
    [discriminate |].
  intros H. exists f. split; [reflexivity |].
  apply take_inv in H. split.
  - apply Forall2_length_eq in H. rewrite !length_map in H.
    apply map_m_inv, Forall2_length_eq in Hxs.
    apply check_array_inv, Forall2_length_eq in Hrows.
    unfold values in Hrows. rewrite length_map in Hrows. lia.
  - clear -H. induction H as [| i q idx yp Hiq _ IH]; constructor; auto.
    eapply nth_error_In; eauto.
Qed.


End ForestFacts.

(** ** One round: split, fit, predict, score *)

Section Round.
Import Pandas Sklearn Notebook.
Context {R : RandomState} {L : Learner} {F : Numpy.Float64}.


Lemma n_test_of_pos ts n : (0 < ts)%Q -> 0 < n -> 0 < n_test_of ts n.
Proof.
  intros Hts Hn.
  destruct (n_test_of_bounds ts n (Qlt_le_weak _ _ Hts)) as [Hlo _].
  assert (Hp : (0 < ts * inject_Z (Z.of_nat n))%Q).
  { apply Qmult_lt_0_compat; [exact Hts | now apply inject_nat_pos]. }
  assert (Hq : (0 < inject_Z (Z.of_nat (n_test_of ts n)))%Q)
    by (eapply Qlt_le_trans; eauto).
  change 0%Q with (inject_Z 0) in Hq. rewrite <- Zlt_Qlt in Hq. lia.
Qed.







End Round.

(** ** The statements of the loop *)

Section LoopStatements.
Import Pandas Sklearn Notebook.
Context {R : RandomState} {L : Learner} {F : Numpy.Float64}.



Lemma stmt_split_raises ts seed st X y e :
  globals st "X" = Some (VFrame X) ->
  globals st "y" = Some (VSeries y) ->
  train_test_split (np_random st) X y ts (Some seed) = inl e ->
  stmt_split ts seed st = (st, inl e).
Proof.
  intros HX Hy Hsp. unfold stmt_split.
  rewrite (bind_returns _ _ st st X (get_returns "X" as_frame st _ X HX eq_refl)).
  rewrite (bind_returns _ _ st st y (get_returns "y" as_series st _ y Hy eq_refl)).
  unfold bind at 1. rewrite Hsp. reflexivity.
Qed.





End LoopStatements.

(** ** The loop over the seeds *)

Section Loop.
Import Pandas Sklearn Notebook.
Context {R : RandomState} {L : Learner} {F : Numpy.Float64}.
















Lemma three_tenths_leaves_training_rows n : 2 <= n -> n_test_of (3 # 10) n < n.
Proof.
  intros H. rewrite n_test_of_three_tenths.
  apply Nat.Div0.div_lt_upper_bound. lia.
Qed.






End Loop.

(** ** The stability cell *)

Section StabilityCell.
Import Pandas Sklearn Notebook.
Context {R : RandomState} {L : Learner} {F : Numpy.Float64}.







End StabilityCell.

Section StabilityRunner.
Import Pandas Sklearn Notebook.
Context {R : RandomState} {L : Learner} {F : Numpy.Float64}.



End StabilityRunner.



(** ** The prediction form after the stability cell *)

Section Form.
Import Pandas Sklearn Notebook.
Context {R : RandomState} {L : Learner} {F : Numpy.Float64}.

(** What a click does where [clf] is bound to a given forest: the
    probability comes from that forest. *)
Definition clicked (clf : RandomForestClassifier) (typed : list Q) (st : state)
    : state * Py.t unit :=
  match (proba <- predict_proba_rows clf [typed] ;; item_0_1 proba) with
  | inl e => (st, inl e)
  | inr p => (set "result_label" (VLabel (Some p)) st, inr tt)
  end.

Lemma predict_drought_probability_run st typed clf shown :
  globals st "entries" = Some (VEntries typed) ->
  globals st "clf" = Some (VForest clf) ->
  globals st "result_label" = Some (VLabel shown) ->
  predict_drought_probability st = clicked clf typed st.
Proof.
  intros He Hc Hl. unfold predict_drought_probability, clicked.
  rewrite (bind_returns _ _ st st typed
             (get_returns "entries" as_entries st _ typed He eq_refl)).
  rewrite (bind_returns _ _ st st clf
             (get_returns "clf" as_forest st _ clf Hc eq_refl)).
  unfold bind at 1, lift.
  destruct (proba <- predict_proba_rows clf [typed] ;; item_0_1 proba)
    as [e | p]; [reflexivity |].
  unfold bind, lookup. rewrite Hl. reflexivity.
Qed.



End Form.


(** ** Counting the predictions *)

Section Counts.
Import Pandas Sklearn Notebook.
Context {R : RandomState} {L : Learner} {F : Numpy.Float64}.

Lemma count_eq_partition (l : Numpy.ndarray) :
  binary l -> Numpy.count_eq l 1 + Numpy.count_eq l 0 = List.length l.
Proof.
  unfold Numpy.count_eq. induction 1 as [| q l Hq _ IH]; simpl; [reflexivity |].
  destruct Hq as [E | E].
  - assert (E1 : Qeq_bool q 1 = false).
    { apply not_true_is_false. intros C. apply Qeq_bool_iff in C.
      rewrite E in C. discriminate C. }
    assert (E0 : Qeq_bool q 0 = true) by now apply Qeq_bool_iff.
    rewrite E1, E0. simpl. lia.
  - assert (E1 : Qeq_bool q 1 = true) by now apply Qeq_bool_iff.
    assert (E0 : Qeq_bool q 0 = false).
    { apply not_true_is_false. intros C. apply Qeq_bool_iff in C.
      rewrite E in C. discriminate C. }
    rewrite E1, E0. simpl. lia.
Qed.

(** A forest fitted on labels that are 0 or 1 predicts 0 or 1. *)
Lemma predictions_are_training_classes clf0 Xtr ytr clf labels Xte y_pred :
  fit clf0 Xtr ytr = inr clf ->
  column_or_1d ytr = inr labels -> binary labels ->
  predict clf Xte = inr y_pred ->
  binary y_pred /\ List.length y_pred = List.length (records Xte).
Proof.
  intros Hfit Hcol Hb Hp.
  destruct (fit_inv _ _ _ _ Hfit) as (rows & labels' & _ & Hcol' & _ & ->).
  rewrite Hcol in Hcol'. injection Hcol' as <-.
  destruct (predict_inv _ _ _ Hp) as (f & Hf & Hlen & Hin).
  simpl in Hf. injection Hf as <-. simpl in Hin. split; [| exact Hlen].
  eapply Forall_impl; [| exact Hin]. intros q Hq.
  unfold binary in Hb. rewrite Forall_forall in Hb. apply Hb, unique_in, Hq.
Qed.

(** What the prediction cell leaves behind: the predictions of the forest
    on the test part, all 0 or 1, one per test row, and the two counts,
    which add up to their number. *)
Definition counted (st st' : state) (clf : RandomForestClassifier) : Prop :=
  exists Xte y_pred droughts non_droughts,
    globals st "X_test" = Some (VFrame Xte) /\
    predict clf Xte = inr y_pred /\
    globals st' "y_pred" = Some (VArray y_pred) /\
    globals st' "drought_count" = Some (VInt droughts) /\
    globals st' "non_drought_count" = Some (VInt non_droughts) /\
    droughts = Numpy.count_eq y_pred 1 /\
    non_droughts = Numpy.count_eq y_pred 0 /\
    binary y_pred /\
    List.length y_pred = List.length (records Xte) /\
    droughts + non_droughts = List.length y_pred.

(** C10.  Where [clf] is a forest fitted on labels that are all 0 or 1, the
    predictions of cell 17 are all 0 or 1, and the number of predicted
    droughts and the number of predicted non-droughts add up to the number
    of predictions. *)
Theorem predicted_counts_partition_the_test_set
    (st st' : state) (clf0 clf : RandomForestClassifier)
    (Xtr : DataFrame) (ytr : Series) (labels : list Q) :
  fit clf0 Xtr ytr = inr clf ->
  column_or_1d ytr = inr labels ->
  binary labels ->
  globals st "clf" = Some (VForest clf) ->
  cell_predict st = (st', inr tt) ->
  counted st st' clf.
Proof.
  intros Hfit Hcol Hb Hclf H.
  unfold cell_predict, stmt_predict in H. statement_inv H.
  rewrite Hclf in Hv. injection Hv as <-.
  injection Hv1 as <-. injection Hv2 as <-.
  rename a1 into Xte, a2 into y_pred.
  destruct (predictions_are_training_classes _ _ _ _ _ _ _ Hfit Hcol Hb Hr)
    as [Hbin Hlen].
  exists Xte, y_pred, (Numpy.count_eq y_pred 1), (Numpy.count_eq y_pred 0).
  repeat split; auto.
  now apply count_eq_partition.
Qed.

End Counts.

(** Cell 17 on the demo data: two test rows. *)
Lemma predicted_counts_partition_the_test_set_witness :
  counted Demo.trained (fst (Notebook.cell_predict Demo.trained)) Demo.clf42.
Proof.
  apply (predicted_counts_partition_the_test_set
           Demo.trained (fst (Notebook.cell_predict Demo.trained))
           (Sklearn.new 500 42) Demo.clf42
           (Sklearn.X_train Demo.sp42) (Sklearn.y_train Demo.sp42)
           [0; 1; 0]%Q).
  - vm_compute. reflexivity.
  - vm_compute. reflexivity.
  - repeat constructor; first [left; reflexivity | right; reflexivity].
  - vm_compute. reflexivity.
  - vm_compute. reflexivity.
Defined.

(** ** Rounding error of the mean *)

Section FloatSum.
Context {F : Numpy.Float64}.
Local Open Scope Q_scope.


Abbreviation u := Numpy.eps.



















(** The exact sums behind the eight accumulators. *)
Fixpoint lane_sums (ss c : list Q) : list Q :=
  match ss, c with
  | s :: ss', x :: c' => (s + x) :: lane_sums ss' c'
  | _, _ => ss
  end.

Lemma lane_sums_length ss c : List.length (lane_sums ss c) = List.length ss.
Proof.
  revert c. induction ss as [| s ss IH]; intros [| x c]; simpl; auto.
Qed.











(** With fuel for every group of eight, fewer than eight entries are left
    for the closing loop. *)
Lemma lanes_loop_rest_short fuel : forall r a,
  (List.length a < 8 * S fuel)%nat ->
  (List.length (snd (Numpy.lanes_loop fuel r a)) < 8)%nat.
Proof.
  induction fuel as [| fuel IH]; intros r a H; cbn [Numpy.lanes_loop].
  - simpl. lia.
  - destruct (8 <=? List.length a)%nat eqn:E.
    + apply Nat.leb_le in E. apply IH. rewrite length_skipn. lia.
    + apply Nat.leb_gt in E. simpl. lia.
Qed.




(** More fuel than the array is long changes nothing. *)
Lemma pairwise_sum_fuel f1 : forall f2 a,
  (List.length a <= f1)%nat -> (List.length a <= f2)%nat ->
  Numpy.pairwise_sum f1 a = Numpy.pairwise_sum f2 a.
Proof.
  induction f1 as [| f1 IH]; intros f2 a H1 H2.
  - destruct a; [| simpl in H1; lia]. destruct f2; reflexivity.
  - destruct f2 as [| f2].
    + destruct a; [reflexivity | simpl in H2; lia].
    + cbn [Numpy.pairwise_sum].
      destruct (List.length a <? 8)%nat; [reflexivity |].
      destruct (List.length a <=? 128)%nat eqn:E128; [reflexivity |].
      apply Nat.leb_gt in E128.
      set (n := List.length a) in *.
      set (n2 := (n / 2 - (n / 2) mod 8)%nat).
      assert (Hn2 : (1 <= n2 /\ n2 < n)%nat).
      { subst n2. pose proof (Nat.mod_upper_bound (n / 2) 8 ltac:(lia)).
        pose proof (Nat.div_mod_eq n 2).
        pose proof (Nat.mod_upper_bound n 2 ltac:(lia)). lia. }
      f_equal; apply IH; rewrite ?length_firstn, ?length_skipn; fold n; lia.
Qed.








End FloatSum.

(** ** The means of the stability cell *)

Section Means.
Import Pandas Sklearn Notebook.
Context {R : RandomState} {L : Learner} {F : Numpy.Float64}.






End Means.


(** ** Beyond the happy path *)

(** *** A load that fails *)

Section FailedLoad.
Import Pandas Sklearn Notebook.
Context {R : RandomState} {L : Learner} {F : Numpy.Float64}
        {Srt : Numpy.Argsort}.










End FailedLoad.




(** *** Too few rows *)

Section SmallData.
Import Pandas Sklearn Notebook.
Context {R : RandomState} {L : Learner} {F : Numpy.Float64}.

(** No test share leaves a training row when there is one row or none. *)
Lemma validate_shuffle_split_small n ts :
  n <= 1 -> validate_shuffle_split n ts = inl Py.ValueError.
Proof.
  intros Hn. unfold validate_shuffle_split.
  destruct (Qle_bool ts 0) eqn:E0; [reflexivity |].
  destruct (Qle_bool 1 ts) eqn:E1; [reflexivity |]. cbn [orb].
  assert (P0 : (0 < ts)%Q).
  { apply Qnot_le_lt. intros C. apply Qle_bool_iff in C. congruence. }
  fold (n_test_of ts n).
  destruct n as [| n]; [reflexivity |].
  pose proof (n_test_of_pos ts (S n) P0 ltac:(lia)) as Hpos.
  replace (S n - n_test_of ts (S n)) with 0 by lia. reflexivity.
Qed.

(** X2.  When cleaning leaves one row or none, the training cell fails in
    the splitter with a [ValueError] and binds nothing. *)
Theorem training_needs_two_rows (st : state) (X : DataFrame) (y : Series) :
  globals st "X" = Some (VFrame X) ->
  globals st "y" = Some (VSeries y) ->
  List.length (records X) <= 1 ->
  cell_train st = (st, inl Py.ValueError).
Proof.
  intros HX Hy Hn. unfold cell_train.
  apply bind_raises. apply (stmt_split_raises _ _ _ X y); auto.
  unfold train_test_split.
  destruct (negb _); [reflexivity |].
  now rewrite validate_shuffle_split_small.
Qed.

End SmallData.

(** A file in which one observation of two is complete. *)
Definition one_complete_row : Pandas.filesystem :=
  fun path =>
    if String.eqb path Notebook.csv_path
    then Some (Pandas.Table Demo.header
                 [Demo.line 0 1;
                  map (fun _ => Pandas.NaN) Demo.header] eq_refl)
    else Some Pandas.Unparsable.

Definition separated_one_row : @Notebook.state Demo.Rotating Demo.Stump :=
  Notebook.kernel
    (Notebook.run (F := Demo.Exact) (Srt := Demo.Insertion) one_complete_row
       [Notebook.Load; Notebook.Map; Notebook.Separate]
       (Notebook.empty Demo.g0)).

Lemma training_needs_two_rows_witness :
  Notebook.cell_train separated_one_row = (separated_one_row, inl Py.ValueError).
Proof.
  eapply (training_needs_two_rows separated_one_row).
  - vm_compute. reflexivity.
  - vm_compute. reflexivity.
  - vm_compute. lia.
Defined.

(** ** The metrics cell after the stability cell *)

Section MetricsAgain.
Import Pandas Sklearn Notebook.
Context {R : RandomState} {L : Learner} {F : Numpy.Float64}.







End MetricsAgain.


(** ** Reproducibility of the stability cell *)

Section Reproducible.
Import Pandas Sklearn Notebook.
Context {R : RandomState} {L : Learner} {F : Numpy.Float64}.








End Reproducible.


(** ** A training set with one class *)

Section OneClass.
Import Pandas Sklearn Notebook.
Context {R : RandomState} {L : Learner} {F : Numpy.Float64}.






End OneClass.






(** ** Scores when no drought is predicted *)

Section NoPositive.
Import Pandas Sklearn Notebook.

Lemma count_none {A} (p : A -> bool) (l : list A) :
  (forall x, In x l -> p x = false) -> count p l = 0.
Proof.
  intros H. unfold count. induction l as [| x l IH]; simpl; [reflexivity |].
  rewrite (H x (or_introl eq_refl)). apply IH. intros z Hz. apply H. now right.
Qed.

Lemma ratio_zero n : (ratio 0 n == 0)%Q.
Proof. unfold ratio. cbn [Z.of_nat]. unfold Qdiv. apply Qmult_0_l. Qed.

(** X6.  When no test row is predicted as a drought there is no true and no
    false positive: precision is a division by zero, which the library
    answers with 0 ([zero_division='warn']), and recall and F1 are 0 with
    it. *)
Theorem no_predicted_drought_scores_zero
    (y_test : Series) (y_pred : Numpy.ndarray) (m : MetricRecord) :
  evaluate y_test y_pred = inr m ->
  Forall (fun q => ~ (q == 1)%Q) y_pred ->
  precision m = 0%Q /\ (recall m == 0)%Q /\ (f1 m == 0)%Q.
Proof.
  intros Hm Hnone. apply evaluate_inv in Hm as (_ & Hp & Hr & Hf & _).
  apply binary_score_inv in Hp as (pairs & Hct & _ & Ep).
  apply binary_score_inv in Hr as (pairs1 & Hct1 & _ & Er).
  apply binary_score_inv in Hf as (pairs2 & Hct2 & _ & Ef).
  rewrite Hct in Hct1, Hct2. injection Hct1 as <-. injection Hct2 as <-.
  apply check_targets_inv in Hct as (labels & _ & _ & -> & _).
  set (pairs := combine labels y_pred) in *.
  assert (Hneg : forall p, In p pairs -> is_pos (snd p) = false).
  { intros [a b] Hin. apply in_combine_r in Hin. simpl.
    rewrite Forall_forall in Hnone. specialize (Hnone b Hin).
    unfold is_pos. destruct (Qeq_bool b 1) eqn:E; [| reflexivity].
    apply Qeq_bool_iff in E. contradiction. }
  assert (Htp : tp pairs = 0).
  { apply count_none. intros p Hin. rewrite (Hneg p Hin). apply andb_false_r. }
  assert (Hfp : fp pairs = 0).
  { apply count_none. intros p Hin. rewrite (Hneg p Hin). apply andb_false_r. }
  assert (Pz : precision_of pairs = 0%Q).
  { unfold precision_of. rewrite Htp, Hfp. reflexivity. }
  assert (Rz : (recall_of pairs == 0)%Q).
  { unfold recall_of, prf_divide. rewrite Htp.
    destruct (0 + fn pairs =? 0); [reflexivity | apply ratio_zero]. }
  rewrite Ep, Er, Ef. split; [exact Pz |]. split; [exact Rz |].
  unfold f1_of. cbv zeta. rewrite Pz.
  destruct (Qeq_bool (0 + recall_of pairs) 0); [reflexivity |].
  unfold Qdiv. rewrite Qmult_0_r, !Qmult_0_l. reflexivity.
Qed.

End NoPositive.

(** A drought and a non-drought, both predicted as non-droughts. *)
Definition none_predicted : MetricRecord :=
  Eval vm_compute in
    match evaluate [(0, Pandas.Num 1); (1, Pandas.Num 0)] [0; 0]%Q with
    | inr m => m
    | inl _ => mkRecord 1 1 1 1 1
    end.

Lemma no_predicted_drought_scores_zero_witness :
  accuracy none_predicted = (1 # 2)%Q /\
  precision none_predicted = 0%Q /\
  (recall none_predicted == 0)%Q /\ (f1 none_predicted == 0)%Q.
Proof.
  split; [reflexivity |].
  apply (no_predicted_drought_scores_zero
           [(0, Pandas.Num 1); (1, Pandas.Num 0)] [0; 0]%Q).
  - vm_compute. reflexivity.
  - repeat constructor; discriminate.
Defined.

(** ** A file without one of the predictors *)

Section MissingColumn.
Import Pandas Sklearn Notebook.
Context {R : RandomState} {L : Learner} {F : Numpy.Float64}.

(** A filter that keeps the length keeps every entry. *)
Lemma filter_keeps_all {A} (p : A -> bool) (l : list A) :
  List.length (filter p l) = List.length l -> forall x, In x l -> p x = true.
Proof.
  induction l as [| a l IH]; simpl; intros Hlen x Hin; [contradiction |].
  pose proof (filter_length_le p l) as Hle.
  destruct (p a) eqn:Ea; simpl in Hlen; [| lia].
  destruct Hin as [<- | Hin]; [exact Ea |].
  apply IH; [lia | exact Hin].
Qed.

Lemma unique_names_in (names : list string) (k : string) :
  In k (unique_names names) <-> In k names.
Proof.
  induction names as [| n rest IH]; simpl; [tauto |].
  rewrite filter_In, IH, negb_true_iff.
  destruct (String.eqb_spec k n) as [-> | Hne]; [tauto |].
  split; [tauto |]. intros [Hk | Hk]; [congruence | auto].
Qed.

(** The [KeyError] of a selection lists the names that are missing, and no
    other. *)
Lemma listed_not_found (cols names : list string) (k : string) :
  In k (listed names (not_found cols names))
  <-> In k names /\ get_loc k cols = None.
Proof.
  unfold listed, not_found.
  set (absent := fun n => match get_loc n cols with
                          | Some _ => false
                          | None => true
                          end).
  assert (Habs : forall n, absent n = true <-> get_loc n cols = None).
  { intros n. unfold absent. destruct (get_loc n cols); split; congruence. }
  destruct (Nat.eqb_spec (List.length (filter absent names)) (List.length names))
    as [Hall | Hsome].
  - split; [| tauto]. intros Hk. split; [exact Hk |].
    apply Habs. now apply (filter_keeps_all absent names Hall).
  - rewrite unique_names_in, filter_In, Habs. tauto.
Qed.

(** X7.  When the file lacks columns that [predictors] names, the separation
    cell fails at [data[predictors]] with one [KeyError] that lists the
    predictors the file lacks, all of them and no other name, and binds
    neither [X] nor [y]. *)
Theorem missing_predictors_raise_one_key_error
    (st : state) (data : DataFrame) (names : list string) :
  globals st "data" = Some (VFrame data) ->
  globals st "predictors" = Some (VNames names) ->
  not_found (columns data) names <> [] ->
  let missing := listed names (not_found (columns data) names) in
  cell_separate st = (st, inl (Py.KeyError missing)) /\
  forall k, In k missing <-> In k names /\ get_loc k (columns data) = None.
Proof.
  intros Hd Hp Hnf missing. split; [| apply listed_not_found].
  unfold cell_separate.
  rewrite (bind_returns _ _ st st data
             (get_returns "data" as_frame st _ data Hd eq_refl)).
  rewrite (bind_returns _ _ st st names).
  2:{ apply (get_returns _ _ st (VNames names)); [exact Hp | reflexivity]. }
  apply bind_raises. unfold lift, getitem_list.
  destruct (not_found (columns data) names); [contradiction | reflexivity].
Qed.

End MissingColumn.

(** A file with the coordinates, the month and the precipitation only. *)
Definition four_columns : Pandas.filesystem :=
  fun path =>
    if String.eqb path Notebook.csv_path
    then Some (Pandas.Table ["lon"; "lat"; "month"; "P"]%string
                 [[Pandas.Num 1; Pandas.Num 2; Pandas.Num 3; Pandas.Num 4]]
                 eq_refl)
    else None.

Definition loaded_four_columns : @Notebook.state Demo.Rotating Demo.Stump :=
  Eval vm_compute in fst (Notebook.cell_load four_columns (Notebook.empty Demo.g0)).

(** Seven of the nine predictors are not in that file. *)
Lemma missing_predictors_raise_one_key_error_witness :
  Notebook.cell_separate loaded_four_columns
  = (loaded_four_columns,
     inl (Py.KeyError
            ["PET"; "ET"; "SM"; "SM_prev"; "DS"; "NDVI"; "enso"]%string)) /\
  forall k,
    In k ["PET"; "ET"; "SM"; "SM_prev"; "DS"; "NDVI"; "enso"]%string
    <-> In k Notebook.predictor_names /\
        Pandas.get_loc k ["lon"; "lat"; "month"; "P"]%string = None.
Proof.
  apply (missing_predictors_raise_one_key_error loaded_four_columns
           (Pandas.mkFrame ["lon"; "lat"; "month"; "P"]%string
              [(0, [Pandas.Num 1; Pandas.Num 2; Pandas.Num 3; Pandas.Num 4])])
           Notebook.predictor_names).
  - vm_compute. reflexivity.
  - vm_compute. reflexivity.
  - vm_compute. discriminate.
Defined.

(** ** Rows and labels stay paired *)

Section Pairing.
Import Pandas Sklearn Notebook.
Context {R : RandomState}.

(** Row [k] of [rows] and entry [k] of [labels] are the row and the label of
    one observation of the dataset, for every [k]. *)
Definition paired (X : DataFrame) (y : Series)
    (rows : list row) (labels : Series) : Prop :=
  Forall2 (fun r e => exists i, nth_error (records X) i = Some r /\
                                nth_error y i = Some e) rows labels.

Lemma paired_at X y (idx : list nat) :
  List.length y = List.length (records X) ->
  Forall (fun i => i < List.length (records X)) idx ->
  paired X y (map (row_at X) idx) (map (entry_at y) idx).
Proof.
  intros Hlen. induction 1 as [| i idx Hi _ IH]; simpl; constructor; [| exact IH].
  exists i. unfold row_at, entry_at. split; apply nth_error_nth'; lia.
Qed.

(** X8.  Whatever the seed and the test share, [train_test_split] cuts [X]
    and [y] at the same positions: the k-th training row and the k-th
    training label belong to the same observation, and so do the k-th test
    row and the k-th test label; where [X] and [y] carry the same index
    labels, so do the parts. *)
Theorem split_keeps_rows_and_labels_paired
    (g : rng) (X : DataFrame) (y : Series) (test_size : Q)
    (random_state : option Z) (sp : split) (g' : rng) :
  index X = s_index y ->
  train_test_split g X y test_size random_state = inr (sp, g') ->
  paired X y (records (X_train sp)) (y_train sp) /\
  paired X y (records (X_test sp)) (y_test sp) /\
  index (X_train sp) = s_index (y_train sp) /\
  index (X_test sp) = s_index (y_test sp).
Proof.
  intros Hix H. apply train_test_split_inv in H. cbv zeta in H.
  set (n := List.length (records X)) in *.
  set (k := n_test_of test_size n) in *.
  destruct (check_random_state g random_state) as [g1 after]. simpl in H.
  pose proof (permutation_spec g1 n) as Hperm.
  destruct (permutation g1 n) as [perm g2]. simpl in H, Hperm.
  destruct H as (Hlen & _ & _ & _ & -> & -> & -> & -> & _). simpl.
  assert (Hrange : Forall (fun i => i < n) perm).
  { apply Forall_forall. intros i Hi.
    apply (Permutation_in _ Hperm), in_seq in Hi. lia. }
  assert (Hf : Forall (fun i => i < n) (firstn k perm)).
  { apply Forall_forall. intros i Hi. rewrite Forall_forall in Hrange.
    apply Hrange. eapply in_firstn_in; eauto. }
  assert (Hs : Forall (fun i => i < n) (skipn k perm)).
  { apply Forall_forall. intros i Hi. rewrite Forall_forall in Hrange.
    apply Hrange. eapply in_skipn_in; eauto. }
  split; [now apply paired_at |]. split; [now apply paired_at |].
  assert (Hat : forall idx, Forall (fun i => i < n) idx ->
            map fst (map (row_at X) idx) = map fst (map (entry_at y) idx)).
  { intros idx Hidx. rewrite !map_map.
    apply map_ext_in. intros i Hi. rewrite Forall_forall in Hidx.
    specialize (Hidx i Hi). unfold row_at, entry_at.
    unfold index, s_index in Hix.
    rewrite <- (map_nth fst (records X)), <- (map_nth fst y), Hix.
    reflexivity. }
  unfold index, s_index. simpl. split; now apply Hat.
Qed.

End Pairing.

(** The split of cell 14 on the demo data. *)
Lemma split_keeps_rows_and_labels_paired_witness :
  paired Demo.X Demo.y (Pandas.records (Sklearn.X_train Demo.sp42))
    (Sklearn.y_train Demo.sp42) /\
  paired Demo.X Demo.y (Pandas.records (Sklearn.X_test Demo.sp42))
    (Sklearn.y_test Demo.sp42) /\
  Pandas.index (Sklearn.X_train Demo.sp42)
  = Pandas.s_index (Sklearn.y_train Demo.sp42) /\
  Pandas.index (Sklearn.X_test Demo.sp42)
  = Pandas.s_index (Sklearn.y_test Demo.sp42).
Proof.
  apply (split_keeps_rows_and_labels_paired Demo.g0 Demo.X Demo.y (3 # 10)
           (Some 42%Z) Demo.sp42 Demo.g0).
  - vm_compute. reflexivity.
  - vm_compute. reflexivity.
Defined.

(** ** Predicted classes and predicted probabilities *)

Section Votes.
Import Pandas Sklearn Notebook.
Context {L : Learner}.

(** The class a two-class forest predicts for a row of probabilities: the
    second class when its probability is strictly the greater, the first
    otherwise. *)
Definition voted (c0 c1 : Q) (r : list Q) (label : Q) : Prop :=
  exists p0 p1, r = [p0; p1] /\ label = if Numpy.ltb p0 p1 then c1 else c0.

Definition favours_second (r : list Q) : bool :=
  Numpy.ltb (nth 0 r 0%Q) (nth 1 r 0%Q).

Lemma take_two_classes (c0 c1 : Q) (xs : list (list Q)) (f : list Q -> nat -> Q)
    (y_pred : list Q) :
  Numpy.take [c0; c1] (map Numpy.argmax (map (fun x => map (f x) [0; 1]) xs))
  = inr y_pred ->
  Forall2 (voted c0 c1) (map (fun x => map (f x) [0; 1]) xs) y_pred.
Proof.
  intros H. apply take_inv in H. revert y_pred H.
  induction xs as [| x xs IH]; intros y_pred H; cbn [map] in *;
    inversion H as [| i label idx rest Hi Hrest]; subst; constructor.
  - exists (f x 0), (f x 1). split; [reflexivity |].
    cbn [Numpy.argmax Numpy.argmax_from] in Hi.
    destruct (Numpy.ltb (f x 0) (f x 1)); cbn in Hi; congruence.
  - now apply IH.
Qed.

Lemma count_voted (c0 c1 : Q) (proba : list (list Q)) (y_pred : list Q) :
  ~ (c0 == c1)%Q ->
  Forall2 (voted c0 c1) proba y_pred ->
  Numpy.count_eq y_pred c1 = List.length (filter favours_second proba).
Proof.
  intros Hne. unfold Numpy.count_eq.
  induction 1 as [| r label proba y_pred (p0 & p1 & -> & ->) _ IH];
    [reflexivity |].
  cbn [filter]. unfold favours_second at 1. cbn [nth].
  destruct (Numpy.ltb p0 p1).
  - rewrite (proj2 (Qeq_bool_iff c1 c1) (Qeq_refl c1)). cbn [List.length].
    now rewrite IH.
  - destruct (Qeq_bool c0 c1) eqn:E; [| exact IH].
    apply Qeq_bool_iff in E. contradiction.
Qed.

(** X9.  For a forest fitted on two classes, [predict] and [predict_proba]
    agree row by row: a row is given the second class (drought) exactly when
    its probability of that class is strictly greater than that of the first,
    a tie going to the first class (no drought); so the number of predicted
    droughts is the number of rows whose drought probability is the
    greater. *)
Theorem predictions_follow_the_larger_probability
    (clf : RandomForestClassifier) (X : DataFrame) (f : fitted)
    (c0 c1 : Q) (y_pred : Numpy.ndarray) :
  fitted_ clf = Some f ->
  classes_ f = [c0; c1] ->
  ~ (c0 == c1)%Q ->
  predict clf X = inr y_pred ->
  exists proba,
    predict_proba clf X = inr proba /\
    Forall2 (voted c0 c1) proba y_pred /\
    Numpy.count_eq y_pred c1 = List.length (filter favours_second proba).
Proof.
  intros Hf Hc Hne Hp.
  unfold predict, check_is_fitted in Hp. rewrite Hf in Hp. cbn in Hp.
  destruct (predict_proba clf X) as [e | proba] eqn:Hproba; [discriminate |].
  cbn in Hp. exists proba. split; [reflexivity |].
  assert (Hv : Forall2 (voted c0 c1) proba y_pred).
  { unfold predict_proba, predict_proba_rows, check_is_fitted in Hproba.
    rewrite Hf in Hproba.
    destruct (check_array (values X)) as [e | rows]; [discriminate |].
    cbn in Hproba.
    destruct (Py.map_m (check_n_features f) rows) as [e | xs]; [discriminate |].
    cbn in Hproba. injection Hproba as <-.
    rewrite Hc in *. cbn [List.length seq] in *.
    now apply take_two_classes. }
  split; [exact Hv | now apply (count_voted c0 c1)].
Qed.

End Votes.

(** The forest of cell 14 on the demo data, and its two test rows. *)
Lemma predictions_follow_the_larger_probability_witness :
  exists proba,
    Sklearn.predict_proba Demo.clf42 (Sklearn.X_test Demo.sp42) = inr proba /\
    Forall2 (voted 0 1) proba demo_predictions /\
    Numpy.count_eq demo_predictions 1
    = List.length (filter favours_second proba).
Proof.
  apply (predictions_follow_the_larger_probability (L := Demo.Stump)
           Demo.clf42 (Sklearn.X_test Demo.sp42)
           (@Sklearn.mkFitted Demo.Stump [0; 1]%Q 9 (500, 42%Z, 3))).
  - vm_compute. reflexivity.
  - reflexivity.
  - discriminate.
  - vm_compute. reflexivity.
Defined.

(** ** How the scores relate *)

Section ScoreRelations.
Import Pandas Sklearn Notebook.

(** True negatives: no drought, none predicted. *)
Definition tn (pairs : list (Q * Q)) : nat :=
  count (fun p => negb (is_pos (fst p)) && negb (is_pos (snd p))) pairs.

Lemma ratio_nonneg a b : (0 <= ratio a b)%Q.
Proof.
  unfold ratio. destruct b as [| b].
  - cbn [Z.of_nat]. unfold Qdiv. change (/ inject_Z 0)%Q with 0%Q.
    rewrite Qmult_0_r. apply Qle_refl.
  - apply Qle_shift_div_l; [apply inject_nat_pos; lia |].
    rewrite Qmult_0_l. apply inject_nat_nonneg.
Qed.


Lemma ratio_same n : 0 < n -> (ratio n n == 1)%Q.
Proof.
  intros H. unfold ratio. pose proof (inject_nat_pos n H) as Hp.
  field. intros C. rewrite C in Hp. discriminate.
Qed.








End ScoreRelations.

(** Five test rows: two droughts found, one missed, one false alarm. *)
Definition mixed_test : Pandas.Series :=
  [(0, Pandas.Num 1); (1, Pandas.Num 1); (2, Pandas.Num 1); (3, Pandas.Num 0);
   (4, Pandas.Num 0)].
Definition mixed_pred : Numpy.ndarray := [1; 1; 0; 1; 0]%Q.

Definition mixed_record : MetricRecord :=
  Eval vm_compute in
    match evaluate mixed_test mixed_pred with
    | inr m => m
    | inl _ => mkRecord 0 0 0 0 0
    end.


(** ** Accuracy and balanced accuracy on 0/1 labels *)

Section BinaryScores.
Import Pandas Sklearn Notebook.

Lemma count_ext {A} (p q : A -> bool) (l : list A) :
  (forall x, In x l -> p x = q x) -> count p l = count q l.
Proof.
  intros H. unfold count. induction l as [| x l IH]; simpl; [reflexivity |].
  rewrite (H x (or_introl eq_refl)).
  destruct (q x); simpl; rewrite IH; auto; intros z Hz; apply H; now right.
Qed.

Lemma count_either {A} (p q : A -> bool) (l : list A) :
  (forall x, In x l -> p x && q x = false) ->
  count (fun x => p x || q x) l = count p l + count q l.
Proof.
  intros H. unfold count. induction l as [| x l IH]; simpl; [reflexivity |].
  pose proof (H x (or_introl eq_refl)) as Hx.
  assert (IH' : List.length (filter (fun x => p x || q x) l)
                = List.length (filter p l) + List.length (filter q l))
    by (apply IH; intros z Hz; apply H; now right).
  destruct (p x), (q x); simpl in *; try discriminate; lia.
Qed.

Lemma binary_cases (q : Q) :
  is_binary q ->
  ((q == 1)%Q /\ is_pos q = true) \/ ((q == 0)%Q /\ is_pos q = false).
Proof.
  intros [E | E]; [right | left]; (split; [exact E |]); unfold is_pos.
  - destruct (Qeq_bool q 1) eqn:E1; [| reflexivity].
    apply Qeq_bool_iff in E1. rewrite E in E1. discriminate.
  - now apply Qeq_bool_iff.
Qed.

(** Two labels that are 0 or 1 are equal when both are 1 or neither is. *)
Lemma hit_binary (f s : Q) :
  is_binary f -> is_binary s ->
  Qeq_bool f s
  = (is_pos f && is_pos s) || (negb (is_pos f) && negb (is_pos s)).
Proof.
  intros Hf Hs.
  destruct (binary_cases f Hf) as [[Ef ->] | [Ef ->]],
           (binary_cases s Hs) as [[Es ->] | [Es ->]]; cbn.
  - apply Qeq_bool_iff. rewrite Ef, Es. reflexivity.
  - destruct (Qeq_bool f s) eqn:E; [| reflexivity].
    apply Qeq_bool_iff in E. rewrite Ef, Es in E. discriminate.
  - destruct (Qeq_bool f s) eqn:E; [| reflexivity].
    apply Qeq_bool_iff in E. rewrite Ef, Es in E. discriminate.
  - apply Qeq_bool_iff. rewrite Ef, Es. reflexivity.
Qed.

Lemma insert_unique_keeps x s z :
  In z s -> In z (Numpy.insert_unique x s).
Proof.
  induction s as [| y s IH]; simpl; [contradiction |].
  destruct (Qeq_bool x y); [auto |].
  destruct (Numpy.ltb x y); simpl; [auto |].
  intros [-> | H]; auto.
Qed.

Lemma insert_unique_has x s :
  exists z, In z (Numpy.insert_unique x s) /\ (z == x)%Q.
Proof.
  induction s as [| y s (z & Hz & Ez)]; simpl.
  - exists x. split; [now left | reflexivity].
  - destruct (Qeq_bool x y) eqn:E.
    + apply Qeq_bool_iff in E. exists y. split; [now left | now symmetry].
    + destruct (Numpy.ltb x y).
      * exists x. split; [now left | reflexivity].
      * exists z. split; [now right | exact Ez].
Qed.

(** Every value of the array has its class among the distinct values. *)
Lemma unique_has a x :
  In x a -> exists z, In z (Numpy.unique a) /\ (z == x)%Q.
Proof.
  unfold Numpy.unique.
  assert (Hkeep : forall l s z, In z s ->
            In z (fold_left (fun s x => Numpy.insert_unique x s) l s)).
  { induction l as [| y l IH]; simpl; intros s z Hz; [exact Hz |].
    apply IH, insert_unique_keeps, Hz. }
  assert (H : forall l s, In x l ->
            exists z, In z (fold_left (fun s x => Numpy.insert_unique x s) l s)
                      /\ (z == x)%Q).
  { induction l as [| y l IH]; simpl; intros s Hin; [contradiction |].
    destruct Hin as [-> | Hin]; [| now apply IH].
    destruct (insert_unique_has x s) as (z & Hz & Ez).
    exists z. split; [now apply Hkeep | exact Ez]. }
  apply H.
Qed.

(** The classes of 0/1 labels among which both occur. *)
Lemma unique_both a :
  binary a ->
  (exists x, In x a /\ (x == 0)%Q) -> (exists x, In x a /\ (x == 1)%Q) ->
  exists z o, Numpy.unique a = [z; o] /\ (z == 0)%Q /\ (o == 1)%Q.
Proof.
  intros Hb (x0 & H0 & E0) (x1 & H1 & E1).
  destruct (unique_has a x0 H0) as (z & Hz & Ez).
  destruct (unique_has a x1 H1) as (o & Ho & Eo).
  rewrite E0 in Ez. rewrite E1 in Eo.
  pose proof (unique_sorted a) as Hs.
  pose proof (unique_binary a Hb) as Hu.
  destruct (sorted_binary_shape _ Hs Hu) as [Hlen _].
  destruct (Numpy.unique a) as [| u [| v [| w rest]]].
  - contradiction.
  - destruct Hz as [<- | []]. destruct Ho as [<- | []].
    rewrite Ez in Eo. discriminate.
  - inversion Hs as [| ? ? _ Huv]; subst. inversion Huv as [| ? ? Hlt _]; subst.
    exists u, v. split; [reflexivity |].
    destruct Hz as [<- | [<- | []]]; destruct Ho as [<- | [<- | []]].
    + rewrite Ez in Eo. discriminate.
    + auto.
    + exfalso. rewrite Ez, Eo in Hlt. discriminate.
    + rewrite Ez in Eo. discriminate.
  - simpl in Hlen. lia.
Qed.

Context (pairs : list (Q * Q)).
Hypothesis true_binary : binary (map fst pairs).
Hypothesis pred_binary : binary (map snd pairs).

Lemma pair_binary p : In p pairs -> is_binary (fst p) /\ is_binary (snd p).
Proof.
  intros H. unfold binary in *. rewrite Forall_forall in true_binary, pred_binary.
  split; [apply true_binary | apply pred_binary]; now apply in_map.
Qed.

(** A prediction is right when it is a true positive or a true negative. *)
Lemma hits_are_tp_and_tn : count hit pairs = tp pairs + tn pairs.
Proof.
  unfold tp, tn. rewrite <- count_either.
  - apply count_ext. intros p Hp. destruct (pair_binary p Hp) as [H1 H2].
    unfold hit. now apply hit_binary.
  - intros p _. destruct (is_pos (fst p)), (is_pos (snd p)); reflexivity.
Qed.

End BinaryScores.

Section AccuracyCounts.
Import Pandas Sklearn Notebook.

(** Every pair of labels falls in one of the four cells of the confusion
    matrix. *)
Lemma confusion_cells (pairs : list (Q * Q)) :
  List.length pairs = tp pairs + tn pairs + fp pairs + fn pairs.
Proof.
  unfold tp, tn, fp, fn, count.
  induction pairs as [| p pairs IH]; simpl; [reflexivity |].
  destruct (is_pos (fst p)), (is_pos (snd p)); simpl; lia.
Qed.

(** Accuracy of 0/1 labels, in the counts of the confusion matrix. *)
Definition accuracy_as_counts (pairs : list (Q * Q)) (m : MetricRecord) : Prop :=
  List.length pairs = tp pairs + tn pairs + fp pairs + fn pairs /\
  (accuracy m
   == ratio (tp pairs + tn pairs) (tp pairs + tn pairs + fp pairs + fn pairs))%Q.

(** X11.  On labels that are 0 or 1 the test rows are the true and false
    positives and negatives together, and accuracy, the share of rows
    predicted as they are labelled, is (tp + tn) / (tp + tn + fp + fn). *)
Theorem accuracy_is_true_predictions_over_all
    (y_test : Series) (y_pred : Numpy.ndarray)
    (pairs : list (Q * Q)) (m : MetricRecord) :
  evaluate y_test y_pred = inr m ->
  check_targets y_test y_pred = inr pairs ->
  binary (map fst pairs) -> binary (map snd pairs) ->
  accuracy_as_counts pairs m.
Proof.
  intros Hm Hct Hb1 Hb2.
  apply evaluate_inv in Hm as (Ha & _).
  unfold accuracy_score in Ha. rewrite Hct in Ha. cbn in Ha. injection Ha as Ea.
  unfold accuracy_as_counts. split; [apply confusion_cells |].
  rewrite <- Ea, (hits_are_tp_and_tn pairs Hb1 Hb2), <- confusion_cells.
  reflexivity.
Qed.

End AccuracyCounts.

Lemma accuracy_is_true_predictions_over_all_witness :
  accuracy_as_counts (combine [1; 1; 1; 0; 0]%Q mixed_pred) mixed_record.
Proof.
  apply (accuracy_is_true_predictions_over_all mixed_test mixed_pred).
  - vm_compute. reflexivity.
  - vm_compute. reflexivity.
  - repeat constructor; first [left; reflexivity | right; reflexivity].
  - repeat constructor; first [left; reflexivity | right; reflexivity].
Defined.

(** ** Predictions that are all right *)

Section Perfect.
Import Pandas Sklearn Notebook.

Lemma combine_same {A} (l : list A) : combine l l = map (fun x => (x, x)) l.
Proof. induction l as [| x l IH]; simpl; [reflexivity | now rewrite IH]. Qed.

Lemma count_map {A B} (f : A -> B) (p : B -> bool) (l : list A) :
  count p (map f l) = count (fun x => p (f x)) l.
Proof.
  unfold count. induction l as [| x l IH]; simpl; [reflexivity |].
  destruct (p (f x)); simpl; now rewrite IH.
Qed.

Lemma count_all {A} (p : A -> bool) (l : list A) :
  (forall x, In x l -> p x = true) -> count p l = List.length l.
Proof.
  intros H. unfold count. induction l as [| x l IH]; simpl; [reflexivity |].
  rewrite (H x (or_introl eq_refl)). simpl. rewrite IH; auto.
  intros z Hz. apply H. now right.
Qed.

Lemma qsum_all_ones (l : list Q) :
  Forall (fun x => (x == 1)%Q) l -> (qsum l == inject_Z (Z.of_nat (List.length l)))%Q.
Proof.
  induction 1 as [| x l Hx _ IH]; [reflexivity |].
  cbn [qsum fold_right List.length]. fold (qsum l).
  rewrite Nat2Z.inj_succ, <- Z.add_1_l, inject_Z_plus, Hx, IH. reflexivity.
Qed.

Lemma harmonic_of_ones (p r : Q) :
  (p == 1)%Q -> (r == 1)%Q ->
  ((if Qeq_bool (p + r) 0 then 0 else 2 * p * r / (p + r)) == 1)%Q.
Proof.
  intros Hp Hr. destruct (Qeq_bool (p + r) 0) eqn:E.
  - apply Qeq_bool_iff in E. rewrite Hp, Hr in E. discriminate.
  - rewrite Hp, Hr. reflexivity.
Qed.

(** All five scores are 1. *)
Definition all_ones (m : MetricRecord) : Prop :=
  (accuracy m == 1)%Q /\ (precision m == 1)%Q /\ (recall m == 1)%Q /\
  (f1 m == 1)%Q /\ (balanced_accuracy m == 1)%Q.

(** X12.  Predictions equal to the true labels, among which there is a
    drought, get the score 1 from each of the five metrics.  (Without a
    drought among them precision, recall and F1 are 0: a division by
    zero.) *)
Theorem perfect_predictions_score_one
    (y_test : Series) (labels : Numpy.ndarray) (m : MetricRecord) :
  column_or_1d y_test = inr labels ->
  evaluate y_test labels = inr m ->
  (exists q, In q labels /\ (q == 1)%Q) ->
  all_ones m.
Proof.
  intros Hcol Hm (q1 & Hq1 & E1).
  apply evaluate_inv in Hm as (Ha & Hp & Hr & Hf & Hb).
  apply binary_score_inv in Hp as (pairs0 & Hct0 & _ & Ep).
  apply binary_score_inv in Hr as (pairs1 & Hct1 & _ & Er).
  apply binary_score_inv in Hf as (pairs2 & Hct2 & _ & Ef).
  assert (Hct : check_targets y_test labels = inr (combine labels labels)).
  { destruct (check_targets_inv _ _ _ Hct0) as (l' & Hl' & _ & -> & _).
    rewrite Hcol in Hl'. injection Hl' as <-. exact Hct0. }
  rewrite Hct in Hct0, Hct1, Hct2.
  injection Hct0 as <-. injection Hct1 as <-. injection Hct2 as <-.
  unfold accuracy_score in Ha. rewrite Hct in Ha. cbn in Ha. injection Ha as Ea.
  unfold balanced_accuracy_score in Hb. rewrite Hct in Hb. cbn in Hb.
  injection Hb as Eb.
  set (pairs := combine labels labels) in *.
  assert (Hpairs : pairs = map (fun x => (x, x)) labels) by apply combine_same.
  assert (Hn : 0 < List.length labels).
  { destruct labels; [contradiction | simpl; lia]. }
  assert (Hlen : List.length pairs = List.length labels)
    by (rewrite Hpairs; apply length_map).
  assert (Htp : 0 < tp pairs).
  { unfold tp. rewrite Hpairs, count_map. cbn [fst snd].
    apply (count_pos _ _ q1 Hq1).
    assert (E : is_pos q1 = true) by now apply Qeq_bool_iff.
    now rewrite E. }
  assert (Hfp : fp pairs = 0).
  { unfold fp. rewrite Hpairs, count_map. apply count_none. intros x _.
    cbn [fst snd]. destruct (is_pos x); reflexivity. }
  assert (Hfn : fn pairs = 0).
  { unfold fn. rewrite Hpairs, count_map. apply count_none. intros x _.
    cbn [fst snd]. destruct (is_pos x); reflexivity. }
  assert (P1 : (precision_of pairs == 1)%Q).
  { unfold precision_of, prf_divide. rewrite Hfp, Nat.add_0_r.
    destruct (tp pairs =? 0) eqn:E; [apply Nat.eqb_eq in E; lia |].
    now apply ratio_same. }
  assert (R1 : (recall_of pairs == 1)%Q).
  { unfold recall_of, prf_divide. rewrite Hfn, Nat.add_0_r.
    destruct (tp pairs =? 0) eqn:E; [apply Nat.eqb_eq in E; lia |].
    now apply ratio_same. }
  unfold all_ones. rewrite <- Ea, Ep, Er, Ef, <- Eb. clear Ea Ep Er Ef Eb.
  split; [| split; [exact P1 | split; [exact R1 | split]]].
  - rewrite Hlen. assert (E : count hit pairs = List.length labels).
    { rewrite <- Hlen. apply count_all. intros p Hp. rewrite Hpairs in Hp.
      apply in_map_iff in Hp as (x & <- & _). apply Qeq_bool_iff. reflexivity. }
    rewrite E. now apply ratio_same.
  - unfold f1_of. cbv zeta. now apply harmonic_of_ones.
  - set (classes := Numpy.unique (map fst pairs)).
    assert (Hk : 0 < List.length classes).
    { assert (Hu : classes <> []).
      { apply unique_nonempty. rewrite Hpairs.
        destruct labels; [contradiction | discriminate]. }
      destruct classes; [congruence | simpl; lia]. }
    assert (Hall : Forall (fun x => (x == 1)%Q) (map (class_recall pairs) classes)).
    { apply Forall_forall. intros r Hr. apply in_map_iff in Hr as (c & <- & Hc).
      apply unique_in in Hc. unfold class_recall.
      assert (E : class_hits c pairs = support c pairs).
      { unfold class_hits, support. apply count_ext. intros p Hp.
        rewrite Hpairs in Hp. apply in_map_iff in Hp as (x & <- & _).
        cbn [fst snd]. apply andb_diag. }
      rewrite E. apply ratio_same.
      apply in_map_iff in Hc as (p & <- & Hp).
      apply (count_pos _ _ p Hp). apply Qeq_bool_iff. reflexivity. }
    rewrite (qsum_all_ones _ Hall), length_map.
    pose proof (inject_nat_pos _ Hk) as Hkq.
    field. intros C. rewrite C in Hkq. discriminate.
Qed.

End Perfect.

(** The five test rows again, every one predicted right. *)
Definition perfect_record : MetricRecord :=
  Eval vm_compute in
    match evaluate mixed_test [1; 1; 1; 0; 0]%Q with
    | inr m => m
    | inl _ => mkRecord 0 0 0 0 0
    end.

Lemma perfect_predictions_score_one_witness : all_ones perfect_record.
Proof.
  apply (perfect_predictions_score_one mixed_test [1; 1; 1; 0; 0]%Q).
  - vm_compute. reflexivity.
  - vm_compute. reflexivity.
  - exists 1%Q. split; [now left | reflexivity].
Defined.

(** ** The table of the scores (cell 31, after the means) *)

Module Table.
Import Pandas.


End Table.

Section PerformanceFrame.
Import Pandas Sklearn Notebook.
Context {R : RandomState} {L : Learner} {F : Numpy.Float64}.









End PerformanceFrame.


(** ** The balance of the classes (cell 11) *)

Module Balance.
Import Pandas.

(** One more occurrence of [v]: its count goes up, or it is entered last
    with count 1. *)
Fixpoint bump (v : Q) (counts : list (Q * nat)) : list (Q * nat) :=
  match counts with
  | [] => [(v, 1)]
  | (k, c) :: rest =>
      if Qeq_bool v k then (k, S c) :: rest else (k, c) :: bump v rest
  end.

(** The distinct values in order of first appearance, each with the number
    of its occurrences; missing values are left out. *)
Definition tally (vals : list cell) : list (Q * nat) :=
  fold_left (fun acc c => match c with
                          | NaN => acc
                          | Num v => bump v acc
                          end) vals [].

(** Sorting by count, largest first; equal counts keep their order. *)
Fixpoint insert_by_count (e : Q * nat) (sorted : list (Q * nat)) : list (Q * nat) :=
  match sorted with
  | [] => [e]
  | x :: rest =>
      if snd x <=? snd e then e :: sorted else x :: insert_by_count e rest
  end.

Definition sort_by_count (l : list (Q * nat)) : list (Q * nat) :=
  fold_right insert_by_count [] l.

(** [y.value_counts()]. *)
Definition value_counts (y : Series) : list (Q * nat) :=
  sort_by_count (tally (s_values y)).

Section Proportions.
Context {F : Numpy.Float64}.

(** [class_counts / len(y)]. *)
Definition class_proportions (y : Series) : list (Q * Q) :=
  map (fun e => (fst e, Numpy.fdiv (inject_Z (Z.of_nat (snd e)))
                          (inject_Z (Z.of_nat (List.length y)))))
    (value_counts y).

(** [balanced_threshold = 0.1]. *)
Definition balanced_threshold : Q := Numpy.fl (1 # 10).

(** [np.abs(p - 0.5) <= balanced_threshold]. *)
Definition near_half (p : Q) : bool :=
  Qle_bool (Qabs (Numpy.fl (p - Numpy.fl (1 # 2)))) balanced_threshold.

(** [is_balanced = np.all(np.abs(class_proportions - 0.5) <= balanced_threshold)]. *)
Definition is_balanced (y : Series) : bool :=
  forallb (fun e => near_half (snd e)) (class_proportions y).

End Proportions.
End Balance.

Section ClassCounts.
Import Pandas Balance.

(** How often the value [v] occurs among the cells. *)
Definition occurrences (v : Q) (vals : list cell) : nat :=
  List.length (filter (fun c => match c with
                                | NaN => false
                                | Num x => Qeq_bool x v
                                end) vals).

Definition present (vals : list cell) : nat := List.length (filter notna vals).

Definition total (counts : list (Q * nat)) : nat :=
  fold_right (fun e s => snd e + s) 0 counts.

(** No two entries are for the same value. *)
Definition distinct_keys (counts : list (Q * nat)) : Prop :=
  ForallOrdPairs (fun a b => ~ (fst a == fst b)%Q) counts.

(** What a table of counts says of the cells it was made from: every entry
    counts the occurrences of its value, at least one; every value that
    occurs has an entry; no value has two; and the counts add up to the
    number of cells that are not missing. *)
Definition counts_of (vals : list cell) (counts : list (Q * nat)) : Prop :=
  Forall (fun e => snd e = occurrences (fst e) vals /\ 1 <= snd e) counts /\
  (forall v, In (Num v) vals -> exists e, In e counts /\ (fst e == v)%Q) /\
  distinct_keys counts /\
  total counts = present vals.

Lemma occurrences_app v l1 l2 :
  occurrences v (l1 ++ l2) = occurrences v l1 + occurrences v l2.
Proof. unfold occurrences. now rewrite filter_app, length_app. Qed.

Lemma present_app l1 l2 : present (l1 ++ l2) = present l1 + present l2.
Proof. unfold present. now rewrite filter_app, length_app. Qed.

Lemma occurrences_none v vals :
  (forall x, In (Num x) vals -> ~ (x == v)%Q) -> occurrences v vals = 0.
Proof.
  intros H. unfold occurrences. induction vals as [| c vals IH]; [reflexivity |].
  simpl. destruct c as [| x].
  - apply IH. intros z Hz. apply H. now right.
  - destruct (Qeq_bool x v) eqn:E.
    + apply Qeq_bool_iff in E. exfalso. apply (H x); [now left | exact E].
    + apply IH. intros z Hz. apply H. now right.
Qed.

Lemma occurrences_comp v w vals :
  (v == w)%Q -> occurrences v vals = occurrences w vals.
Proof.
  intros E. unfold occurrences. f_equal. apply filter_ext. intros [| x]; [reflexivity |].
  destruct (Qeq_bool x w) eqn:Ew.
  - apply Qeq_bool_iff. apply Qeq_bool_iff in Ew. now rewrite E.
  - destruct (Qeq_bool x v) eqn:Ev; [| reflexivity].
    apply Qeq_bool_iff in Ev. rewrite E in Ev. apply Qeq_bool_iff in Ev. congruence.
Qed.

Lemma bump_total v counts : total (bump v counts) = S (total counts).
Proof.
  induction counts as [| [k c] counts IH]; simpl; [reflexivity |].
  destruct (Qeq_bool v k); simpl; [lia | rewrite IH; lia].
Qed.

Lemma occurrences_one v k :
  occurrences k [Num v] = if Qeq_bool v k then 1 else 0.
Proof. unfold occurrences. simpl. destruct (Qeq_bool v k); reflexivity. Qed.

(** The keys after a bump: those before, and the value itself. *)
Lemma bump_key v counts e :
  In e (bump v counts) -> (exists e0, In e0 counts /\ fst e0 = fst e) \/ fst e = v.
Proof.
  induction counts as [| [k c] counts IH]; simpl.
  - intros [<- | []]. now right.
  - destruct (Qeq_bool v k).
    + intros [<- | H]; left.
      * exists (k, c). split; [now left | reflexivity].
      * exists e. split; [now right | reflexivity].
    + intros [<- | H].
      * left. exists (k, c). split; [now left | reflexivity].
      * destruct (IH H) as [(e0 & H0 & E0) | E].
        -- left. exists e0. split; [now right | exact E0].
        -- now right.
Qed.

Lemma bump_keeps v counts e :
  In e counts -> exists e', In e' (bump v counts) /\ fst e' = fst e.
Proof.
  induction counts as [| [k c] counts IH]; simpl; [contradiction |].
  destruct (Qeq_bool v k).
  - intros [<- | H].
    + exists (k, S c). split; [now left | reflexivity].
    + exists e. split; [now right | reflexivity].
  - intros [<- | H].
    + exists (k, c). split; [now left | reflexivity].
    + destruct (IH H) as (e' & H' & E'). exists e'. split; [now right | exact E'].
Qed.

Lemma bump_has v counts : exists e, In e (bump v counts) /\ (fst e == v)%Q.
Proof.
  induction counts as [| [k c] counts (e & He & Ee)]; simpl.
  - exists (v, 1). split; [now left | reflexivity].
  - destruct (Qeq_bool v k) eqn:E.
    + apply Qeq_bool_iff in E. exists (k, S c). split; [now left | now symmetry].
    + exists e. split; [now right | exact Ee].
Qed.

Lemma bump_distinct v counts : distinct_keys counts -> distinct_keys (bump v counts).
Proof.
  unfold distinct_keys.
  induction 1 as [| [k c] counts Hk Hd IH]; simpl.
  - constructor; constructor.
  - destruct (Qeq_bool v k) eqn:E.
    + constructor; [exact Hk | exact Hd].
    + apply Qeq_bool_neq in E. constructor; [| exact IH].
      apply Forall_forall. intros e He. simpl.
      destruct (bump_key v counts e He) as [(e0 & H0 & E0) | Ev].
      * rewrite <- E0. rewrite Forall_forall in Hk. exact (Hk e0 H0).
      * rewrite Ev. intros C. apply E. now symmetry.
Qed.

Lemma bump_entries processed v counts :
  distinct_keys counts ->
  Forall (fun e => snd e = occurrences (fst e) processed /\ 1 <= snd e) counts ->
  ((forall x, In x counts -> ~ (v == fst x)%Q) -> occurrences v processed = 0) ->
  Forall (fun e => snd e = occurrences (fst e) (processed ++ [Num v]) /\ 1 <= snd e)
    (bump v counts).
Proof.
  unfold distinct_keys.
  induction 1 as [| [k c] counts Hk Hd IH]; intros Hall Hzero; simpl.
  - constructor; [| constructor]. simpl.
    rewrite occurrences_app, occurrences_one, Hzero by (intros x []).
    rewrite (proj2 (Qeq_bool_iff v v) (Qeq_refl v)). lia.
  - inversion Hall as [| ? ? [Hc H1] Hrest]; subst. simpl in Hc, H1.
    destruct (Qeq_bool v k) eqn:E.
    + constructor.
      * simpl. rewrite occurrences_app, occurrences_one, E. lia.
      * apply Forall_forall. intros e He.
        rewrite Forall_forall in Hrest, Hk.
        destruct (Hrest e He) as [Hce H1e]. split; [| exact H1e].
        rewrite occurrences_app, occurrences_one.
        destruct (Qeq_bool v (fst e)) eqn:Ee; [| lia].
        exfalso. apply Qeq_bool_iff in E, Ee. apply (Hk e He). simpl.
        now rewrite <- E, <- Ee.
    + constructor.
      * simpl. rewrite occurrences_app, occurrences_one, E. lia.
      * apply IH; [exact Hrest |]. intros Hn. apply Hzero.
        intros x [<- | Hx]; [now apply Qeq_bool_neq | now apply Hn].
Qed.

Lemma bump_counts_of processed v counts :
  counts_of processed counts -> counts_of (processed ++ [Num v]) (bump v counts).
Proof.
  intros (Hall & Hcomplete & Hd & Htotal). unfold counts_of.
  split; [| split; [| split]].
  - apply bump_entries; auto. intros Hn. apply occurrences_none.
    intros x Hx C. destruct (Hcomplete x Hx) as (e & He & Ee).
    apply (Hn e He). now rewrite Ee, C.
  - intros w Hw. apply in_app_or in Hw as [Hw | [Hw | []]].
    + destruct (Hcomplete w Hw) as (e & He & Ee).
      destruct (bump_keeps v counts e He) as (e' & He' & E').
      exists e'. split; [exact He' | now rewrite E'].
    + injection Hw as <-. apply bump_has.
  - now apply bump_distinct.
  - rewrite bump_total, present_app, Htotal. unfold present. simpl. lia.
Qed.

Lemma skip_counts_of processed counts :
  counts_of processed counts -> counts_of (processed ++ [NaN]) counts.
Proof.
  intros (Hall & Hcomplete & Hd & Htotal). unfold counts_of.
  split; [| split; [| split]].
  - eapply Forall_impl; [| exact Hall]. intros e [H1 H2].
    rewrite occurrences_app. unfold occurrences at 2. simpl. split; lia.
  - intros w Hw. apply in_app_or in Hw as [Hw | [Hw | []]]; [auto | discriminate].
  - exact Hd.
  - rewrite present_app, Htotal. unfold present. simpl. lia.
Qed.

Lemma tally_counts_of vals : counts_of vals (tally vals).
Proof.
  unfold tally.
  assert (H : forall l processed counts,
            counts_of processed counts ->
            counts_of (processed ++ l)
              (fold_left (fun acc c => match c with
                                       | NaN => acc
                                       | Num v => bump v acc
                                       end) l counts)).
  { induction l as [| c l IH]; intros processed counts Hc; simpl.
    - now rewrite app_nil_r.
    - replace (processed ++ c :: l) with ((processed ++ [c]) ++ l)
        by (now rewrite <- app_assoc).
      apply IH. destruct c; [now apply skip_counts_of | now apply bump_counts_of]. }
  apply (H vals [] []). unfold counts_of, distinct_keys. simpl.
  repeat split; [constructor | intros v [] | constructor].
Qed.

Definition by_count (a b : Q * nat) : Prop := snd b <= snd a.

Lemma insert_by_count_permutation e l : Permutation (insert_by_count e l) (e :: l).
Proof.
  induction l as [| x l IH]; simpl; [reflexivity |].
  destruct (snd x <=? snd e); [reflexivity |].
  rewrite IH. apply perm_swap.
Qed.

Lemma sort_by_count_permutation l : Permutation (sort_by_count l) l.
Proof.
  induction l as [| e l IH]; simpl; [reflexivity |].
  rewrite insert_by_count_permutation. now constructor.
Qed.

Lemma insert_by_count_sorted e l :
  StronglySorted by_count l -> StronglySorted by_count (insert_by_count e l).
Proof.
  induction 1 as [| x l Hs IH Hx]; simpl; [repeat constructor |].
  destruct (snd x <=? snd e) eqn:E.
  - apply Nat.leb_le in E. constructor; [now constructor |].
    constructor; [exact E |]. eapply Forall_impl; [| exact Hx].
    unfold by_count. intros a Ha. lia.
  - apply Nat.leb_gt in E. constructor; [exact IH |].
    apply Forall_forall. intros a Ha.
    apply (Permutation_in _ (insert_by_count_permutation e l)) in Ha.
    destruct Ha as [<- | Ha]; [unfold by_count; lia |].
    rewrite Forall_forall in Hx. now apply Hx.
Qed.

Lemma sort_by_count_sorted l : StronglySorted by_count (sort_by_count l).
Proof.
  induction l as [| e l IH]; simpl; [constructor | now apply insert_by_count_sorted].
Qed.

Lemma insert_by_count_distinct e l :
  Forall (fun b => ~ (fst e == fst b)%Q) l -> distinct_keys l ->
  distinct_keys (insert_by_count e l).
Proof.
  unfold distinct_keys. intros He Hd. revert He.
  induction Hd as [| x l Hx Hd IH]; intros He; simpl.
  - constructor; constructor.
  - destruct (snd x <=? snd e).
    + constructor; [exact He | now constructor].
    + inversion He as [| ? ? Hex Hel]; subst.
      constructor; [| now apply IH].
      apply Forall_forall. intros a Ha.
      apply (Permutation_in _ (insert_by_count_permutation e l)) in Ha.
      destruct Ha as [<- | Ha].
      * intros C. apply Hex. now symmetry.
      * rewrite Forall_forall in Hx. now apply Hx.
Qed.

Lemma sort_by_count_distinct l : distinct_keys l -> distinct_keys (sort_by_count l).
Proof.
  unfold distinct_keys. induction 1 as [| e l He Hd IH]; simpl; [constructor |].
  apply insert_by_count_distinct; [| exact IH].
  apply Forall_forall. intros b Hb.
  apply (Permutation_in _ (sort_by_count_permutation l)) in Hb.
  rewrite Forall_forall in He. now apply He.
Qed.

Lemma total_permutation l l' : Permutation l l' -> total l = total l'.
Proof. induction 1; simpl; lia. Qed.

Lemma value_counts_counts_of (y : Series) :
  counts_of (s_values y) (value_counts y).
Proof.
  unfold value_counts.
  destruct (tally_counts_of (s_values y)) as (Hall & Hcomplete & Hd & Htotal).
  pose proof (sort_by_count_permutation (tally (s_values y))) as Hp.
  unfold counts_of. split; [| split; [| split]].
  - eapply Permutation_Forall; [symmetry; exact Hp | exact Hall].
  - intros v Hv. destruct (Hcomplete v Hv) as (e & He & Ee).
    exists e. split; [| exact Ee]. eapply Permutation_in; [symmetry; exact Hp | exact He].
  - now apply sort_by_count_distinct.
  - rewrite (total_permutation _ _ Hp). exact Htotal.
Qed.

(** What [value_counts] returns: the counts of the values of the series,
    the largest first. *)
Definition class_counts_of (y : Series) (counts : list (Q * nat)) : Prop :=
  counts_of (s_values y) counts /\ StronglySorted by_count counts.

(** X14.  [y.value_counts()] has one entry for every value that occurs in
    [y] and no two for one value; each entry holds the number of
    occurrences of its value; the counts add up to the number of entries of
    [y] that are not missing; and they come largest first. *)
Theorem value_counts_partitions_the_labels (y : Series) :
  class_counts_of y (value_counts y).
Proof.
  unfold class_counts_of. split.
  - apply value_counts_counts_of.
  - unfold value_counts. apply sort_by_count_sorted.
Qed.

End ClassCounts.

Section BalanceTest.
Import Pandas Sklearn Balance.
Context {F : Numpy.Float64}.
Local Open Scope Q_scope.

(** The slack that covers the roundings of the test. *)
Definition slack : Q := 1 # 1000000000000000.

Lemma fl_near (x : Q) :
  x - Numpy.eps * Qabs x <= Numpy.fl x /\ Numpy.fl x <= x + Numpy.eps * Qabs x.
Proof.
  pose proof (Numpy.fl_error x) as H.
  apply Qabs_Qle_condition in H as [H1 H2]. split; lra.
Qed.

(** The test on a share [x] of the observations, against the exact share. *)
Lemma near_half_bounds (x : Q) :
  0 <= x -> x <= 1 ->
  (Balance.near_half (Numpy.fl x) = true ->
   (2 # 5) - slack <= x /\ x <= (3 # 5) + slack) /\
  ((2 # 5) + slack <= x /\ x <= (3 # 5) - slack ->
   Balance.near_half (Numpy.fl x) = true).
Proof.
  intros Hx0 Hx1. unfold Balance.near_half, Balance.balanced_threshold.
  destruct (fl_near x) as [A1 A2]. rewrite (Qabs_pos x Hx0) in A1, A2.
  destruct (fl_near (1 # 2)) as [B1 B2].
  destruct (fl_near (1 # 10)) as [C1 C2].
  change (Qabs (1 # 2)) with (1 # 2) in B1, B2.
  change (Qabs (1 # 10)) with (1 # 10) in C1, C2.
  set (q1 := Numpy.fl x) in *. set (h := Numpy.fl (1 # 2)) in *.
  set (t := Numpy.fl (1 # 10)) in *.
  destruct (fl_near (q1 - h)) as [D1 D2].
  set (q2 := Numpy.fl (q1 - h)) in *.
  change Numpy.eps with (1 # 9007199254740992) in *.
  unfold slack.
  split.
  - intros H. apply Qle_bool_iff in H. apply Qabs_Qle_condition in H as [H1 H2].
    destruct (Qlt_le_dec (q1 - h) 0) as [Hd | Hd].
    + rewrite (Qabs_neg (q1 - h)) in D1, D2 by lra. split; lra.
    + rewrite (Qabs_pos (q1 - h)) in D1, D2 by lra. split; lra.
  - intros [H1 H2]. apply Qle_bool_iff. apply Qabs_Qle_condition.
    destruct (Qlt_le_dec (q1 - h) 0) as [Hd | Hd].
    + rewrite (Qabs_neg (q1 - h)) in D1, D2 by lra. split; lra.
    + rewrite (Qabs_pos (q1 - h)) in D1, D2 by lra. split; lra.
Qed.


Lemma share_in_unit (c n : nat) :
  (c <= n)%nat -> (0 < n)%nat -> 0 <= ratio c n /\ ratio c n <= 1.
Proof. intros H1 H2. now apply ratio_in_unit_interval. Qed.

(** A class that passes the test holds more than a third of the
    observations, and not all of them. *)
Lemma passing_class_size (c n : nat) :
  (1 <= c)%nat -> (c <= n)%nat ->
  Balance.near_half (Numpy.fdiv (inject_Z (Z.of_nat c)) (inject_Z (Z.of_nat n))) = true ->
  (n < 3 * c)%nat /\ (c < n)%nat.
Proof.
  intros Hc Hn Ht.
  destruct (share_in_unit c n Hn ltac:(lia)) as [X0 X1].
  destruct (near_half_bounds (ratio c n) X0 X1) as [Hb _].
  destruct (Hb Ht) as [L U]. clear Hb. unfold slack in L, U.
  pose proof (inject_nat_pos n ltac:(lia)) as Np.
  assert (E : ratio c n * inject_Z (Z.of_nat n) == inject_Z (Z.of_nat c)).
  { unfold ratio. field. intros C. rewrite C in Np. discriminate. }
  set (r := ratio c n) in *. set (nq := inject_Z (Z.of_nat n)) in *.
  set (cq := inject_Z (Z.of_nat c)) in *.
  assert (H3 : nq < 3 * cq) by nra.
  assert (H4 : cq < nq) by nra.
  subst nq cq. split.
  - change 3 with (inject_Z 3) in H3. rewrite <- inject_Z_mult, <- Zlt_Qlt in H3. lia.
  - rewrite <- Zlt_Qlt in H4. lia.
Qed.

Lemma total_ge_three (a b c : Q * nat) (rest : list (Q * nat)) :
  (snd a + snd b + snd c <= total (a :: b :: c :: rest))%nat.
Proof. simpl. lia. Qed.

Lemma entry_le_total (e : Q * nat) (counts : list (Q * nat)) :
  In e counts -> (snd e <= total counts)%nat.
Proof.
  induction counts as [| x counts IH]; simpl; [contradiction |].
  intros [<- | H]; [lia | specialize (IH H); lia].
Qed.

Lemma present_all (vals : list cell) :
  no_missing vals -> present vals = List.length vals.
Proof.
  unfold no_missing, present. induction 1 as [| c vals Hc _ IH]; simpl; [reflexivity |].
  rewrite Hc. simpl. now rewrite IH.
Qed.

Lemma is_balanced_entries (y : Series) :
  Balance.is_balanced y = true ->
  Forall (fun e => Balance.near_half
                     (Numpy.fdiv (inject_Z (Z.of_nat (snd e)))
                        (inject_Z (Z.of_nat (List.length y)))) = true)
    (Balance.value_counts y).
Proof.
  unfold Balance.is_balanced, Balance.class_proportions. intros H.
  rewrite forallb_forall in H. apply Forall_forall. intros e He.
  apply (H (fst e, _)). apply in_map_iff. exists e. auto.
Qed.

(** X15.  Where no label is missing, the dataset can only be reported
    balanced when exactly two classes occur in [y] (or [y] is empty, [np.all]
    of nothing being true): with one class its share is 1, and with three or
    more some class holds a third of the observations or less, further than
    0.1 from one half. *)
Theorem only_two_classes_can_balance (y : Series) :
  no_missing (s_values y) ->
  Balance.is_balanced y = true ->
  y = [] \/ List.length (Balance.value_counts y) = 2%nat.
Proof.
  intros Hnm Hb.
  destruct (value_counts_counts_of y) as (Hall & Hcomplete & _ & Htotal).
  rewrite (present_all _ Hnm) in Htotal. unfold s_values in Htotal.
  rewrite length_map in Htotal.
  pose proof (is_balanced_entries y Hb) as Hpass.
  assert (Hsize : Forall (fun e => (List.length y < 3 * snd e)%nat /\
                                   (snd e < List.length y)%nat)
                    (Balance.value_counts y)).
  { apply Forall_forall. intros e He. rewrite Forall_forall in Hall, Hpass.
    apply passing_class_size; [apply (Hall e He) | | apply (Hpass e He)].
    rewrite <- Htotal. now apply entry_le_total. }
  destruct (Balance.value_counts y) as [| a [| b [| c rest]]] eqn:Evc.
  - left. destruct y as [| [i v] y]; [reflexivity | exfalso].
    unfold no_missing in Hnm. inversion Hnm as [| ? ? Hv _]; subst.
    destruct v as [| q]; [discriminate |].
    destruct (Hcomplete q (or_introl eq_refl)) as (e & [] & _).
  - exfalso. inversion Hsize as [| ? ? [_ H] _]; subst. simpl in Htotal. lia.
  - right. reflexivity.
  - exfalso. pose proof (total_ge_three a b c rest) as Hsum.
    inversion Hsize as [| ? ? [Ha _] H1]; subst.
    inversion H1 as [| ? ? [Hb' _] H2]; subst.
    inversion H2 as [| ? ? [Hc _] _]; subst. lia.
Qed.

(** Labels that are 0 or 1, none missing. *)
Definition binary_labels (y : Series) : Prop :=
  Forall (fun e => exists q, snd e = Num q /\ is_binary q) y.

(** The number of droughts in [y], and their share. *)
Definition droughts (y : Series) : nat := occurrences 1 (s_values y).
Definition drought_share (y : Series) : Q := ratio (droughts y) (List.length y).

Lemma occurrences_pos_inv (v : Q) (vals : list cell) :
  (1 <= occurrences v vals)%nat -> exists x, In (Num x) vals /\ x == v.
Proof.
  unfold occurrences. induction vals as [| c vals IH]; simpl; [lia |].
  destruct c as [| x].
  - intros H. destruct (IH H) as (z & Hz & Ez). exists z. auto.
  - destruct (Qeq_bool x v) eqn:E.
    + intros _. exists x. split; [now left | now apply Qeq_bool_iff].
    + intros H. destruct (IH H) as (z & Hz & Ez). exists z. auto.
Qed.

Lemma occurrences_pos (v x : Q) (vals : list cell) :
  In (Num x) vals -> x == v -> (1 <= occurrences v vals)%nat.
Proof.
  unfold occurrences. intros Hin E.
  assert (Hf : In (Num x) (filter (fun c => match c with
                                            | NaN => false
                                            | Num z => Qeq_bool z v
                                            end) vals)).
  { apply filter_In. split; [exact Hin | now apply Qeq_bool_iff]. }
  destruct (filter _ vals); [contradiction | simpl; lia].
Qed.

Lemma binary_labels_values (y : Series) (x : Q) :
  binary_labels y -> In (Num x) (s_values y) -> is_binary x.
Proof.
  unfold binary_labels, s_values. intros Hb Hin. rewrite Forall_forall in Hb.
  apply in_map_iff in Hin as (e & He & Hin).
  destruct (Hb e Hin) as (q & Hq & Bq). rewrite He in Hq. now injection Hq as ->.
Qed.

Lemma binary_labels_split (y : Series) :
  binary_labels y ->
  (occurrences 0 (s_values y) + droughts y = List.length y)%nat.
Proof.
  unfold binary_labels, droughts, occurrences, s_values.
  induction 1 as [| e y (q & Hq & Bq) _ IH]; [reflexivity |].
  cbn [map filter List.length]. rewrite Hq.
  destruct (binary_cases q Bq) as [[E1 P1] | [E0 P0]].
  - unfold is_pos in P1. rewrite P1.
    assert (Z0 : Qeq_bool q 0 = false).
    { destruct (Qeq_bool q 0) eqn:E; [| reflexivity].
      apply Qeq_bool_iff in E. rewrite E1 in E. discriminate. }
    rewrite Z0. cbn [List.length]. lia.
  - unfold is_pos in P0. rewrite P0.
    rewrite (proj2 (Qeq_bool_iff q 0) E0). cbn [List.length]. lia.
Qed.

(** On 0/1 labels every class is the droughts or the rest. *)
Lemma binary_class_counts (y : Series) (e : Q * nat) :
  binary_labels y -> In e (Balance.value_counts y) ->
  snd e = droughts y \/ snd e = (List.length y - droughts y)%nat.
Proof.
  intros Hb He.
  destruct (value_counts_counts_of y) as (Hall & _).
  rewrite Forall_forall in Hall. destruct (Hall e He) as [Hc H1].
  rewrite Hc in H1. destruct (occurrences_pos_inv _ _ H1) as (x & Hx & Ex).
  pose proof (binary_labels_split y Hb) as Hs.
  destruct (binary_labels_values y x Hb Hx) as [E0 | E1].
  - right. rewrite Hc, (occurrences_comp (fst e) 0) by (now rewrite <- Ex). lia.
  - left. rewrite Hc. apply occurrences_comp. now rewrite <- Ex.
Qed.

Lemma ratio_rest (d n : nat) :
  (d <= n)%nat -> (0 < n)%nat -> ratio (n - d) n == 1 - ratio d n.
Proof.
  intros Hd Hn. unfold ratio. pose proof (inject_nat_pos n Hn) as Np.
  rewrite Nat2Z.inj_sub by exact Hd. unfold Z.sub.
  rewrite inject_Z_plus, inject_Z_opp. field.
  intros C. rewrite C in Np. discriminate.
Qed.

Lemma class_share_passes (y : Series) (c : nat) :
  (c = droughts y \/ c = List.length y - droughts y)%nat ->
  (2 # 5) + slack <= drought_share y -> drought_share y <= (3 # 5) - slack ->
  binary_labels y ->
  Balance.near_half (Numpy.fdiv (inject_Z (Z.of_nat c))
                       (inject_Z (Z.of_nat (List.length y)))) = true.
Proof.
  intros Hc L U Hb. unfold drought_share in L, U.
  pose proof (binary_labels_split y Hb) as Hs.
  assert (Hn : (0 < List.length y)%nat).
  { destruct (List.length y) eqn:E; [| lia]. exfalso.
    assert (Ed : droughts y = 0%nat) by lia. rewrite Ed in L.
    apply (Qle_not_lt _ _ L). reflexivity. }
  pose proof (ratio_rest (droughts y) (List.length y) ltac:(lia) Hn) as Er.
  unfold slack in *.
  assert (Hx : (2 # 5) + slack <= ratio c (List.length y) /\
               ratio c (List.length y) <= (3 # 5) - slack).
  { unfold slack. destruct Hc as [-> | ->]; [split; assumption |].
    rewrite Er. split; lra. }
  destruct (share_in_unit c (List.length y) ltac:(lia) Hn) as [X0 X1].
  exact (proj2 (near_half_bounds _ X0 X1) Hx).
Qed.

(** X16.  On 0/1 labels the dataset is reported balanced whenever the share
    of droughts lies between 0.4 and 0.6, the two ends apart by 1e-15 (where
    the roundings of the test decide). *)
Theorem share_near_half_is_balanced (y : Series) :
  binary_labels y ->
  (2 # 5) + slack <= drought_share y ->
  drought_share y <= (3 # 5) - slack ->
  Balance.is_balanced y = true.
Proof.
  intros Hb L U. unfold Balance.is_balanced, Balance.class_proportions.
  apply forallb_forall. intros p Hp.
  apply in_map_iff in Hp as (e & <- & He). cbn [snd].
  apply class_share_passes; auto.
  now apply binary_class_counts.
Qed.

(** X17.  A dataset of 0/1 labels, not empty, that is reported balanced has a
    share of droughts between 0.4 and 0.6, up to 1e-15. *)
Theorem balanced_means_share_near_half (y : Series) :
  binary_labels y -> y <> [] ->
  Balance.is_balanced y = true ->
  (2 # 5) - slack <= drought_share y /\ drought_share y <= (3 # 5) + slack.
Proof.
  intros Hb Hne Hbal.
  destruct (value_counts_counts_of y) as (Hall & Hcomplete & _ & Htotal).
  pose proof (is_balanced_entries y Hbal) as Hpass.
  pose proof (binary_labels_split y Hb) as Hs.
  assert (Hn : (0 < List.length y)%nat).
  { destruct y; [congruence | simpl; lia]. }
  rewrite Forall_forall in Hall, Hpass.
  assert (Hkey : forall x k, In (Num x) (s_values y) -> x == k ->
            exists e, In e (Balance.value_counts y) /\
                      snd e = occurrences k (s_values y)).
  { intros x k Hx Ek. destruct (Hcomplete x Hx) as (e & He & Ee).
    exists e. split; [exact He |]. destruct (Hall e He) as [Hc _].
    rewrite Hc. apply occurrences_comp. now rewrite Ee. }
  destruct (Nat.eq_dec (droughts y) 0) as [Hd | Hd].
  - exfalso.
    destruct y as [| [i c] y']; [congruence |].
    inversion Hb as [| ? ? (q & Hq & Bq) _]; subst. simpl in Hq. subst c.
    assert (Hq0 : q == 0).
    { destruct Bq as [E | E]; [exact E | exfalso].
      pose proof (occurrences_pos 1 q (s_values ((i, Num q) :: y'))
                    (or_introl eq_refl) E) as H1.
      unfold droughts in Hd. lia. }
    destruct (Hkey q 0 (or_introl eq_refl) Hq0) as (e & He & Hc).
    assert (Hce : snd e = List.length ((i, Num q) :: y')) by lia.
    destruct (Hall e He) as [_ H1].
    pose proof (Hpass e He) as Hp. cbv beta in Hp.
    rewrite Hce in Hp.
    destruct (passing_class_size _ _ Hn (Nat.le_refl _) Hp) as [_ C]. lia.
  - destruct (occurrences_pos_inv 1 (s_values y) ltac:(unfold droughts in Hd; lia))
      as (x & Hx & Ex).
    destruct (Hkey x 1 Hx Ex) as (e & He & Hc).
    pose proof (Hpass e He) as Hp. cbv beta in Hp.
    fold (droughts y) in Hc. rewrite Hc in Hp.
    destruct (share_in_unit (droughts y) (List.length y) ltac:(lia) Hn) as [X0 X1].
    exact (proj1 (near_half_bounds _ X0 X1) Hp).
Qed.

End BalanceTest.

(** The labels of the demo data, two droughts in five, in binary64. *)
Lemma only_two_classes_can_balance_witness :
  Demo.y = [] \/ List.length (Balance.value_counts Demo.y) = 2.
Proof.
  apply (only_two_classes_can_balance (F := Binary64.binary64)).
  - repeat constructor.
  - vm_compute. reflexivity.
Defined.

(** Two droughts in four. *)
Definition even_labels : Pandas.Series :=
  [(0, Pandas.Num 1); (1, Pandas.Num 0); (2, Pandas.Num 0); (3, Pandas.Num 1)].

Lemma even_labels_binary : binary_labels even_labels.
Proof.
  repeat (constructor;
          [eexists; split;
           [reflexivity | first [left; reflexivity | right; reflexivity]] |]).
  constructor.
Qed.

Lemma share_near_half_is_balanced_witness :
  Balance.is_balanced (F := Binary64.binary64) even_labels = true.
Proof.
  apply (share_near_half_is_balanced (F := Binary64.binary64)).
  - exact even_labels_binary.
  - vm_compute. discriminate.
  - vm_compute. discriminate.
Defined.

Lemma balanced_means_share_near_half_witness :
  ((2 # 5) - slack <= drought_share even_labels)%Q /\
  (drought_share even_labels <= (3 # 5) + slack)%Q.
Proof.
  apply (balanced_means_share_near_half (F := Binary64.binary64)).
  - exact even_labels_binary.
  - discriminate.
  - vm_compute. reflexivity.
Defined.

(** ** The locations on the map (cell 9) *)

Module Locations.
Import Pandas.

(** Two cells hold the same value; pandas takes two missing values for the
    same. *)
Definition same_cell (a b : cell) : bool :=
  match a, b with
  | NaN, NaN => true
  | Num x, Num y => Qeq_bool x y
  | _, _ => false
  end.

Fixpoint same_cells (r1 r2 : list cell) : bool :=
  match r1, r2 with
  | [], [] => true
  | a :: r1', b :: r2' => same_cell a b && same_cells r1' r2'
  | _, _ => false
  end.

(** The rows whose cells were not seen before, [seen] being the cells of the
    rows met so far. *)
Fixpoint keep_first (seen : list (list cell)) (rs : list row) : list row :=
  match rs with
  | [] => []
  | r :: rs' =>
      if existsb (same_cells (snd r)) seen then keep_first seen rs'
      else r :: keep_first (snd r :: seen) rs'
  end.

(** [df.drop_duplicates()], [keep='first']: rows keep their labels. *)
Definition drop_duplicates (df : DataFrame) : DataFrame :=
  mkFrame (columns df) (keep_first [] (records df)).

(** [unique_points = data[['lon', 'lat']].drop_duplicates()]. *)
Definition unique_points (data : DataFrame) : Py.t DataFrame :=
  sel <- getitem_list data ["lon"; "lat"]%string ;;
  Py.ret (drop_duplicates sel).

(** [zip(unique_points['lon'], unique_points['lat'])], a point each. *)
Definition geometry (points : DataFrame) : Py.t (list (cell * cell)) :=
  lon <- getitem points "lon" ;;
  lat <- getitem points "lat" ;;
  Py.ret (combine (s_values lon) (s_values lat)).

End Locations.

Section UniquePoints.
Import Pandas Locations.

Lemma same_cells_refl r : same_cells r r = true.
Proof.
  induction r as [| c r IH]; [reflexivity |]. simpl. rewrite IH.
  destruct c as [| q]; [reflexivity |]. simpl. rewrite andb_true_r.
  apply Qeq_bool_iff. reflexivity.
Qed.

(** A kept row is a row of the frame, unlike any seen before. *)
Lemma keep_first_in seen rs r :
  In r (keep_first seen rs) ->
  In r rs /\ existsb (same_cells (snd r)) seen = false.
Proof.
  revert seen. induction rs as [| x rs IH]; intros seen H; simpl in H; [contradiction |].
  destruct (existsb (same_cells (snd x)) seen) eqn:E.
  - destruct (IH _ H) as [Hin Hs]. split; [now right | exact Hs].
  - destruct H as [<- | H]; [split; [now left | exact E] |].
    destruct (IH _ H) as [Hin Hs]. split; [now right |].
    simpl in Hs. now apply orb_false_iff in Hs as [_ Hs].
Qed.

(** No kept row repeats an earlier kept row. *)
Definition no_repeat (rows : list row) : Prop :=
  ForallOrdPairs (fun a b => same_cells (snd b) (snd a) = false) rows.

Lemma keep_first_no_repeat seen rs : no_repeat (keep_first seen rs).
Proof.
  unfold no_repeat. revert seen.
  induction rs as [| x rs IH]; intros seen; simpl; [constructor |].
  destruct (existsb (same_cells (snd x)) seen); [apply IH |].
  constructor; [| apply IH].
  apply Forall_forall. intros b Hb. apply keep_first_in in Hb as [_ Hs].
  simpl in Hs. now apply orb_false_iff in Hs as [Hs _].
Qed.

(** Every row has its cells in a kept row, at its place or before it, or
    among the cells seen before. *)
Lemma keep_first_covers seen rs j r :
  nth_error rs j = Some r ->
  existsb (same_cells (snd r)) seen = true \/
  exists i r', i <= j /\ nth_error rs i = Some r' /\
               In r' (keep_first seen rs) /\ same_cells (snd r) (snd r') = true.
Proof.
  revert seen j. induction rs as [| x rs IH]; intros seen j H.
  - destruct j; discriminate.
  - simpl. destruct (existsb (same_cells (snd x)) seen) eqn:E.
    + destruct j as [| j]; simpl in H.
      * injection H as <-. now left.
      * destruct (IH seen j H) as [Hs | (i & r' & Hi & Hn & Hin & Hsame)];
          [now left | right].
        exists (S i), r'. repeat split; auto. lia.
    + destruct j as [| j]; simpl in H.
      * injection H as <-. right. exists 0, x.
        repeat split; auto. now left. apply same_cells_refl.
      * destruct (IH (snd x :: seen) j H) as [Hs | (i & r' & Hi & Hn & Hin & Hsame)].
        -- simpl in Hs. apply orb_true_iff in Hs as [Hs | Hs]; [| now left].
           right. exists 0, x. repeat split; auto. lia. now left.
        -- right. exists (S i), r'. repeat split; auto. lia. now right.
Qed.

(** What [unique_points] lists: rows of the two coordinate columns of the
    data, under their own labels; no location twice; every location of the
    data, by the first row that has it; and a point for each row. *)
Definition locations_once (data points : DataFrame) : Prop :=
  exists sel pts,
    getitem_list data ["lon"; "lat"]%string = inr sel /\
    columns points = ["lon"; "lat"]%string /\
    incl (records points) (records sel) /\
    no_repeat (records points) /\
    (forall j r, nth_error (records sel) j = Some r ->
       exists i r', i <= j /\ nth_error (records sel) i = Some r' /\
                    In r' (records points) /\
                    same_cells (snd r) (snd r') = true) /\
    geometry points = inr pts /\
    List.length pts = List.length (records points).

(** X18.  [unique_points] holds every location (longitude and latitude) of
    the data exactly once, under the label of the first observation made
    there, and the list of points built from it has one point per row, as
    [GeoDataFrame] needs. *)
Theorem unique_points_lists_each_location_once (data points : DataFrame) :
  unique_points data = inr points -> locations_once data points.
Proof.
  unfold unique_points. intros H.
  destruct (getitem_list data ["lon"; "lat"]%string) as [e | sel] eqn:Hsel;
    [discriminate |].
  cbn in H. injection H as <-.
  pose proof (getitem_list_inv _ _ _ Hsel) as (locs & _ & _ & Esel).
  assert (Hcols : columns sel = ["lon"; "lat"]%string) by (now rewrite Esel).
  unfold locations_once.
  exists sel,
    (combine (s_values (map (fun r => (fst r, at_col 0 r))
                          (records (drop_duplicates sel))))
       (s_values (map (fun r => (fst r, at_col 1 r))
                    (records (drop_duplicates sel))))).
  split; [exact Hsel |]. split; [exact Hcols |]. split; [| split; [| split; [| split]]].
  - intros r Hr. now apply keep_first_in in Hr as [Hr _].
  - apply keep_first_no_repeat.
  - intros j r Hj.
    destruct (keep_first_covers [] (records sel) j r Hj) as [Hs | Hc];
      [discriminate | exact Hc].
  - unfold geometry, getitem, drop_duplicates. cbn [columns]. rewrite Hcols.
    reflexivity.
  - unfold s_values. rewrite length_combine, !length_map. apply Nat.min_id.
Qed.

End UniquePoints.

(** The demo data: five observations, all at one place. *)
Definition demo_points : Pandas.DataFrame :=
  Eval vm_compute in
    match Locations.unique_points (Pandas.dropna Demo.parsed) with
    | inr df => df
    | inl _ => Pandas.mkFrame [] []
    end.

Lemma unique_points_lists_each_location_once_witness :
  locations_once (Pandas.dropna Demo.parsed) demo_points.
Proof.
  apply unique_points_lists_each_location_once.
  vm_compute. reflexivity.
Defined.

(** ** Running the whole notebook *)

Section CellsReturn.
Import Pandas Sklearn Notebook.
Context {R : RandomState} {L : Learner} {F : Numpy.Float64}.

(** The kernel after the probability cell. *)
Definition probabilities_bound (proba : list (list Q)) (p1 : Numpy.ndarray)
    (st : state) : state :=
  set "drought_probabilities" (VArray p1) (set "y_pred_proba" (VMatrix proba) st).

Lemma cell_proba_returns st clf Xte proba p1 :
  globals st "clf" = Some (VForest clf) ->
  globals st "X_test" = Some (VFrame Xte) ->
  predict_proba clf Xte = inr proba ->
  column_1 proba = inr p1 ->
  cell_proba st = (probabilities_bound proba p1 st, inr tt).
Proof.
  intros Hc HX Hp H1. unfold cell_proba.
  rewrite (bind_returns _ _ st st clf
             (get_returns "clf" as_forest st _ clf Hc eq_refl)).
  rewrite (bind_returns _ _ st st Xte
             (get_returns "X_test" as_frame st _ Xte HX eq_refl)).
  unfold bind at 1, lift. rewrite Hp.
  unfold bind at 1. cbn [assign].
  set (st1 := set "y_pred_proba" (VMatrix proba) st).
  rewrite (bind_returns _ _ st1 st1 proba).
  2:{ apply (get_returns _ _ st1 (VMatrix proba)); reflexivity. }
  unfold bind at 1, lift. rewrite H1. reflexivity.
Qed.

(** The form while its boxes are made: [k] boxes so far, each holding 0. *)
Fixpoint boxes (k : nat) (st : state) : state :=
  match k with
  | 0 => set "entries" (VEntries []) st
  | S k' => set "entries" (VEntries (repeat 0%Q (S k'))) (boxes k' st)
  end.

Lemma boxes_entries k st :
  globals (boxes k st) "entries" = Some (VEntries (repeat 0%Q k)).
Proof. destruct k; reflexivity. Qed.

Lemma boxes_other k st name :
  String.eqb name "entries" = false ->
  globals (boxes k st) name = globals st name.
Proof.
  intros H. induction k as [| k IH]; simpl; rewrite H; [reflexivity | exact IH].
Qed.

Lemma boxes_loop (names : list string) k st :
  Notebook.for_each
    (fun _ : string =>
       bind (get "entries" as_entries) (fun entries =>
       assign "entries" (VEntries (entries ++ [0%Q])))) names (boxes k st)
  = (boxes (k + List.length names) st, inr tt).
Proof.
  revert k. induction names as [| n names IH]; intros k; cbn [Notebook.for_each].
  - rewrite Nat.add_0_r. reflexivity.
  - unfold bind at 1.
    rewrite (bind_returns _ _ (boxes k st) (boxes k st) (repeat 0%Q k)
               (get_returns "entries" as_entries _ _ _ (boxes_entries k st) eq_refl)).
    cbn [assign].
    replace (repeat 0%Q k ++ [0%Q]) with (repeat 0%Q (S k))
      by (rewrite <- repeat_cons; reflexivity).
    change (set "entries" (VEntries (repeat 0%Q (S k))) (boxes k st))
      with (boxes (S k) st).
    rewrite IH. cbn [List.length]. now rewrite Nat.add_succ_r.
Qed.

(** The kernel after the form cell: one box per predictor, each holding 0,
    and an empty label. *)
Definition form_up (k : nat) (st : state) : state :=
  set "result_label" (VLabel None) (boxes k st).

Lemma cell_widgets_returns st names :
  globals st "predictors" = Some (VNames names) ->
  cell_widgets st = (form_up (List.length names) st, inr tt).
Proof.
  intros Hp. unfold cell_widgets.
  unfold bind at 1. cbn [assign].
  change (set "entries" (VEntries []) st) with (boxes 0 st).
  rewrite (bind_returns _ _ (boxes 0 st) (boxes 0 st) names).
  2:{ apply (get_returns _ _ _ (VNames names)); [| reflexivity].
      rewrite boxes_other by reflexivity. exact Hp. }
  rewrite (bind_returns _ _ _ _ tt (boxes_loop names 0 st)).
  reflexivity.
Qed.

(** A forest of two classes, fed one row of as many values as it has
    features, gives that row a probability of the second class. *)
Lemma click_returns clf f typed :
  fitted_ clf = Some f ->
  List.length typed = n_features_in_ f ->
  2 <= List.length (classes_ f) ->
  (proba <- predict_proba_rows clf [typed] ;; item_0_1 proba)
  = inr (vote (estimators_ f) typed 1).
Proof.
  intros Hf Hlen Hk.
  unfold predict_proba_rows, check_is_fitted. rewrite Hf. cbn [Py.bind Py.ret].
  cbn [Py.map_m]. unfold check_n_features. rewrite Hlen, Nat.eqb_refl.
  cbn [Py.bind Py.ret map].
  destruct (List.length (classes_ f)) as [| [| k]]; [lia | lia |].
  reflexivity.
Qed.

(** What building the form and pressing the button, with nothing typed,
    leave: both complete; there is one box per predictor, each holding 0;
    and the label shows the forest's probability of the second class for
    the row of zeros. *)
Definition first_click (st : state) (names : list string) (f : fitted) : Prop :=
  exists st1 st2,
    cell_widgets st = (st1, inr tt) /\
    globals st1 "entries" = Some (VEntries (repeat 0%Q (List.length names))) /\
    predict_drought_probability st1 = (st2, inr tt) /\
    globals st2 "result_label"
    = Some (VLabel (Some (vote (estimators_ f)
                            (repeat 0%Q (List.length names)) 1))).

(** X19.  The form has one box per name in [predictors], each set to 0, so a
    forest fitted on as many features, with two classes, accepts the row: a
    click with nothing typed completes and shows the probability of drought
    at the all-zero input. *)
Theorem form_feeds_one_value_per_predictor
    (st : state) (names : list string)
    (clf : RandomForestClassifier) (f : fitted) :
  globals st "predictors" = Some (VNames names) ->
  globals st "clf" = Some (VForest clf) ->
  fitted_ clf = Some f ->
  n_features_in_ f = List.length names ->
  2 <= List.length (classes_ f) ->
  first_click st names f.
Proof.
  intros Hp Hc Hf Hn Hk.
  set (st1 := form_up (List.length names) st).
  assert (He : globals st1 "entries"
               = Some (VEntries (repeat 0%Q (List.length names)))).
  { unfold st1, form_up. cbn [globals set String.eqb Ascii.eqb Bool.eqb].
    apply boxes_entries. }
  assert (Hc1 : globals st1 "clf" = Some (VForest clf)).
  { unfold st1, form_up. cbn [globals set String.eqb Ascii.eqb Bool.eqb].
    now rewrite boxes_other by reflexivity. }
  exists st1, (set "result_label"
                 (VLabel (Some (vote (estimators_ f)
                                  (repeat 0%Q (List.length names)) 1))) st1).
  split; [now apply cell_widgets_returns |]. split; [exact He |].
  split; [| reflexivity].
  rewrite (predict_drought_probability_run st1 _ clf None He Hc1 eq_refl).
  unfold clicked.
  rewrite (click_returns clf f _ Hf) by (rewrite ?repeat_length; auto).
  reflexivity.
Qed.

End CellsReturn.

(** The demo kernel after the probability cell. *)
Definition before_form : @Notebook.state Demo.Rotating Demo.Stump :=
  Notebook.kernel
    (Notebook.run (F := Demo.Exact) (Srt := Demo.Insertion) Demo.disk
       [Notebook.Load; Notebook.Map; Notebook.Separate; Notebook.Train;
        Notebook.Predict; Notebook.Proba]
       (Notebook.empty Demo.g0)).

Lemma form_feeds_one_value_per_predictor_witness :
  first_click before_form Notebook.predictor_names
    (@Sklearn.mkFitted Demo.Stump [0; 1]%Q 9 (500, 42%Z, 3)).
Proof.
  apply (form_feeds_one_value_per_predictor before_form Notebook.predictor_names
           Demo.clf42).
  - vm_compute. reflexivity.
  - vm_compute. reflexivity.
  - vm_compute. reflexivity.
  - reflexivity.
  - simpl. lia.
Defined.

(** ** The column of drought probabilities *)

Section DroughtColumn.
Import Pandas Sklearn Notebook.
Context {R : RandomState} {L : Learner} {F : Numpy.Float64}.

Lemma column_1_returns (m : list (list Q)) :
  Forall (fun r => 2 <= List.length r) m ->
  column_1 m = inr (map (fun r => nth 1 r 0%Q) m).
Proof.
  intros H. unfold column_1. apply map_m_inr. intros r Hr.
  rewrite Forall_forall in H. specialize (H r Hr).
  destruct r as [| a [| b r]]; simpl in H; try lia. reflexivity.
Qed.

(** The rows that pass the check of their width are the rows as given. *)
Lemma check_n_features_inv (f : fitted) (rows xs : list (list Q)) :
  Py.map_m (check_n_features f) rows = inr xs -> xs = rows.
Proof.
  intros H. apply map_m_inv in H.
  induction H as [| x y rows xs Hxy _ IH]; [reflexivity |].
  unfold check_n_features in Hxy.
  destruct (List.length x =? n_features_in_ f); [| discriminate].
  injection Hxy as <-. now rewrite IH.
Qed.

(** What the probability cell leaves when the forest knows both classes:
    the classes are 0 and 1 in that order, [y_pred_proba] has the two votes
    of the forest for each test row, and [drought_probabilities] is its
    second column, the votes for class 1. *)
Definition drought_column (st : state) (clf : RandomForestClassifier)
    (Xte : DataFrame) (proba : list (list Q)) : Prop :=
  exists f z o rows,
    fitted_ clf = Some f /\
    classes_ f = [z; o] /\ (z == 0)%Q /\ (o == 1)%Q /\
    check_array (values Xte) = inr rows /\
    proba = map (fun x => [vote (estimators_ f) x 0; vote (estimators_ f) x 1])
              rows /\
    cell_proba st
    = (probabilities_bound proba
         (map (fun x => vote (estimators_ f) x 1) rows) st, inr tt).

(** X20.  When the labels the forest was fitted on are 0s and 1s with both
    among them, and [clf.predict_proba(X_test)] returns, the probability
    cell completes: [y_pred_proba[:, 1]] is there, and it is the forest's
    vote for class 1, the drought, row for row. *)
Theorem second_column_is_the_drought_probability
    (st : state) (clf0 clf : RandomForestClassifier) (Xtr Xte : DataFrame)
    (ytr : Series) (labels : Numpy.ndarray) (proba : list (list Q)) :
  fit clf0 Xtr ytr = inr clf ->
  column_or_1d ytr = inr labels -> binary labels ->
  (exists x, In x labels /\ (x == 0)%Q) ->
  (exists x, In x labels /\ (x == 1)%Q) ->
  globals st "clf" = Some (VForest clf) ->
  globals st "X_test" = Some (VFrame Xte) ->
  predict_proba clf Xte = inr proba ->
  drought_column st clf Xte proba.
Proof.
  intros Hfit Hcol Hb H0 H1 Hclf HX Hproba.
  destruct (fit_inv _ _ _ _ Hfit) as (rows_tr & labels' & _ & Hcol' & _ & Eclf).
  rewrite Hcol in Hcol'. injection Hcol' as <-.
  destruct (unique_both labels Hb H0 H1) as (z & o & Hu & Ez & Eo).
  set (f := mkFitted (Numpy.unique labels) (List.length (columns Xtr))
              (grow (n_estimators clf0) (random_state clf0) rows_tr labels)) in *.
  assert (Hf : fitted_ clf = Some f) by (now rewrite Eclf).
  assert (Hcl : classes_ f = [z; o]) by exact Hu.
  pose proof Hproba as Hp.
  unfold predict_proba in Hp.
  destruct (check_array (values Xte)) as [e | rows] eqn:Hrows; [discriminate |].
  cbn [Py.bind] in Hp.
  unfold predict_proba_rows, check_is_fitted in Hp. rewrite Hf in Hp.
  cbn [Py.bind Py.ret] in Hp.
  destruct (Py.map_m (check_n_features f) rows) as [e | xs] eqn:Hxs;
    [discriminate |].
  cbn [Py.bind Py.ret] in Hp. injection Hp as Ep.
  apply check_n_features_inv in Hxs. subst xs.
  rewrite Hu in Ep. cbn [List.length seq map] in Ep.
  exists f, z, o, rows.
  split; [exact Hf |]. split; [exact Hcl |]. split; [exact Ez |].
  split; [exact Eo |]. split; [exact Hrows |]. split; [symmetry; exact Ep |].
  apply (cell_proba_returns st clf Xte); auto.
  rewrite column_1_returns.
  - rewrite <- Ep, map_map. reflexivity.
  - rewrite <- Ep. apply Forall_forall. intros r Hr.
    apply in_map_iff in Hr as (x & <- & _). simpl. lia.
Qed.

End DroughtColumn.

(** The demo kernel after the prediction cell. *)
Definition before_proba : @Notebook.state Demo.Rotating Demo.Stump :=
  Notebook.kernel
    (Notebook.run (F := Demo.Exact) (Srt := Demo.Insertion) Demo.disk
       [Notebook.Load; Notebook.Separate; Notebook.Train; Notebook.Predict]
       (Notebook.empty Demo.g0)).

Definition demo_proba : list (list Q) :=
  Eval vm_compute in
    match Sklearn.predict_proba Demo.clf42 (Sklearn.X_test Demo.sp42) with
    | inr m => m
    | inl _ => []
    end.

Definition demo_train_labels : Numpy.ndarray :=
  Eval vm_compute in
    match Sklearn.column_or_1d (Sklearn.y_train Demo.sp42) with
    | inr l => l
    | inl _ => []
    end.

Lemma second_column_is_the_drought_probability_witness :
  drought_column before_proba Demo.clf42
    (Sklearn.X_test Demo.sp42) demo_proba.
Proof.
  apply (second_column_is_the_drought_probability before_proba
           (Sklearn.new 500 42) Demo.clf42
           (Sklearn.X_train Demo.sp42) (Sklearn.X_test Demo.sp42)
           (Sklearn.y_train Demo.sp42) demo_train_labels demo_proba).
  - vm_compute. reflexivity.
  - vm_compute. reflexivity.
  - repeat constructor; first [left; reflexivity | right; reflexivity].
  - exists 0%Q. split; [vm_compute; tauto | reflexivity].
  - exists 1%Q. split; [vm_compute; tauto | reflexivity].
  - vm_compute. reflexivity.
  - vm_compute. reflexivity.
  - vm_compute. reflexivity.
Defined.

(** ** The predicted droughts and precision *)

Section PredictedDroughts.
Import Pandas Sklearn Notebook.

Lemma count_snd_combine {A B} (p : B -> bool) (l1 : list A) (l2 : list B) :
  List.length l1 = List.length l2 ->
  count (fun x => p (snd x)) (combine l1 l2) = count p l2.
Proof.
  unfold count. revert l2. induction l1 as [| a l1 IH]; intros l2 H.
  - destruct l2; [reflexivity | discriminate].
  - destruct l2 as [| b l2]; [discriminate |]. simpl in *.
    destruct (p b); simpl; rewrite IH by lia; reflexivity.
Qed.

(** The droughts predicted are the true and the false positives. *)
Lemma predicted_positives (labels y_pred : list Q) :
  List.length labels = List.length y_pred ->
  Numpy.count_eq y_pred 1
  = tp (combine labels y_pred) + fp (combine labels y_pred).
Proof.
  intros Hlen. unfold tp, fp. rewrite <- count_either.
  - transitivity (count (fun x => is_pos (snd x)) (combine labels y_pred)).
    + symmetry. exact (count_snd_combine is_pos labels y_pred Hlen).
    + apply count_ext. intros p _.
      destruct (is_pos (fst p)), (is_pos (snd p)); reflexivity.
  - intros p _. destruct (is_pos (fst p)), (is_pos (snd p)); reflexivity.
Qed.

(** What cell 24 reports as precision, against the count of cell 17. *)
Definition precision_over_predicted (pairs : list (Q * Q))
    (y_pred : Numpy.ndarray) (m : MetricRecord) : Prop :=
  Numpy.count_eq y_pred 1 = tp pairs + fp pairs /\
  precision m = prf_divide (tp pairs) (Numpy.count_eq y_pred 1).

(** X21.  The number of predicted droughts that cell 17 prints
    ([np.sum(y_pred == 1)]) is the number of true positives plus false
    positives, and the precision of cell 24 is the true positives over that
    number (0 when it is 0). *)
Theorem precision_is_true_positives_over_predicted_droughts
    (y_test : Series) (y_pred : Numpy.ndarray)
    (pairs : list (Q * Q)) (m : MetricRecord) :
  evaluate y_test y_pred = inr m ->
  check_targets y_test y_pred = inr pairs ->
  precision_over_predicted pairs y_pred m.
Proof.
  intros Hm Hct. apply evaluate_inv in Hm as (_ & Hp & _).
  apply binary_score_inv in Hp as (pairs0 & Hct0 & _ & Ep).
  rewrite Hct in Hct0. injection Hct0 as <-.
  apply check_targets_inv in Hct as (labels & _ & Hlen & -> & _).
  pose proof (predicted_positives labels y_pred Hlen) as Hc.
  unfold precision_over_predicted. split; [exact Hc |].
  rewrite Ep, Hc. reflexivity.
Qed.

End PredictedDroughts.

Lemma precision_is_true_positives_over_predicted_droughts_witness :
  precision_over_predicted (combine [1; 1; 1; 0; 0]%Q mixed_pred) mixed_pred
    mixed_record.
Proof.
  apply (precision_is_true_positives_over_predicted_droughts mixed_test).
  - vm_compute. reflexivity.
  - vm_compute. reflexivity.
Defined.
